(** * Event scoring, deduplication and ranking: a shallow embedding

    The development embeds the scoring / deduplication / ranking code of the
    event routes

      - [src/app/api/events/filter/route.ts]  (module [FilterRoute]),
      - the events query route with the full rank pipeline, whose text is the
        second document of [src/app/api/events/filter/route.ts]
        (module [QueryRoute]),
      - the current [src/app/api/events/query/route.ts] (flattening step,
        module [DiscoverRoute]),
      - the scrape route in [src/unnamed/part_000] (module [ScrapeRoute],
        and [ScrapeRank] for its scoring and ranking),
      - the mock data service, third document of [src/unnamed/part_000]
        (module [MockData]),
      - the keyword-based query analysis of [src/unnamed/part_006]
        (module [EventDetection]),
      - the validation and the fall-back filter of
        [src/lib/ai/eventFilter.ts] (module [EventFilter]),
      - the hashtag and title helpers of [src/lib/services/apify.ts]
        (module [Apify]),
      - the discovery trigger of [src/unnamed/part_001]
        (module [EventPipeline]),

    and proves properties of these embeddings.

    Modelling conventions.

    - A JavaScript number is an IEEE-754 binary64 value: [spec_float] with
      [prec = 53] and [emax = 1024], rounding to nearest-even, so every
      arithmetic step rounds exactly as the engine does and [NaN] is a value.
    - A JavaScript string is modelled by [string]; a character stands for a
      UTF-16 code unit below 256 (the Latin-1 range).
    - A candidate is a JSON object whose fields hold [undefined], [null], a
      boolean or a string.  Calling a string method on a boolean raises a
      [TypeError]; a computation that can raise lives in the [option] monad
      and [None] is the raised exception. *)

From Stdlib Require Import ZArith NArith String Ascii List Bool Lia Permutation.
From Stdlib Require Import Sorting.Sorted.
From Stdlib Require Import Floats.SpecFloat.
From stdpp Require Import base option list strings gmap.

Open Scope string_scope.

(** ** Strings *)

Module JsString.

(** [String.prototype.toLowerCase] on one code unit of the Latin-1 range:
    A-Z and the accented capitals U+00C0..U+00DE (except the multiplication
    sign U+00D7) move up by 32. *)
Definition toLowerCaseChar (c : ascii) : ascii :=
  let n := N_of_ascii c in
  if ((65 <=? n) && (n <=? 90) ||
      (192 <=? n) && (n <=? 222) && negb (n =? 215))%N
  then ascii_of_N (n + 32) else c.

Fixpoint toLowerCase (s : string) : string :=
  match s with
  | EmptyString => EmptyString
  | String c r => String (toLowerCaseChar c) (toLowerCase r)
  end.

(** [hay.includes(needle)] *)
Fixpoint includes (hay needle : string) : bool :=
  String.prefix needle hay ||
  match hay with
  | EmptyString => false
  | String _ r => includes r needle
  end.

(** The regular-expression class [\s] below code unit 256. *)
Definition isWhiteSpace (c : ascii) : bool :=
  let n := N_of_ascii c in
  ((9 <=? n) && (n <=? 13) || (n =? 32) || (n =? 160))%N.

(** [s.split(/\s+/)]: the pieces between the maximal runs of white space;
    a leading or trailing run yields an empty first or last piece, and the
    empty string yields one empty piece. *)
Fixpoint splitGo (inSep : bool) (cur : string) (s : string) : list string :=
  match s with
  | EmptyString => [cur]
  | String c r =>
      if isWhiteSpace c then
        if inSep then splitGo true cur r
        else cur :: splitGo true EmptyString r
      else splitGo false (cur ++ String c EmptyString) r
  end.

Definition splitWhiteSpace (s : string) : list string :=
  splitGo false EmptyString s.

(** [s.replace(/[^a-z]/g, '')] *)
Definition isLowerLetter (c : ascii) : bool :=
  let n := N_of_ascii c in ((97 <=? n) && (n <=? 122))%N.

Fixpoint stripNonLetters (s : string) : string :=
  match s with
  | EmptyString => EmptyString
  | String c r =>
      if isLowerLetter c then String c (stripNonLetters r)
      else stripNonLetters r
  end.

End JsString.

(** ** Numbers *)

Module Number.

Definition prec : Z := 53.
Definition emax : Z := 1024.

Definition t := spec_float.

Definition NaN : t := S754_nan.
Definition zero : t := S754_zero false.

Definition add : t -> t -> t := SFadd prec emax.
Definition sub : t -> t -> t := SFsub prec emax.
Definition mul : t -> t -> t := SFmul prec emax.
Definition div : t -> t -> t := SFdiv prec emax.

(** [a > b] and [a <= b]; both are false when an operand is [NaN]. *)
Definition gt (a b : t) : bool := SFltb b a.
Definition le (a b : t) : bool := SFleb a b.

(** The number of an integer, as for an array or string length. *)
Definition ofZ (z : Z) : t := binary_normalize prec emax z 0 false.
Definition ofNat (n : nat) : t := ofZ (Z.of_nat n).

(** The decimal literal [n/d] for the small fractions of the source: the
    correctly rounded quotient of two exactly represented integers is the
    binary64 value nearest to the decimal. *)
Definition decimal (n d : Z) : t := div (ofZ n) (ofZ d).

Definition c1_0  : t := Eval vm_compute in ofZ 1.
Definition c0_7  : t := Eval vm_compute in decimal 7 10.
Definition c0_6  : t := Eval vm_compute in decimal 6 10.
Definition c0_4  : t := Eval vm_compute in decimal 4 10.
Definition c0_3  : t := Eval vm_compute in decimal 3 10.
Definition c0_2  : t := Eval vm_compute in decimal 2 10.
Definition c0_1  : t := Eval vm_compute in decimal 1 10.
Definition c0_05 : t := Eval vm_compute in decimal 5 100.

(** [Math.min(x, y)]: [NaN] when an operand is, and [-0] below [+0]. *)
Definition min (x y : t) : t :=
  match SFcompare x y with
  | None => NaN
  | Some Lt => x
  | Some Gt => y
  | Some Eq =>
      match x, y with
      | S754_zero sx, S754_zero sy => S754_zero (sx || sy)
      | _, _ => x
      end
  end.

(** The closed interval [[0.0, 1.0]]. *)
Definition inUnit (x : t) : bool := le zero x && le x c1_0.

(** Not [NaN] and not below zero. *)
Definition nonneg (x : t) : bool :=
  match x with
  | S754_zero _ | S754_infinity false | S754_finite false _ _ => true
  | _ => false
  end.

(** Finite and above zero. *)
Definition positiveFinite (x : t) : bool :=
  match x with
  | S754_finite false _ _ => true
  | _ => false
  end.

(** An array holds fewer than [2^32] elements. *)
Definition maxArrayLength : Z := 2 ^ 32.

End Number.

Declare Scope num_scope.
Delimit Scope num_scope with num.
Bind Scope num_scope with Number.t.
Infix "+" := Number.add : num_scope.
Infix "-" := Number.sub : num_scope.
Infix "*" := Number.mul : num_scope.
Infix "/" := Number.div : num_scope.
Infix ">?" := Number.gt : num_scope.

(** ** Values and candidates *)

Inductive jsval :=
  | VUndefined
  | VNull
  | VBool (b : bool)
  | VString (s : string).

(** ToBoolean *)
Definition truthy (v : jsval) : bool :=
  match v with
  | VBool b => b
  | VString s => negb (String.eqb s "")
  | _ => false
  end.

(** ToString, as a template literal applies it *)
Definition toStr (v : jsval) : string :=
  match v with
  | VUndefined => "undefined"
  | VNull => "null"
  | VBool true => "true"
  | VBool false => "false"
  | VString s => s
  end.

(** [a || b] *)
Definition orElse (a b : jsval) : jsval := if truthy a then a else b.

(** [v.toLowerCase()], for [v] not nullish: a boolean has no such method. *)
Definition callToLowerCase (v : jsval) : option string :=
  match v with
  | VString s => Some (JsString.toLowerCase s)
  | _ => None
  end.

(** [v.length > n]: [undefined > n] is false when [v] is not a string. *)
Definition lengthGt (v : jsval) (n : nat) : bool :=
  match v with
  | VString s => Number.gt (Number.ofNat (String.length s)) (Number.ofNat n)
  | _ => false
  end.

(** A string parameter that may be [undefined]. *)
Definition truthyParam (p : option string) : bool :=
  match p with
  | Some s => negb (String.eqb s "")
  | None => false
  end.

Module RawEvent.
Record t := {
  id : jsval;
  title : jsval;
  description : jsval;
  location : jsval;
  dateTime : jsval;
  platform : jsval;
  sourceUrl : jsval;
  imageUrl : jsval;
  eventType : jsval
}.
End RawEvent.

(** The object [{...event, relevanceScore, isStudentFriendly,
    studentFriendlinessScore, eventType, keywords}]: the candidate's own
    fields ([base]) and the five computed ones, which override any field of
    the same name the candidate carried. *)
Module FilteredEvent.
Record t := {
  base : RawEvent.t;
  relevanceScore : Number.t;
  isStudentFriendly : bool;
  studentFriendlinessScore : Number.t;
  eventType : string;
  keywords : list string
}.
End FilteredEvent.

Module ScrapingResult.
Record t := {
  success : bool;
  events : list RawEvent.t;
  error : option string;
  platform : string
}.
End ScrapingResult.

(** ** Arrays *)

Module JsArray.
Section Ops.
Context {A : Type}.

(** [arr.sort(comparefn)]: a stable sort; [x] moves behind [y] only when
    [comparefn(x, y) > 0], and a [NaN] result counts as [+0].  For a
    comparator that is not a consistent order (scores that are [NaN])
    the standard leaves the resulting order to the engine; the theorems
    below then use only that sorting permutes the array. *)
Fixpoint insertSorted (comparefn : A -> A -> Number.t) (x : A)
         (l : list A) : list A :=
  match l with
  | [] => [x]
  | y :: r =>
      if Number.gt (comparefn x y) Number.zero
      then y :: insertSorted comparefn x r
      else x :: l
  end.

Definition sort (comparefn : A -> A -> Number.t) (l : list A) : list A :=
  foldr (insertSorted comparefn) [] l.

(** [arr.slice(0, k)] for an integer [k]: a negative [k] counts from the
    end of the array. *)
Definition slice0 (l : list A) (k : Z) : list A :=
  if (k <? 0)%Z
  then take (Z.to_nat (Z.max (Z.of_nat (length l) + k) 0)) l
  else take (Z.to_nat k) l.

(** [arr.filter(callback)] for a callback that records the key of every
    element it keeps in a [Set] and rejects an element whose key the set
    already has; the callback raises when computing the key does. *)
Fixpoint filterUnseen (key : A -> option string) (seen : gset string)
         (l : list A) : option (list A) :=
  match l with
  | [] => Some []
  | x :: r =>
      k ← key x;
      if decide (k ∈ seen) then filterUnseen key seen r
      else (x ::.) <$> filterUnseen key ({[k]} ∪ seen) r
  end.
End Ops.
End JsArray.

(** ** Functions the filter route and the query route share

    [calculateStudentFriendlinessScore], [categorizeEventByKeywords] and
    [extractKeywordsFromEvent] have the same text in both route files. *)

Import JsString.
Local Open Scope num_scope.

(** [`${event.title || ''} ${event.description || ''}`.toLowerCase()] *)
Definition eventText (event : RawEvent.t) : string :=
  toLowerCase
    (toStr (orElse (RawEvent.title event) (VString "")) ++ " " ++
     toStr (orElse (RawEvent.description event) (VString "")))%string.

(** [if (cond) score += w;] *)
Definition bump (cond : bool) (w : Number.t) (score : Number.t) : Number.t :=
  if cond then score + w else score.

Definition calculateStudentFriendlinessScore (event : RawEvent.t) : Number.t :=
  let score := Number.zero in
  let text := eventText event in
  let score := bump (includes text "student") Number.c0_3 score in
  let score := bump (includes text "study abroad") Number.c0_3 score in
  let score := bump (includes text "international") Number.c0_2 score in
  let score := bump (includes text "university" || includes text "college")
                    Number.c0_2 score in
  let score := bump (includes text "campus") Number.c0_2 score in
  let score := bump (includes text "18+" || includes text "21+")
                    Number.c0_1 score in
  let score := bump (includes text "all ages" || includes text "family")
                    Number.c0_1 score in
  let score := bump (includes text "free" || includes text "no cost")
                    Number.c0_2 score in
  let score := bump (includes text "cheap" || includes text "affordable")
                    Number.c0_1 score in
  let score := bump (includes text "budget") Number.c0_1 score in
  let score := bump (includes text "meet" || includes text "social")
                    Number.c0_1 score in
  let score := bump (includes text "networking") Number.c0_1 score in
  let score := bump (includes text "party" || includes text "celebration")
                    Number.c0_1 score in
  Number.min score Number.c1_0.

Definition categorizeEventByKeywords (event : RawEvent.t) : string :=
  let text := eventText event in
  if includes text "party" || includes text "meetup" || includes text "social"
  then "social"
  else if includes text "workshop" || includes text "seminar" ||
          includes text "lecture"
  then "academic"
  else if includes text "museum" || includes text "art" ||
          includes text "culture"
  then "cultural"
  else if includes text "sport" || includes text "fitness" ||
          includes text "outdoor"
  then "sports"
  else if includes text "bar" || includes text "club" ||
          includes text "nightlife"
  then "nightlife"
  else if includes text "food" || includes text "restaurant" ||
          includes text "dining"
  then "food"
  else if includes text "concert" || includes text "show" ||
          includes text "performance"
  then "entertainment"
  else if includes text "hiking" || includes text "park" ||
          includes text "nature"
  then "outdoor"
  else if includes text "skill" || includes text "diy" ||
          includes text "hands-on"
  then "workshop"
  else if includes text "networking" || includes text "professional" ||
          includes text "business"
  then "networking"
  else "general".

(** [if (text.includes(word)) keywords.push(tag);] *)
Definition pushIf (text word tag : string) (keywords : list string)
  : list string :=
  if includes text word then keywords ++ [tag] else keywords.

Definition extractKeywordsFromEvent (event : RawEvent.t) : list string :=
  let keywords : list string := [] in
  let text := eventText event in
  let keywords := pushIf text "party" "party" keywords in
  let keywords := pushIf text "concert" "concert" keywords in
  let keywords := pushIf text "workshop" "workshop" keywords in
  let keywords := pushIf text "meetup" "meetup" keywords in
  let keywords := pushIf text "bar" "bar" keywords in
  let keywords := pushIf text "club" "club" keywords in
  let keywords := pushIf text "restaurant" "restaurant" keywords in
  let keywords := pushIf text "dance" "dancing" keywords in
  let keywords := pushIf text "drink" "drinking" keywords in
  let keywords := pushIf text "eat" "food" keywords in
  let keywords := pushIf text "sightsee" "sightseeing" keywords in
  let keywords := pushIf text "tour" "tour" keywords in
  let keywords := pushIf text "tonight" "tonight" keywords in
  let keywords := pushIf text "weekend" "weekend" keywords in
  let keywords := pushIf text "this week" "this week" keywords in
  let keywords := pushIf text "student" "student" keywords in
  let keywords := pushIf text "study abroad" "study abroad" keywords in
  let keywords := pushIf text "international" "international" keywords in
  (* [...new Set(keywords)] *)
  default [] (JsArray.filterUnseen Some ∅ keywords).

(** [query.split(/\s+/).filter((word) => word.length > 2)] on the
    lower-cased query *)
Definition queryWords (query : string) : list string :=
  List.filter (fun word => (2 <? String.length word)%nat)
              (splitWhiteSpace query).

(** [queryWords.filter((word) => eventText.includes(word))] *)
Definition matchingWords (text : string) (words : list string) : list string :=
  List.filter (fun word => includes text word) words.

(** [event.eventType === eventType] *)
Definition strictEqString (v : jsval) (s : string) : bool :=
  match v with
  | VString s' => String.eqb s' s
  | _ => false
  end.

(** The statements after the location test are the same in both routes. *)
Definition relevanceTail (event : RawEvent.t) (eventType : option string)
           (score : Number.t) : Number.t :=
  (* Event type matching *)
  let score :=
    if truthyParam eventType && truthy (RawEvent.eventType event)
    then bump (strictEqString (RawEvent.eventType event) (default "" eventType))
              Number.c0_2 score
    else score in
  (* Content quality bonus *)
  let score := bump (truthy (RawEvent.description event) &&
                     lengthGt (RawEvent.description event) 50)
                    Number.c0_1 score in
  let score := bump (truthy (RawEvent.imageUrl event)) Number.c0_05 score in
  let score := bump (truthy (RawEvent.dateTime event)) Number.c0_05 score in
  Number.min score Number.c1_0.

(** [score += (matchingWords.length / queryWords.length) * 0.4] from
    [score = 0] *)
Definition overlapScore (event : RawEvent.t) (query : string) : Number.t :=
  let score := Number.zero in
  let eventText := eventText event in
  let queryWords := queryWords (toLowerCase query) in
  let matchingWords := matchingWords eventText queryWords in
  score + (Number.ofNat (length matchingWords) /
           Number.ofNat (length queryWords)) * Number.c0_4.

Definition mkFiltered (event : RawEvent.t) (relevanceScore : Number.t)
           (studentFriendlinessScore : Number.t) (eventType : option string)
  : FilteredEvent.t :=
  {| FilteredEvent.base := event;
     FilteredEvent.relevanceScore := relevanceScore;
     FilteredEvent.isStudentFriendly :=
       studentFriendlinessScore >? Number.c0_6;
     FilteredEvent.studentFriendlinessScore := studentFriendlinessScore;
     FilteredEvent.eventType :=
       if truthyParam eventType then default "" eventType
       else categorizeEventByKeywords event;
     FilteredEvent.keywords := extractKeywordsFromEvent event |}.

(** ** The filter route: [src/app/api/events/filter/route.ts] *)

Module FilterRoute.

(** [calculateRelevanceScore(event, originalQuery, location?, eventType?)] *)
Definition calculateRelevanceScore (event : RawEvent.t)
           (originalQuery : string) (location eventType : option string)
  : option Number.t :=
  (* Query keyword matching *)
  let score := overlapScore event originalQuery in
  (* Location matching *)
  score ←
    (if truthyParam location && truthy (RawEvent.location event)
     then
       lowered ← callToLowerCase (RawEvent.location event);
       let locationMatch :=
         includes lowered (toLowerCase (default "" location)) in
       Some (bump locationMatch Number.c0_3 score)
     else Some score);
  Some (relevanceTail event eventType score).

(** The body of the [try] block of the loop: the events it pushes, or
    [None] when a statement raises. *)
Definition tryBody (event : RawEvent.t) (originalQuery : string)
           (location eventType : option string)
  : option (list FilteredEvent.t) :=
  relevanceScore ← calculateRelevanceScore event originalQuery
                                           location eventType;
  let studentFriendlinessScore := calculateStudentFriendlinessScore event in
  if relevanceScore >? Number.c0_3
  then Some [mkFiltered event relevanceScore studentFriendlinessScore
                        eventType]
  else Some [].

(** One iteration of [for (const event of events) { try {…} catch {…} }]:
    the [catch] clause logs and continues with the array unchanged. *)
Definition loopStep (originalQuery : string)
           (location eventType : option string)
           (filteredEvents : list FilteredEvent.t) (event : RawEvent.t)
  : list FilteredEvent.t :=
  match tryBody event originalQuery location eventType with
  | Some pushed => filteredEvents ++ pushed
  | None => filteredEvents
  end.

(** [(a, b) => b.relevanceScore - a.relevanceScore] *)
Definition byRelevance (a b : FilteredEvent.t) : Number.t :=
  FilteredEvent.relevanceScore b - FilteredEvent.relevanceScore a.

Definition filterAndRankEvents (events : list RawEvent.t)
           (originalQuery : string) (location eventType : option string)
  : list FilteredEvent.t :=
  let filteredEvents :=
    fold_left (loopStep originalQuery location eventType) events [] in
  JsArray.sort byRelevance filteredEvents.

End FilterRoute.

(** ** The query route with the rank pipeline: second document of
       [src/app/api/events/filter/route.ts]; the helper functions are also
       those of [src/app/api/events/query/route.ts] *)

Module QueryRoute.

(** [event.f?.toLowerCase().replace(/[^a-z]/g, '') || ''] *)
Definition normalizedField (v : jsval) : option string :=
  match v with
  | VUndefined | VNull => Some ""
  | _ => lowered ← callToLowerCase v; Some (stripNonLetters lowered)
  end.

(** [`${title}_${location}`] *)
Definition eventKey (event : RawEvent.t) : option string :=
  title ← normalizedField (RawEvent.title event);
  location ← normalizedField (RawEvent.location event);
  Some (title ++ "_" ++ location)%string.

Definition removeDuplicateEvents (events : list RawEvent.t)
  : option (list RawEvent.t) :=
  JsArray.filterUnseen eventKey ∅ events.

(** [calculateRelevanceScore(event, query, location, eventType?)] *)
Definition calculateRelevanceScore (event : RawEvent.t) (query : string)
           (location : string) (eventType : option string)
  : option Number.t :=
  (* Query keyword matching *)
  let score := overlapScore event query in
  (* Location matching *)
  score ←
    (if truthy (RawEvent.location event)
     then
       lowered ← callToLowerCase (RawEvent.location event);
       let locationMatch := includes lowered (toLowerCase location) in
       Some (bump locationMatch Number.c0_3 score)
     else Some score);
  Some (relevanceTail event eventType score).

(** The callback of [events.map] *)
Definition scoreEvent (query location : string) (eventType : option string)
           (event : RawEvent.t) : option FilteredEvent.t :=
  relevanceScore ← calculateRelevanceScore event query location eventType;
  let studentFriendlinessScore := calculateStudentFriendlinessScore event in
  Some (mkFiltered event relevanceScore studentFriendlinessScore eventType).

Definition combinedScore (a : FilteredEvent.t) : Number.t :=
  FilteredEvent.relevanceScore a * Number.c0_7 +
  FilteredEvent.studentFriendlinessScore a * Number.c0_3.

(** [(a, b) => bScore - aScore] *)
Definition byCombinedScore (a b : FilteredEvent.t) : Number.t :=
  let aScore := combinedScore a in
  let bScore := combinedScore b in
  bScore - aScore.

Definition scoreAndRankEvents (events : list RawEvent.t)
           (query location : string) (eventType : option string)
  : option (list FilteredEvent.t) :=
  scored ← mapM (scoreEvent query location eventType) events;
  Some (JsArray.sort byCombinedScore scored).

(** [scrapingResults.filter((result) => result.success)
                    .flatMap((result) => result.events)] *)
Definition flattenResults (scrapingResults : list ScrapingResult.t)
  : list RawEvent.t :=
  flat_map ScrapingResult.events
           (List.filter ScrapingResult.success scrapingResults).

Definition isStudentFriendlyEnough (event : FilteredEvent.t) : bool :=
  FilteredEvent.studentFriendlinessScore event >? Number.c0_4.

(** Steps 7 and 8 of [POST] *)
Definition limitResults (scoredEvents : list FilteredEvent.t)
           (maxResults : Z) : list FilteredEvent.t :=
  let studentFriendlyEvents :=
    List.filter isStudentFriendlyEnough scoredEvents in
  JsArray.slice0
    (if (0 <? length studentFriendlyEvents)%nat
     then studentFriendlyEvents else scoredEvents)
    maxResults.

(** Steps 5 to 8 of [POST]: from the scraping results to the [events] of
    the response; [None] is an exception that reaches the handler's
    [catch] (status 500).  Step 5.5 (the language-model analysis that fills
    [enhancedEvents]) takes no part in [events] and is left out. *)
Definition rankEvents (scrapingResults : list ScrapingResult.t)
           (query targetLocation : string) (eventType : option string)
           (maxResults : Z) : option (list FilteredEvent.t) :=
  let allEvents := flattenResults scrapingResults in
  if (length allEvents =? 0)%nat then Some []
  else
    uniqueEvents ← removeDuplicateEvents allEvents;
    scoredEvents ← scoreAndRankEvents uniqueEvents query targetLocation
                                      eventType;
    Some (limitResults scoredEvents maxResults).

End QueryRoute.

(** ** The current [src/app/api/events/query/route.ts] *)

Module DiscoverRoute.

(** [scrapingResults.flatMap(result => result.success ? result.events : [])] *)
Definition flattenResults (scrapingResults : list ScrapingResult.t)
  : list RawEvent.t :=
  flat_map (fun result =>
              if ScrapingResult.success result
              then ScrapingResult.events result else [])
           scrapingResults.

End DiscoverRoute.

(** ** The scrape route: second document of [src/unnamed/part_000] *)

Module ScrapeRoute.

(** [${event.title?.toLowerCase().replace(/[^a-z]/g, '')}]: a missing title
    prints as ["undefined"]. *)
Definition titlePart (v : jsval) : option string :=
  match v with
  | VUndefined | VNull => Some "undefined"
  | _ => lowered ← callToLowerCase v; Some (stripNonLetters lowered)
  end.

(** [${event.location?.toLowerCase()}] *)
Definition locationPart (v : jsval) : option string :=
  match v with
  | VUndefined | VNull => Some "undefined"
  | _ => callToLowerCase v
  end.

Definition eventKey (event : RawEvent.t) : option string :=
  title ← titlePart (RawEvent.title event);
  location ← locationPart (RawEvent.location event);
  Some (title ++ "_" ++ location)%string.

Definition removeDuplicateEvents (events : list RawEvent.t)
  : option (list RawEvent.t) :=
  JsArray.filterUnseen eventKey ∅ events.

End ScrapeRoute.

(** ** The ordered keyword rules, as the specification lists them *)

Module Spec.

(** The rule table of the categorizer: keyword group and category, in the
    documented order. *)
Definition categoryRules : list (list string * string) :=
  [ (["party"; "meetup"; "social"], "social");
    (["workshop"; "seminar"; "lecture"], "academic");
    (["museum"; "art"; "culture"], "cultural");
    (["sport"; "fitness"; "outdoor"], "sports");
    (["bar"; "club"; "nightlife"], "nightlife");
    (["food"; "restaurant"; "dining"], "food");
    (["concert"; "show"; "performance"], "entertainment");
    (["hiking"; "park"; "nature"], "outdoor");
    (["skill"; "diy"; "hands-on"], "workshop");
    (["networking"; "professional"; "business"], "networking") ].

Definition ruleMatches (text : string) (rule : list string * string) : bool :=
  existsb (includes text) rule.1.

(** The category of the first rule whose keyword group matches the text,
    and [general] when no rule matches. *)
Definition firstMatchingCategory (rules : list (list string * string))
           (text : string) : string :=
  match List.find (ruleMatches text) rules with
  | Some rule => rule.2
  | None => "general"
  end.

(** The keywords of the rules that precede the nightlife rule. *)
Definition keywordsBeforeNightlife : list string :=
  flat_map fst (take 4 categoryRules).

End Spec.

(** ** The threshold invariant of an output object

    [isStudentFriendly] is the threshold function of the score, and the score
    is the one computed for the candidate. *)
Definition thresholdHolds (s : FilteredEvent.t) : Prop :=
  FilteredEvent.isStudentFriendly s
  = (FilteredEvent.studentFriendlinessScore s >? Number.c0_6)
  /\ FilteredEvent.studentFriendlinessScore s
     = calculateStudentFriendlinessScore (FilteredEvent.base s).

(** ** Candidates of the declared [RawEvent] type

    The interface [RawEvent] of [src/lib/services/apify.ts] declares [title]
    a string and [location] an optional string. *)

Definition stringOrAbsent (v : jsval) : bool :=
  match v with
  | VBool _ => false
  | _ => true
  end.

Definition wellTyped (event : RawEvent.t) : bool :=
  stringOrAbsent (RawEvent.title event) &&
  stringOrAbsent (RawEvent.location event).

(** ** Sample candidates *)

Module Sample.

Definition event (id platform title description location : string)
  : RawEvent.t :=
  {| RawEvent.id := VString id;
     RawEvent.title := VString title;
     RawEvent.description := VString description;
     RawEvent.location := VString location;
     RawEvent.dateTime := VUndefined;
     RawEvent.platform := VString platform;
     RawEvent.sourceUrl := VString "";
     RawEvent.imageUrl := VUndefined;
     RawEvent.eventType := VUndefined |}.

Definition hikingThenBar : RawEvent.t :=
  event "1" "reddit" "Hiking trip" "we end the day at a bar" "Madrid".

Definition hikingPartyBar : RawEvent.t :=
  event "2" "reddit" "Hiking party" "we end the day at a bar" "Madrid".

(** The scenario of the specification's testable properties. *)
Definition studentBarNight : RawEvent.t :=
  event "ig-1" "instagram" "Student bar night"
        "cheap drinks, free entry, student discount" "Barcelona".

(** Two posts of one event on two platforms, and another event. *)
Definition tapasInstagram : RawEvent.t :=
  event "ig-7" "instagram" "Tapas Night!" "student tapas crawl" "Barcelona".
Definition tapasReddit : RawEvent.t :=
  event "t3_x1" "reddit" "tapas night" "tapas crawl, free entry" "barcelona".
Definition museumTour : RawEvent.t :=
  event "ig-9" "instagram" "Museum tour" "guided tour" "Barcelona".

(** A candidate of a request body whose [location] is the JSON value
    [true]: [event.location.toLowerCase] is not a function. *)
Definition locationIsTrue : RawEvent.t :=
  {| RawEvent.id := VString "x";
     RawEvent.title := VString "Tapas night";
     RawEvent.description := VUndefined;
     RawEvent.location := VBool true;
     RawEvent.dateTime := VUndefined;
     RawEvent.platform := VString "upload";
     RawEvent.sourceUrl := VString "";
     RawEvent.imageUrl := VUndefined;
     RawEvent.eventType := VUndefined |}.

(** A candidate that already carries an [eventType]. *)
Definition typedMuseumTour : RawEvent.t :=
  {| RawEvent.id := VString "ig-9";
     RawEvent.title := VString "Museum tour";
     RawEvent.description := VString "guided tour";
     RawEvent.location := VString "Barcelona";
     RawEvent.dateTime := VUndefined;
     RawEvent.platform := VString "instagram";
     RawEvent.sourceUrl := VString "";
     RawEvent.imageUrl := VUndefined;
     RawEvent.eventType := VString "cultural" |}.

Definition failedResult : ScrapingResult.t :=
  {| ScrapingResult.success := false;
     ScrapingResult.events := [hikingThenBar];
     ScrapingResult.error := Some "timeout";
     ScrapingResult.platform := "reddit" |}.

Definition museumResult : ScrapingResult.t :=
  {| ScrapingResult.success := true;
     ScrapingResult.events := [museumTour; hikingThenBar];
     ScrapingResult.error := None;
     ScrapingResult.platform := "instagram" |}.

Definition instagramResult : ScrapingResult.t :=
  {| ScrapingResult.success := true;
     ScrapingResult.events := [tapasInstagram; museumTour];
     ScrapingResult.error := None;
     ScrapingResult.platform := "instagram" |}.

End Sample.

(** ** The keyword pushes of [extractKeywordsFromEvent]

    The trigger word and the tag of each statement
    [if (text.includes(word)) keywords.push(tag)], in source order. *)
Definition keywordTriggers : list (string * string) :=
  [ ("party", "party"); ("concert", "concert"); ("workshop", "workshop");
    ("meetup", "meetup"); ("bar", "bar"); ("club", "club");
    ("restaurant", "restaurant");
    ("dance", "dancing"); ("drink", "drinking"); ("eat", "food");
    ("sightsee", "sightseeing"); ("tour", "tour");
    ("tonight", "tonight"); ("weekend", "weekend");
    ("this week", "this week");
    ("student", "student"); ("study abroad", "study abroad");
    ("international", "international") ].

(** The tags whose trigger word occurs in the text, in source order. *)
Definition triggeredTags (triggers : list (string * string)) (text : string)
  : list string :=
  List.map snd (List.filter (fun p => includes text (fst p)) triggers).

(** Neighbours in an array that a comparator does not ask to swap. *)
Definition inOrder {A : Type} (comparefn : A -> A -> Number.t) (a b : A)
  : Prop :=
  (comparefn a b >? Number.zero) = false.

(** ** Keyword-based query analysis: [src/unnamed/part_006] (the same
       functions are in the second document of [src/unnamed/part_005]) *)

Module EventDetection.

Definition eventKeywords : list string :=
  [ "event"; "party"; "meetup"; "activity"; "thing to do"; "go to"; "bar";
    "club"; "restaurant"; "concert"; "show"; "workshop"; "tour"; "visit";
    "see"; "experience"; "enjoy"; "fun" ].

(** [eventKeywords.some((keyword) => lowerMessage.includes(keyword))] *)
Definition fallbackEventDetection (message : string) : bool :=
  let lowerMessage := toLowerCase message in
  existsb (fun keyword => includes lowerMessage keyword) eventKeywords.

(** [None] is the result [null]. *)
Definition fallbackEventCategorization (message : string) : option string :=
  let lowerMessage := toLowerCase message in
  if includes lowerMessage "party" || includes lowerMessage "meetup" ||
     includes lowerMessage "social"
  then Some "social"
  else if includes lowerMessage "workshop" || includes lowerMessage "seminar" ||
          includes lowerMessage "lecture"
  then Some "academic"
  else if includes lowerMessage "museum" || includes lowerMessage "art" ||
          includes lowerMessage "culture"
  then Some "cultural"
  else if includes lowerMessage "sport" || includes lowerMessage "fitness" ||
          includes lowerMessage "outdoor"
  then Some "sports"
  else if includes lowerMessage "bar" || includes lowerMessage "club" ||
          includes lowerMessage "nightlife"
  then Some "nightlife"
  else if includes lowerMessage "food" || includes lowerMessage "restaurant" ||
          includes lowerMessage "dining"
  then Some "food"
  else if includes lowerMessage "concert" || includes lowerMessage "show" ||
          includes lowerMessage "performance"
  then Some "entertainment"
  else if includes lowerMessage "hiking" || includes lowerMessage "park" ||
          includes lowerMessage "nature"
  then Some "outdoor"
  else if includes lowerMessage "skill" || includes lowerMessage "diy" ||
          includes lowerMessage "hands-on"
  then Some "workshop"
  else if includes lowerMessage "networking" ||
          includes lowerMessage "professional" ||
          includes lowerMessage "business"
  then Some "networking"
  else None.

Definition fallbackKeywordExtraction (message : string) : list string :=
  let keywords : list string := [] in
  let lowerMessage := toLowerCase message in
  let keywords := pushIf lowerMessage "party" "party" keywords in
  let keywords := pushIf lowerMessage "concert" "concert" keywords in
  let keywords := pushIf lowerMessage "workshop" "workshop" keywords in
  let keywords := pushIf lowerMessage "meetup" "meetup" keywords in
  let keywords := pushIf lowerMessage "bar" "bar" keywords in
  let keywords := pushIf lowerMessage "club" "club" keywords in
  let keywords := pushIf lowerMessage "restaurant" "restaurant" keywords in
  let keywords := pushIf lowerMessage "dance" "dancing" keywords in
  let keywords := pushIf lowerMessage "drink" "drinking" keywords in
  let keywords := pushIf lowerMessage "eat" "food" keywords in
  let keywords := pushIf lowerMessage "sightsee" "sightseeing" keywords in
  let keywords := pushIf lowerMessage "tour" "tour" keywords in
  let keywords := pushIf lowerMessage "tonight" "tonight" keywords in
  let keywords := pushIf lowerMessage "weekend" "weekend" keywords in
  let keywords := pushIf lowerMessage "this week" "this week" keywords in
  keywords.

(** The confidence that [analyzeEventQuery] computes from the four
    extracted values ([location] and [eventType] are [null] or a string). *)
Definition queryConfidence (isEvent : bool) (location eventType : option string)
           (keywords : list string) : Number.t :=
  let confidence := Number.zero in
  let confidence := bump isEvent Number.c0_4 confidence in
  let confidence := bump (truthyParam location) Number.c0_3 confidence in
  let confidence := bump (truthyParam eventType) Number.c0_2 confidence in
  let confidence := bump (0 <? length keywords)%nat Number.c0_1 confidence in
  confidence.

(** The event-type tags among the keyword tags. *)
Definition eventTypeTags : list string :=
  [ "party"; "concert"; "workshop"; "meetup"; "bar"; "club"; "restaurant";
    "tour" ].

End EventDetection.

(** ** The scrape route after flattening: second document of
       [src/unnamed/part_000] *)

Module ScrapeRank.

(** A candidate with the fields [calculateEventScore] reads beyond those of
    [RawEvent.t]; [tags] is an array or absent. *)
Record event := {
  core : RawEvent.t;
  organizer : jsval;
  price : jsval;
  tags : option (list string)
}.

(** [event.description?.toLowerCase().includes(word)]: [undefined] (falsy)
    for a nullish description. *)
Definition descriptionMentions (v : jsval) (word : string) : option bool :=
  match v with
  | VUndefined | VNull => Some false
  | _ => lowered ← callToLowerCase v; Some (includes lowered word)
  end.

Definition calculateEventScore (e : event) : option Number.t :=
  let score := Number.zero in
  let score := bump (truthy (RawEvent.title (core e))) (Number.ofZ 10) score in
  let score := bump (truthy (RawEvent.description (core e)))
                    (Number.ofZ 5) score in
  let score := bump (truthy (RawEvent.location (core e)))
                    (Number.ofZ 8) score in
  let score := bump (truthy (RawEvent.dateTime (core e)))
                    (Number.ofZ 7) score in
  let score := bump (truthy (RawEvent.imageUrl (core e)))
                    (Number.ofZ 3) score in
  let score := bump (truthy (organizer e)) (Number.ofZ 2) score in
  let score := bump (truthy (price e)) (Number.ofZ 1) score in
  let score := bump (match tags e with
                     | Some ts => (0 <? length ts)%nat
                     | None => false
                     end) (Number.ofZ 2) score in
  student ← descriptionMentions (RawEvent.description (core e)) "student";
  let score := bump student (Number.ofZ 5) score in
  abroad ← descriptionMentions (RawEvent.description (core e)) "study abroad";
  let score := bump abroad (Number.ofZ 5) score in
  international ← descriptionMentions (RawEvent.description (core e))
                                      "international";
  let score := bump international (Number.ofZ 3) score in
  Some score.

(** The integer the statements of [calculateEventScore] add up. *)
Definition points (e : event) : Z :=
  let d := RawEvent.description (core e) in
  (if truthy (RawEvent.title (core e)) then 10 else 0)
  + (if truthy d then 5 else 0)
  + (if truthy (RawEvent.location (core e)) then 8 else 0)
  + (if truthy (RawEvent.dateTime (core e)) then 7 else 0)
  + (if truthy (RawEvent.imageUrl (core e)) then 3 else 0)
  + (if truthy (organizer e) then 2 else 0)
  + (if truthy (price e) then 1 else 0)
  + (match tags e with Some (_ :: _) => 2 | _ => 0 end)
  + (if default false (descriptionMentions d "student") then 5 else 0)
  + (if default false (descriptionMentions d "study abroad") then 5 else 0)
  + (if default false (descriptionMentions d "international") then 3 else 0).

(** [(a, b) => calculateEventScore(b) - calculateEventScore(a)] *)
Definition byEventScore (a b : event) : option Number.t :=
  aScore ← calculateEventScore a;
  bScore ← calculateEventScore b;
  Some (bScore - aScore).

(** [arr.sort(comparefn)] for a comparator that may raise: the exception
    leaves the sort.  An array of fewer than two elements is sorted without
    a call of the comparator. *)
Fixpoint insertSortedM {A : Type} (comparefn : A -> A -> option Number.t)
         (x : A) (l : list A) : option (list A) :=
  match l with
  | [] => Some [x]
  | y :: r =>
      c ← comparefn x y;
      if c >? Number.zero
      then (y ::.) <$> insertSortedM comparefn x r
      else Some (x :: l)
  end.

Definition sortM {A : Type} (comparefn : A -> A -> option Number.t)
           (l : list A) : option (list A) :=
  foldr (fun x sorted => sorted ≫= insertSortedM comparefn x) (Some []) l.

Definition eventKey (e : event) : option string :=
  ScrapeRoute.eventKey (core e).

(** [removeDuplicateEvents] on the full candidates *)
Definition removeDuplicateEvents (events : list event) : option (list event) :=
  JsArray.filterUnseen eventKey ∅ events.

(** A candidate whose title, location and description are strings or
    absent, as the interface [RawEvent] declares them. *)
Definition typed (e : event) : bool :=
  wellTyped (core e) && stringOrAbsent (RawEvent.description (core e)).

(** From [allEvents] to the [events] of the response:
    [removeDuplicateEvents], [sort] by [calculateEventScore],
    [slice(0, 20)]. *)
Definition topEvents (allEvents : list event) : option (list event) :=
  uniqueEvents ← removeDuplicateEvents allEvents;
  sortedEvents ← sortM byEventScore uniqueEvents;
  Some (JsArray.slice0 sortedEvents 20).

End ScrapeRank.

(** Sample candidates of the scrape route *)
Module ScrapeSample.

Definition bare (title : string) : ScrapeRank.event :=
  {| ScrapeRank.core :=
       {| RawEvent.id := VString title; RawEvent.title := VString title;
          RawEvent.description := VUndefined;
          RawEvent.location := VUndefined; RawEvent.dateTime := VUndefined;
          RawEvent.platform := VString "twitter";
          RawEvent.sourceUrl := VString ""; RawEvent.imageUrl := VUndefined;
          RawEvent.eventType := VUndefined |};
     ScrapeRank.organizer := VUndefined;
     ScrapeRank.price := VUndefined;
     ScrapeRank.tags := Some [] |}.

Definition full (title description : string) : ScrapeRank.event :=
  {| ScrapeRank.core := Sample.event title "instagram" title description
                                     "Lisbon";
     ScrapeRank.organizer := VString "ESN";
     ScrapeRank.price := VString "free";
     ScrapeRank.tags := Some ["erasmus"] |}.

End ScrapeSample.

(** ** The mock data service: third document of [src/unnamed/part_000]

    The post table [MOCK_POSTS] is a parameter ([posts]). *)

Module MockData.

(** The interface [MockPost]; [None] is [null] (or a missing field). *)
Record post := {
  id : string;
  platform : string;
  content : string;
  location : option string;
  city : option string;
  country : option string;
  hashtags : option (list string);
  activity_type : option string;
  author_username : option string;
  post_url : option string;
  engagement_score : option Number.t;
  created_at : string
}.

(** [a || b] for a nullable string [a] *)
Definition orString (a : option string) (b : string) : string :=
  if truthyParam a then default "" a else b.

(** [content.split(/[.!?]/)[0]] *)
Definition isSentenceEnd (c : ascii) : bool :=
  let n := N_of_ascii c in ((n =? 46) || (n =? 33) || (n =? 63))%N.

Fixpoint firstPiece (s : string) : string :=
  match s with
  | EmptyString => EmptyString
  | String c r => if isSentenceEnd c then EmptyString
                  else String c (firstPiece r)
  end.

(** [s.trim()] *)
Fixpoint trimStart (s : string) : string :=
  match s with
  | EmptyString => EmptyString
  | String c r => if isWhiteSpace c then trimStart r else s
  end.

Fixpoint trimEnd (s : string) : string :=
  match s with
  | EmptyString => EmptyString
  | String c r =>
      let r' := trimEnd r in
      if isWhiteSpace c && String.eqb r' "" then EmptyString
      else String c r'
  end.

Definition trim (s : string) : string := trimEnd (trimStart s).

Definition extractTitleFromContent (content : string) : string :=
  let firstSentence := firstPiece content in
  if negb (String.eqb firstSentence "") &&
     (10 <? String.length firstSentence)%nat &&
     (String.length firstSentence <? 100)%nat
  then trim firstSentence
  else if (50 <? String.length content)%nat
       then (String.substring 0 50 content ++ "...")%string
       else content.

Definition convertMockPostToRawEvent (p : post) : RawEvent.t :=
  {| RawEvent.id := VString (id p);
     RawEvent.title := VString (extractTitleFromContent (content p));
     RawEvent.description := VString (content p);
     RawEvent.location :=
       VString (if truthyParam (location p) then default "" (location p)
                else orString (city p) "Unknown");
     RawEvent.dateTime := VString (created_at p);
     RawEvent.platform := VString (platform p);
     RawEvent.sourceUrl := VString (orString (post_url p) "");
     RawEvent.imageUrl := VUndefined;
     RawEvent.eventType := VUndefined |}.

(** ToBoolean of a number *)
Definition truthyNumber (x : Number.t) : bool :=
  match x with
  | S754_zero _ | S754_nan => false
  | _ => true
  end.

(** [[a, b, c].filter(Boolean)] for lower-cased nullable strings *)
Definition presentLowered (fields : list (option string)) : list string :=
  omap (fun f => if truthyParam f then Some (toLowerCase (default "" f))
                 else None) fields.

Definition calculateRelevanceScore (p : post) (query : string)
           (location : option string) : Number.t :=
  let score := Number.zero in
  let lowerQuery := toLowerCase query in
  let lowerLocation := toLowerCase <$> location in
  (* Content relevance *)
  let postContent := toLowerCase (content p) in
  let queryWords := queryWords lowerQuery in
  let matchingWords := matchingWords postContent queryWords in
  let score :=
    score + (Number.ofNat (length matchingWords) /
             Number.ofNat (length queryWords)) * Number.ofZ 3 in
  (* Hashtag relevance *)
  let score :=
    match hashtags p with
    | Some tags =>
        let hashtagMatches :=
          List.filter (fun tag =>
                         let tagLower := toLowerCase tag in
                         existsb (fun word => includes tagLower word)
                                 queryWords) tags in
        score + Number.ofNat (length hashtagMatches) * Number.ofZ 2
    | None => score
    end in
  (* Location relevance *)
  let score :=
    if truthyParam lowerLocation then
      let postLocation :=
        presentLowered [MockData.location p; city p; country p] in
      let locationWords := splitWhiteSpace (default "" lowerLocation) in
      let locationMatches :=
        List.filter (fun word =>
                       existsb (fun postLoc => includes postLoc word)
                               postLocation) locationWords in
      score + Number.ofNat (length locationMatches) * Number.ofZ 2
    else score in
  (* Activity type relevance *)
  let score :=
    if truthyParam (activity_type p) then
      let activityLower := toLowerCase (default "" (activity_type p)) in
      bump (existsb (fun word => includes activityLower word) queryWords)
           (Number.ofZ 2) score
    else score in
  (* Engagement bonus *)
  let score :=
    match engagement_score p with
    | Some engagement =>
        bump (truthyNumber engagement)
             (Number.min (engagement / Number.ofZ 100) (Number.ofZ 3)) score
    | None => score
    end in
  score.

(** [(a, b) => calculateRelevanceScore(b) - calculateRelevanceScore(a)] *)
Definition byScore (query : string) (location : option string) (a b : post)
  : Number.t :=
  let scoreA := calculateRelevanceScore a query location in
  let scoreB := calculateRelevanceScore b query location in
  scoreB - scoreA.

(** The [filter] callback repeats the statements of
    [calculateRelevanceScore] and returns [score > 1]. *)
Definition searchMockPosts (posts : list post) (query : string)
           (location : option string) : list post :=
  JsArray.sort (byScore query location)
    (List.filter (fun p => calculateRelevanceScore p query location
                           >? Number.ofZ 1) posts).

(** *** A plain object used as a map from platform to posts

    The own properties in creation order; a key that is not an own property
    is looked up in [Object.prototype]. *)
Definition objectPrototypeKeys : list string :=
  [ "constructor"; "__defineGetter__"; "__defineSetter__"; "hasOwnProperty";
    "__lookupGetter__"; "__lookupSetter__"; "isPrototypeOf";
    "propertyIsEnumerable"; "toString"; "valueOf"; "__proto__";
    "toLocaleString" ].

Definition hasOwn {A : Type} (key : string) (groups : list (string * list A))
  : bool :=
  existsb (fun g => String.eqb (fst g) key) groups.

(** [groups[key].push(x)], creating [groups[key] = []] first when the key is
    not an own property. *)
Fixpoint pushTo {A : Type} (key : string) (x : A)
         (groups : list (string * list A)) : list (string * list A) :=
  match groups with
  | [] => [(key, [x])]
  | (k, xs) :: rest =>
      if String.eqb k key then (k, (xs ++ [x])%list) :: rest
      else (k, xs) :: pushTo key x rest
  end.

(** One step of the [reduce]: for a key that [Object.prototype] defines,
    [groups[key]] is truthy without being an own array and [push] raises. *)
Definition groupStep (groups : list (string * list post)) (p : post)
  : option (list (string * list post)) :=
  if negb (hasOwn (platform p) groups) &&
     existsb (String.eqb (platform p)) objectPrototypeKeys
  then None
  else Some (pushTo (platform p) p groups).

Fixpoint groupPosts (groups : list (string * list post)) (posts : list post)
  : option (list (string * list post)) :=
  match posts with
  | [] => Some groups
  | p :: rest => groups' ← groupStep groups p; groupPosts groups' rest
  end.

(** The array index a property key denotes, if any: a canonical decimal
    numeral below [2^32 - 1]. *)
Fixpoint parseDigits (acc : N) (s : string) : option N :=
  match s with
  | EmptyString => Some acc
  | String c r =>
      let n := N_of_ascii c in
      if ((48 <=? n) && (n <=? 57))%N
      then parseDigits (10 * acc + (n - 48))%N r
      else None
  end.

Definition arrayIndex (s : string) : option N :=
  match s with
  | EmptyString => None
  | String c r =>
      if (N_of_ascii c =? 48)%N && negb (String.eqb r "") then None
      else n ← parseDigits 0 s;
           if (n <=? 4294967294)%N then Some n else None
  end.

Fixpoint insertByIndex {A : Type} (i : N) (g : string * A)
         (sorted : list (N * (string * A))) : list (N * (string * A)) :=
  match sorted with
  | [] => [(i, g)]
  | (j, h) :: rest =>
      if (i <? j)%N then (i, g) :: sorted
      else (j, h) :: insertByIndex i g rest
  end.

(** [Object.entries(groups)]: the array-index keys in ascending numeric
    order, then the other keys in creation order. *)
Definition entries {A : Type} (groups : list (string * A))
  : list (string * A) :=
  let indexed :=
    foldr (fun g sorted =>
             match arrayIndex (fst g) with
             | Some i => insertByIndex i g sorted
             | None => sorted
             end) [] groups in
  (List.map snd indexed ++
   List.filter (fun g => match arrayIndex (fst g) with
                         | Some _ => false
                         | None => true
                         end) groups)%list.

Definition toScrapingResult (g : string * list post) : ScrapingResult.t :=
  {| ScrapingResult.success := true;
     ScrapingResult.events := List.map convertMockPostToRawEvent (snd g);
     ScrapingResult.error := None;
     ScrapingResult.platform := fst g |}.

Definition getMockScrapingResults (posts : list post) (query : string)
           (location : option string) : option (list ScrapingResult.t) :=
  let relevantPosts := searchMockPosts posts query location in
  platformGroups ← groupPosts [] relevantPosts;
  Some (List.map toScrapingResult (entries platformGroups)).

End MockData.

(** Sample posts *)
Module MockSample.

Definition mk (id platform content : string) (city : option string)
           (hashtags : option (list string)) (engagement : Z)
  : MockData.post :=
  {| MockData.id := id; MockData.platform := platform;
     MockData.content := content; MockData.location := None;
     MockData.city := city; MockData.country := None;
     MockData.hashtags := hashtags; MockData.activity_type := None;
     MockData.author_username := None; MockData.post_url := None;
     MockData.engagement_score := Some (Number.ofZ engagement);
     MockData.created_at := "2025-08-11T07:35:23.000Z" |}.

Definition tapas : MockData.post :=
  mk "p1" "instagram" "Tapas night for exchange students! Join us"
     (Some "Barcelona") (Some ["tapas"; "erasmus"]) 145.

Definition hike : MockData.post :=
  mk "p2" "reddit" "Sunday hike, tapas after" (Some "Barcelona") None 20.

Definition quiz : MockData.post :=
  mk "p3" "instagram" "Pub quiz" (Some "Madrid") None 0.

End MockSample.

(** ** Relevance filtering without the language model:
       [src/lib/ai/eventFilter.ts] *)

Module EventFilter.

(** The [FilteredEvent] of this file.  [title], [description] and
    [location] come from [a || b] expressions over candidate fields, so they
    stay values; a number field that a parsed object lacks reads as
    [undefined], which every arithmetic step and comparison below treats as
    [NaN]. *)
Record event := {
  id : jsval;
  title : jsval;
  description : jsval;
  location : jsval;
  dateTime : jsval;
  platform : jsval;
  sourceUrl : jsval;
  relevanceScore : Number.t;
  isStudentFriendly : bool;
  studentFriendlinessScore : Number.t;
  eventType : string;
  confidence : Number.t
}.

Definition c0 : Number.t := Number.zero.
Definition c5 : Number.t := Eval vm_compute in Number.ofZ 5.
Definition c6 : Number.t := Eval vm_compute in Number.ofZ 6.
Definition c7 : Number.t := Eval vm_compute in Number.ofZ 7.
Definition c10 : Number.t := Eval vm_compute in Number.ofZ 10.

(** [a >= b]: false when an operand is [NaN]. *)
Definition ge (a b : Number.t) : bool := SFleb b a.

(** [Math.max(x, y)]: [NaN] when an operand is, and [+0] above [-0]. *)
Definition mathMax (x y : Number.t) : Number.t :=
  match SFcompare x y with
  | None => Number.NaN
  | Some Gt => x
  | Some Lt => y
  | Some Eq =>
      match x, y with
      | S754_zero sx, S754_zero sy => S754_zero (sx && sy)
      | _, _ => x
      end
  end.

(** [Math.min(10, Math.max(0, x))] *)
Definition clamp (x : Number.t) : Number.t :=
  Number.min c10 (mathMax c0 x).

(** The filter callback and the map callback applied to the array that
    [JSON.parse] returned, lines 75-91. *)
Definition isValid (e : event) : bool :=
  ge (relevanceScore e) c6 && ge (confidence e) c5 &&
  truthy (title e) && truthy (description e).

Definition clean (e : event) : event :=
  {| id := id e; title := title e; description := description e;
     location := location e; dateTime := dateTime e;
     platform := platform e; sourceUrl := sourceUrl e;
     relevanceScore := clamp (relevanceScore e);
     isStudentFriendly := isStudentFriendly e;
     studentFriendlinessScore := clamp (studentFriendlinessScore e);
     eventType := eventType e;
     confidence := clamp (confidence e) |}.

Definition validateAndClean (filteredEvents : list event) : list event :=
  List.map clean (List.filter isValid filteredEvents).

(** [s.split(' ')]: the pieces between single spaces; two adjacent spaces
    give an empty piece. *)
Fixpoint splitGo (cur : string) (s : string) : list string :=
  match s with
  | EmptyString => [cur]
  | String c r =>
      if Ascii.eqb c " " then cur :: splitGo EmptyString r
      else splitGo (cur ++ String c EmptyString) r
  end.

Definition splitSpace (s : string) : list string := splitGo EmptyString s.

(** The class [\w]. *)
Definition isWordChar (c : ascii) : bool :=
  let n := N_of_ascii c in
  ((48 <=? n) && (n <=? 57) || (65 <=? n) && (n <=? 90) || (n =? 95) ||
   (97 <=? n) && (n <=? 122))%N.

(** The alternatives of [/\b(event|party|meetup|bar|club|activity)\b/]. *)
Definition eventWords : list string :=
  [ "event"; "party"; "meetup"; "bar"; "club"; "activity" ].

(** [Some rest] when [s] is [p] followed by [rest]. *)
Fixpoint dropPrefix (p s : string) : option string :=
  match p, s with
  | EmptyString, _ => Some s
  | String a p', String b s' =>
      if Ascii.eqb a b then dropPrefix p' s' else None
  | String _ _, EmptyString => None
  end.

(** The end of the input or a character outside [\w] comes next. *)
Definition startsNonWord (s : string) : bool :=
  match s with
  | EmptyString => true
  | String c _ => negb (isWordChar c)
  end.

(** An alternative, then [\b], at the start of [s]: every alternative ends
    in a word character, so [\b] asks for a non-word character or the end
    of the input after it. *)
Definition wordHere (s : string) (word : string) : bool :=
  match dropPrefix word s with
  | Some rest => startsNonWord rest
  | None => false
  end.

(** [regex.test(text)], trying every start position from the left;
    [prevIsWord] tells whether the character before the position is a word
    character.  Every alternative starts with a word character, so the
    leading [\b] asks for a non-word character or the start of the input
    before it. *)
Fixpoint testGo (prevIsWord : bool) (s : string) : bool :=
  (negb prevIsWord && existsb (wordHere s) eventWords) ||
  match s with
  | EmptyString => false
  | String c r => testGo (isWordChar c) r
  end.

Definition hasEventWord (text : string) : bool := testGo false text.

(** The start of the input or a character outside [\w] comes last in
    [pre]; [prevIsWord] stands for the character before [pre]. *)
Fixpoint lastIsWord (prevIsWord : bool) (pre : string) : bool :=
  match pre with
  | EmptyString => prevIsWord
  | String c r => lastIsWord (isWordChar c) r
  end.

Definition endsNonWord (pre : string) : bool := negb (lastIsWord false pre).

Definition text (e : RawEvent.t) : string :=
  toLowerCase
    (toStr (RawEvent.title e) ++ " " ++ toStr (RawEvent.description e)).

Definition hasQueryKeywords (lowerQuery : string) (e : RawEvent.t) : bool :=
  existsb (fun word => (3 <? String.length word)%nat && includes (text e) word)
          (splitSpace lowerQuery).

Definition keeps (query location : string) (e : RawEvent.t) : bool :=
  let lowerQuery := toLowerCase query in
  let lowerLocation := toLowerCase location in
  let hasLocation := includes (text e) lowerLocation in
  hasEventWord (text e) && (hasQueryKeywords lowerQuery e || hasLocation).

Definition toFiltered (location : string) (e : RawEvent.t) : event :=
  {| id := RawEvent.id e;
     title := orElse (RawEvent.title e) (VString "Event");
     description := orElse (RawEvent.description e)
                           (VString "Event description");
     location := orElse (RawEvent.location e) (VString location);
     dateTime := RawEvent.dateTime e;
     platform := RawEvent.platform e;
     sourceUrl := RawEvent.sourceUrl e;
     relevanceScore := c7;
     isStudentFriendly := true;
     studentFriendlinessScore := c7;
     eventType := "general";
     confidence := c6 |}.

Definition fallbackEventFiltering (events : list RawEvent.t)
           (query location : string) : list event :=
  JsArray.slice0
    (List.map (toFiltered location) (List.filter (keeps query location) events))
    10.






End EventFilter.

(** ** Hashtags for the Instagram scraper: [src/lib/services/apify.ts] *)

Module Apify.

(** [s.replace(/[^\w\s]/g, '')] *)
Fixpoint stripSpecial (s : string) : string :=
  match s with
  | EmptyString => EmptyString
  | String c r =>
      if EventFilter.isWordChar c || isWhiteSpace c
      then String c (stripSpecial r)
      else stripSpecial r
  end.

Definition words (s : string) : list string :=
  splitWhiteSpace (stripSpecial (toLowerCase s)).

(** [word.length > 2] *)
Definition longerThan2 (word : string) : bool :=
  (2 <? String.length word)%nat.

(** [arr.join('')] *)
Definition join (l : list string) : string := foldr String.append "" l.

(** [[...new Set(arr)]]: the first occurrence of every element, in order. *)
Fixpoint newSet (seen : gset string) (l : list string) : list string :=
  match l with
  | [] => []
  | x :: r =>
      if decide (x ∈ seen) then newSet seen r
      else x :: newSet ({[x]} ∪ seen) r
  end.

Definition locationTags (word : string) : list string :=
  if longerThan2 word then [word; word ++ "events"; word ++ "nightlife"]
  else [].

Definition studentTags : list string :=
  [ "studyabroad"; "students"; "university"; "college"; "international" ].

Definition queryTags (query : string) : list string :=
  let queryWords := List.filter longerThan2 (words query) in
  let hashtags := queryWords in
  if (2 <=? length queryWords)%nat
  then (hashtags ++ [join queryWords; join (take 2 queryWords)])%list
  else hashtags.

Definition generateHashtags (query location : string) : list string :=
  let hashtags := queryTags query in
  let hashtags :=
    if negb (String.eqb location "")
    then (hashtags ++ flat_map locationTags (words location))%list
    else hashtags in
  let hashtags := (hashtags ++ studentTags)%list in
  JsArray.slice0 (newSet ∅ hashtags) 10.

(** The characters a hashtag is made of: [a-z], [0-9] and [_]. *)
Definition isTagChar (c : ascii) : bool :=
  let n := N_of_ascii c in
  ((48 <=? n) && (n <=? 57) || (n =? 95) || (97 <=? n) && (n <=? 122))%N.

Fixpoint allChars (P : ascii -> bool) (s : string) : bool :=
  match s with
  | EmptyString => true
  | String c r => P c && allChars P r
  end.

(** A hashtag of at least three such characters. *)
Definition isTag (t : string) : Prop :=
  (3 <= String.length t)%nat /\ allChars isTagChar t = true.

(** [extractTitle]: the first line with content, or the text itself, cut
    after 100 characters. *)
Fixpoint splitLinesGo (cur : string) (s : string) : list string :=
  match s with
  | EmptyString => [cur]
  | String c r =>
      if Ascii.eqb c "010" then cur :: splitLinesGo EmptyString r
      else splitLinesGo (cur ++ String c EmptyString) r
  end.

Definition extractTitle (text : string) : string :=
  let lines :=
    List.filter (fun line => negb (String.eqb (MockData.trim line) ""))
                (splitLinesGo EmptyString text) in
  let firstLine :=
    match lines with
    | line :: _ => if String.eqb line "" then text else line
    | [] => text
    end in
  if (100 <? String.length firstLine)%nat
  then String.substring 0 100 firstLine ++ "..."
  else firstLine.

End Apify.

(** ** When the chat turns to event discovery: [src/unnamed/part_001] *)

Module EventPipeline.

Definition eventTriggers : list string :=
  [ "event"; "events"; "party"; "parties"; "meetup"; "meetups";
    "bar"; "bars"; "club"; "clubs"; "restaurant"; "restaurants";
    "where to go"; "what to do"; "thing to do"; "activity"; "activities";
    "best"; "top"; "popular"; "recommend"; "recommendation";
    "student"; "study abroad"; "international" ].

Definition shouldTriggerEventDiscovery (message : string) : bool :=
  let lowerMessage := toLowerCase message in
  existsb (fun trigger => includes lowerMessage trigger) eventTriggers.

(** The triggers that contain no other trigger. *)
Definition coreTriggers : list string :=
  [ "event"; "party"; "parties"; "meetup"; "bar"; "club"; "restaurant";
    "where to go"; "what to do"; "thing to do"; "activity"; "activities";
    "best"; "top"; "popular"; "recommend";
    "student"; "study abroad"; "international" ].

End EventPipeline.

(** Two candidates whose order by combined score differs from their order
    by relevance, and neither of which passes the student-friendliness
    view. *)
Module FallbackSample.

Definition tapasCrawl : RawEvent.t :=
  Sample.event "a" "instagram" "Tapas night crawl" "" "Barcelona".

Definition tapasFreeCampus : RawEvent.t :=
  Sample.event "b" "reddit" "Tapas night, free campus" "" "Barcelona".

Definition result : ScrapingResult.t :=
  {| ScrapingResult.success := true;
     ScrapingResult.events := [tapasCrawl; tapasFreeCampus];
     ScrapingResult.error := None;
     ScrapingResult.platform := "instagram" |}.

End FallbackSample.

(** Scored events as [filterEventsByRelevance] produces them. *)
Module FilterSample.

Definition scored (id : string) (relevance studentFriendliness confidence : Z)
  : EventFilter.event :=
  {| EventFilter.id := VString id;
     EventFilter.title := VString "Quiz night";
     EventFilter.description := VString "Weekly quiz";
     EventFilter.location := VString "Madrid";
     EventFilter.dateTime := VNull;
     EventFilter.platform := VString "reddit";
     EventFilter.sourceUrl := VString "";
     EventFilter.relevanceScore := Number.ofZ relevance;
     EventFilter.isStudentFriendly := true;
     EventFilter.studentFriendlinessScore := Number.ofZ studentFriendliness;
     EventFilter.eventType := "social";
     EventFilter.confidence := Number.ofZ confidence |}.


End FilterSample.

(** * Properties *)

(** ** The embedding on concrete inputs *)

(** The literal [0.4] is the double [0x3FD999999999999A]. *)
Example decimal_0_4_bits :
  Number.c0_4 = S754_finite false 7205759403792794 (-54).
Proof. reflexivity. Qed.

(** [0.1 + 0.2] is [0.30000000000000004], one unit in the last place above
    the literal [0.3]. *)
Example one_tenth_plus_two_tenths :
  Number.c0_1 + Number.c0_2 = S754_finite false 5404319552844596 (-54)
  /\ Number.c0_3 = S754_finite false 5404319552844595 (-54).
Proof. split; reflexivity. Qed.

Example splitWhiteSpace_runs :
  splitWhiteSpace "  best bars   for students " =
  [""; "best"; "bars"; "for"; "students"; ""].
Proof. reflexivity. Qed.

Example queryWords_drop_short_tokens :
  queryWords (toLowerCase "Best bars in BCN for me")
  = ["best"; "bars"; "bcn"; "for"].
Proof. reflexivity. Qed.

(** The scenario of the specification: no query token occurs in the text
    ("bars" is not in "bar night"), the location matches, and the three
    student keywords add up to exactly [0.6]. *)
Example student_bar_night_scores :
  FilterRoute.calculateRelevanceScore Sample.studentBarNight
    "best bars for students" (Some "barcelona") None = Some Number.c0_3
  /\ calculateStudentFriendlinessScore Sample.studentBarNight = Number.c0_6
  /\ categorizeEventByKeywords Sample.studentBarNight = "nightlife"
  /\ extractKeywordsFromEvent Sample.studentBarNight
     = ["bar"; "drinking"; "student"].
Proof. vm_compute. repeat split; reflexivity. Qed.

(** ** Categorizer *)

Section Categorizer.

Local Ltac first_rule :=
  repeat match goal with
         | |- context [if ?c then _ else _] => destruct c eqn:?
         end.

Lemma ruleMatches_3 text a b c cat :
  Spec.ruleMatches text ([a; b; c], cat)
  = includes text a || includes text b || includes text c.
Proof.
  unfold Spec.ruleMatches; simpl.
  now rewrite orb_false_r, orb_assoc.
Qed.

Lemma categorize_refines_rules event :
  categorizeEventByKeywords event
  = Spec.firstMatchingCategory Spec.categoryRules (eventText event).
Proof.
  unfold categorizeEventByKeywords, Spec.firstMatchingCategory,
    Spec.categoryRules.
  cbn [List.find].
  rewrite !ruleMatches_3.
  first_rule; reflexivity.
Qed.

Lemma existsb_before_nightlife text :
  existsb (includes text) Spec.keywordsBeforeNightlife
  = (includes text "party" || includes text "meetup" ||
     includes text "social")
    || (includes text "workshop" || includes text "seminar" ||
        includes text "lecture")
    || (includes text "museum" || includes text "art" ||
        includes text "culture")
    || (includes text "sport" || includes text "fitness" ||
        includes text "outdoor").
Proof.
  unfold Spec.keywordsBeforeNightlife; cbn [take flat_map fst app
    Spec.categoryRules existsb].
  rewrite orb_false_r.
  repeat rewrite orb_assoc. reflexivity.
Qed.

End Categorizer.

(** C4, as the code has it: the categorizer returns the category of the first
    rule of the ordered table whose keyword group matches the lower-cased
    title+description text, and ['general'] when none matches.  An event whose
    text contains both "hiking" and "bar" is never ['outdoor']; it is
    ['nightlife'] exactly when no keyword of the four earlier rules (social,
    academic, cultural, sports) occurs in the text. *)
Theorem categorize_first_rule_wins (event : RawEvent.t) :
  categorizeEventByKeywords event
  = Spec.firstMatchingCategory Spec.categoryRules (eventText event)
  /\ (includes (eventText event) "hiking" = true ->
      includes (eventText event) "bar" = true ->
      categorizeEventByKeywords event <> "outdoor"
      /\ (categorizeEventByKeywords event = "nightlife"
          <-> existsb (includes (eventText event))
                      Spec.keywordsBeforeNightlife = false)).
Proof.
  split; [apply categorize_refines_rules|].
  intros Hhiking Hbar.
  rewrite existsb_before_nightlife.
  unfold categorizeEventByKeywords.
  rewrite Hbar.
  destruct (includes (eventText event) "party" ||
            includes (eventText event) "meetup" ||
            includes (eventText event) "social"); [easy|].
  destruct (includes (eventText event) "workshop" ||
            includes (eventText event) "seminar" ||
            includes (eventText event) "lecture"); [easy|].
  destruct (includes (eventText event) "museum" ||
            includes (eventText event) "art" ||
            includes (eventText event) "culture"); [easy|].
  destruct (includes (eventText event) "sport" ||
            includes (eventText event) "fitness" ||
            includes (eventText event) "outdoor"); easy.
Qed.

Lemma categorize_first_rule_wins_witness :
  includes (eventText Sample.hikingThenBar) "hiking" = true
  /\ includes (eventText Sample.hikingThenBar) "bar" = true
  /\ categorizeEventByKeywords Sample.hikingThenBar <> "outdoor"
  /\ categorizeEventByKeywords Sample.hikingThenBar = "nightlife".
Proof.
  pose proof (categorize_first_rule_wins Sample.hikingThenBar) as [_ H].
  specialize (H eq_refl eq_refl) as [Hne Hiff].
  split; [reflexivity|split; [reflexivity|split; [exact Hne|]]].
  apply Hiff. vm_compute. reflexivity.
Defined.

(** C4 as stated fails: an event whose text contains "hiking" and "bar" and
    also "party" is ['social'], not ['nightlife']. *)
Lemma categorize_hiking_bar_not_always_nightlife :
  ~ (forall event : RawEvent.t,
        includes (eventText event) "hiking" = true ->
        includes (eventText event) "bar" = true ->
        categorizeEventByKeywords event = "nightlife").
Proof.
  intros H.
  specialize (H Sample.hikingPartyBar eq_refl eq_refl).
  vm_compute in H. discriminate H.
Qed.

(** ** The [Set]-guarded filter *)

Section FilterUnseen.
Context {A : Type} (key : A -> option string).

Implicit Types (seen : gset string) (l kept : list A) (ks : list string).

Lemma filterUnseen_is_Some seen l ks :
  mapM key l = Some ks -> is_Some (JsArray.filterUnseen key seen l).
Proof.
  revert seen ks; induction l as [|x l IH]; intros seen ks Hks; [by eexists|].
  cbn in Hks. destruct (key x) as [k|] eqn:Hk; [|done].
  destruct (mapM key l) as [ks0|] eqn:Hl; [|done].
  cbn. rewrite Hk. cbn.
  destruct (decide (k ∈ seen)); [by eapply IH|].
  destruct (IH ({[k]} ∪ seen) ks0 eq_refl) as [kept ->]. by eexists.
Qed.

Lemma filterUnseen_sublist seen l kept :
  JsArray.filterUnseen key seen l = Some kept -> kept `sublist_of` l.
Proof.
  revert seen kept; induction l as [|x l IH]; intros seen kept H.
  - by injection H as <-.
  - cbn in H. destruct (key x) as [k|]; [|done]. cbn in H.
    destruct (decide (k ∈ seen)).
    + apply sublist_cons. by eapply IH.
    + destruct (JsArray.filterUnseen key ({[k]} ∪ seen) l) as [kept0|] eqn:E;
        [|done].
      injection H as <-. apply sublist_skip. by eapply IH.
Qed.

Lemma filterUnseen_fresh seen l kept :
  JsArray.filterUnseen key seen l = Some kept ->
  exists ks, mapM key kept = Some ks /\ NoDup ks /\
             forall k, k ∈ ks -> k ∉ seen.
Proof.
  revert seen kept; induction l as [|x l IH]; intros seen kept H.
  - injection H as <-. exists []. split; [done|]. split; [constructor|].
    intros k Hk. by apply elem_of_nil in Hk.
  - cbn in H. destruct (key x) as [k|] eqn:Hk; [|done]. cbn in H.
    destruct (decide (k ∈ seen)); [by eapply IH|].
    destruct (JsArray.filterUnseen key ({[k]} ∪ seen) l) as [kept0|] eqn:E;
      [|done].
    injection H as <-.
    destruct (IH _ _ E) as (ks & Hks & Hnd & Hfresh).
    exists (k :: ks). cbn. rewrite Hk, Hks. cbn. split; [done|].
    split.
    + constructor; [|done]. intros Hin. apply Hfresh in Hin. set_solver.
    + intros k' [->|Hin]%elem_of_cons; [done|].
      apply Hfresh in Hin. set_solver.
Qed.

Lemma filterUnseen_fixed seen kept ks :
  mapM key kept = Some ks -> NoDup ks -> (forall k, k ∈ ks -> k ∉ seen) ->
  JsArray.filterUnseen key seen kept = Some kept.
Proof.
  revert seen ks; induction kept as [|x kept IH]; intros seen ks Hks Hnd Hfresh;
    [done|].
  cbn in Hks. destruct (key x) as [k|] eqn:Hk; [|done].
  destruct (mapM key kept) as [ks0|] eqn:Hl; [|done].
  cbn in Hks. injection Hks as <-.
  apply NoDup_cons in Hnd as [Hk0 Hnd].
  cbn. rewrite Hk. cbn.
  destruct (decide (k ∈ seen)) as [Hin|_].
  - exfalso. eapply Hfresh; [|exact Hin]. by left.
  - rewrite (IH ({[k]} ∪ seen) ks0); [done|done|done|].
    intros k' Hk' [->%elem_of_singleton|Hin]%elem_of_union; [done|].
    eapply Hfresh; [|exact Hin]. by right.
Qed.

(** Appending one element: it is kept exactly when its key is new. *)
Lemma filterUnseen_snoc seen l ks x k :
  mapM key l = Some ks -> key x = Some k ->
  JsArray.filterUnseen key seen (l ++ [x])
  = (fun kept => if bool_decide (k ∈ seen \/ k ∈ ks) then kept
                 else (kept ++ [x])%list)
      <$> JsArray.filterUnseen key seen l.
Proof.
  intros Hks Hx. revert seen ks Hks.
  induction l as [|y l IH]; intros seen ks Hks.
  - injection Hks as <-. cbn. rewrite Hx. cbn.
    destruct (decide (k ∈ seen)) as [Hin|Hin].
    + rewrite bool_decide_eq_true_2; [done|by left].
    + rewrite bool_decide_eq_false_2; [done|].
      intros [?|?%elem_of_nil]; done.
  - cbn in Hks. destruct (key y) as [ky|] eqn:Hy; [|done].
    destruct (mapM key l) as [ks0|] eqn:Hl; [|done].
    cbn in Hks. injection Hks as <-.
    cbn. rewrite Hy. cbn.
    destruct (decide (ky ∈ seen)) as [Hin|Hin].
    + rewrite (IH seen ks0 eq_refl).
      destruct (JsArray.filterUnseen key seen l); [|done]. cbn.
      f_equal. apply (f_equal (fun b : bool => if b then _ else _)).
      apply bool_decide_ext. rewrite elem_of_cons.
      split; [tauto|]. intros [?|[->|?]]; tauto.
    + rewrite (IH ({[ky]} ∪ seen) ks0 eq_refl).
      destruct (JsArray.filterUnseen key ({[ky]} ∪ seen) l); [|done]. cbn.
      f_equal.
      rewrite (bool_decide_ext (k ∈ {[ky]} ∪ seen \/ k ∈ ks0)
                               (k ∈ seen \/ k ∈ ky :: ks0)).
      * by destruct (bool_decide _).
      * rewrite elem_of_union, elem_of_singleton, elem_of_cons. tauto.
Qed.

Lemma filterUnseen_idempotent l :
  JsArray.filterUnseen key ∅ l ≫= JsArray.filterUnseen key ∅
  = JsArray.filterUnseen key ∅ l.
Proof.
  destruct (JsArray.filterUnseen key ∅ l) as [kept|] eqn:E; [|done]. cbn.
  destruct (filterUnseen_fresh _ _ _ E) as (ks & Hks & Hnd & Hfresh).
  by eapply filterUnseen_fixed.
Qed.

Lemma filterUnseen_length seen l kept :
  JsArray.filterUnseen key seen l = Some kept -> length kept <= length l.
Proof. intros H. apply sublist_length. by eapply filterUnseen_sublist. Qed.

Lemma filterUnseen_nonempty l kept x :
  JsArray.filterUnseen key ∅ (x :: l) = Some kept -> kept <> [].
Proof.
  cbn. destruct (key x) as [k|]; [|done]. cbn.
  destruct (decide (k ∈ ∅)) as [Hin|_]; [set_solver|].
  destruct (JsArray.filterUnseen key _ l); [|done].
  cbn. by intros [= <-].
Qed.

End FilterUnseen.

Section FilterUnseenApp.
Context {A : Type} (key : A -> option string).

Lemma filterUnseen_app (seen : gset string) (l1 l2 : list A)
      (ks1 : list string) :
  mapM key l1 = Some ks1 ->
  JsArray.filterUnseen key seen (l1 ++ l2)
  = kept1 ← JsArray.filterUnseen key seen l1;
    kept2 ← JsArray.filterUnseen key (list_to_set ks1 ∪ seen) l2;
    Some (kept1 ++ kept2)%list.
Proof.
  revert seen ks1; induction l1 as [|x l1 IH]; intros seen ks1 Hks.
  - injection Hks as <-. cbn. rewrite (left_id_L ∅ (∪)).
    by destruct (JsArray.filterUnseen key seen l2).
  - cbn in Hks. destruct (key x) as [k|] eqn:Hk; [|done].
    destruct (mapM key l1) as [ks0|] eqn:Hl; [|done].
    cbn in Hks. injection Hks as <-.
    cbn. rewrite Hk. cbn.
    destruct (decide (k ∈ seen)) as [Hin|Hin].
    + rewrite (IH seen ks0 eq_refl).
      replace ({[k]} ∪ list_to_set ks0 ∪ seen)
        with (list_to_set ks0 ∪ seen : gset string); [done|].
      apply set_eq. intros y.
      rewrite !elem_of_union, elem_of_singleton.
      split; [tauto|]. intros [[->|?]|?]; tauto.
    + rewrite (IH ({[k]} ∪ seen) ks0 eq_refl).
      replace (list_to_set ks0 ∪ ({[k]} ∪ seen))
        with ({[k]} ∪ list_to_set ks0 ∪ seen : gset string).
      * destruct (JsArray.filterUnseen key ({[k]} ∪ seen) l1); [|done]. cbn.
        by destruct (JsArray.filterUnseen key _ l2).
      * apply set_eq. intros y.
        rewrite !elem_of_union, elem_of_singleton. tauto.
Qed.

(** The element at a given place of the input: what precedes it in the
    output is the output of the prefix, it follows when its key is new, and
    nothing kept after it has its key. *)
Lemma filterUnseen_at (before after kept : list A) (x : A)
      (ks : list string) (k : string) :
  JsArray.filterUnseen key ∅ (before ++ x :: after) = Some kept ->
  mapM key before = Some ks -> key x = Some k ->
  exists keptBefore keptAfter,
    JsArray.filterUnseen key ∅ before = Some keptBefore
    /\ kept = (keptBefore ++ (if bool_decide (k ∈ ks) then [] else [x])
                          ++ keptAfter)%list
    /\ forall y, y ∈ keptAfter -> key y <> Some k.
Proof.
  intros H Hks Hx.
  rewrite (filterUnseen_app _ _ _ _ Hks) in H.
  destruct (JsArray.filterUnseen key ∅ before) as [keptBefore|]; [|done].
  cbn in H. rewrite Hx in H. cbn in H.
  exists keptBefore.
  assert (Hfresh : forall seen keptAfter,
             k ∈ seen ->
             JsArray.filterUnseen key seen after = Some keptAfter ->
             forall y, y ∈ keptAfter -> key y <> Some k).
  { intros seen keptAfter Hin E y Hy Hky.
    destruct (filterUnseen_fresh key _ _ _ E) as (ks' & Hks' & _ & Hnot).
    apply mapM_Some in Hks'.
    apply list_elem_of_lookup in Hy as [i Hi].
    destruct (Forall2_lookup_l _ _ _ _ _ Hks' Hi) as (k' & Hk' & Hyk').
    rewrite Hky in Hyk'. injection Hyk' as <-.
    eapply Hnot; [|exact Hin]. eapply list_elem_of_lookup_2; eauto. }
  assert (Hiff : k ∈ (list_to_set ks ∪ ∅ : gset string) <-> k ∈ ks).
  { rewrite elem_of_union, elem_of_list_to_set, elem_of_empty. tauto. }
  destruct (decide (k ∈ list_to_set ks ∪ ∅)) as [Hin|Hin].
  - destruct (JsArray.filterUnseen key _ after) as [keptAfter|] eqn:E;
      [|done].
    injection H as <-. exists keptAfter.
    rewrite bool_decide_eq_true_2; [|by apply Hiff].
    split; [done|]. split; [done|]. by eapply Hfresh.
  - destruct (JsArray.filterUnseen key _ after) as [keptAfter|] eqn:E;
      [|done].
    cbn in H. injection H as <-. exists keptAfter.
    rewrite bool_decide_eq_false_2; [|by rewrite <- Hiff].
    split; [done|]. split; [done|].
    eapply Hfresh; [|exact E].
    apply elem_of_union. left. by apply elem_of_singleton.
Qed.

End FilterUnseenApp.

(** ** Deduplication *)

Lemma normalizedField_is_Some v :
  stringOrAbsent v = true -> is_Some (QueryRoute.normalizedField v).
Proof. destruct v; cbn; try done; by eexists. Qed.

Lemma query_eventKey_is_Some event :
  wellTyped event = true -> is_Some (QueryRoute.eventKey event).
Proof.
  unfold wellTyped, QueryRoute.eventKey.
  intros [Ht Hl]%andb_prop.
  destruct (normalizedField_is_Some _ Ht) as [t ->].
  destruct (normalizedField_is_Some _ Hl) as [l ->]. by eexists.
Qed.

Lemma scrape_eventKey_is_Some event :
  wellTyped event = true -> is_Some (ScrapeRoute.eventKey event).
Proof.
  unfold wellTyped, ScrapeRoute.eventKey.
  intros [Ht Hl]%andb_prop.
  destruct (RawEvent.title event), (RawEvent.location event); cbn in *;
    try done; by eexists.
Qed.

Lemma mapM_is_Some_Forall {A B} (f : A -> option B) (l : list A) :
  Forall (fun x => is_Some (f x)) l -> is_Some (mapM f l).
Proof.
  induction 1 as [|x l [y Hy] _ [ys Hys]]; [by eexists|].
  cbn. rewrite Hy, Hys. by eexists.
Qed.

(** C5: [removeDuplicateEvents] keeps the events in input order and keeps an
    event exactly when no earlier event has its fingerprint: the output is a
    subsequence of the input; at every place of the input, the output so far
    is the output of the prefix, the event there follows exactly when its
    fingerprint is new, and no event kept later has that fingerprint.  Of two
    events with one fingerprint (whatever their platforms and ids) only the
    first is kept. *)
Theorem removeDuplicateEvents_first_occurrence_wins :
  (forall (events : list RawEvent.t) (keys : list string),
      mapM QueryRoute.eventKey events = Some keys ->
      exists kept,
        QueryRoute.removeDuplicateEvents events = Some kept
        /\ kept `sublist_of` events
        /\ forall before event after ks k,
            events = (before ++ event :: after)%list ->
            mapM QueryRoute.eventKey before = Some ks ->
            QueryRoute.eventKey event = Some k ->
            exists keptBefore keptAfter,
              QueryRoute.removeDuplicateEvents before = Some keptBefore
              /\ kept = (keptBefore
                           ++ (if bool_decide (k ∈ ks) then [] else [event])
                           ++ keptAfter)%list
              /\ forall later, later ∈ keptAfter ->
                               QueryRoute.eventKey later <> Some k)
  /\ (forall (first second : RawEvent.t) (k : string),
         QueryRoute.eventKey first = Some k ->
         QueryRoute.eventKey second = Some k ->
         QueryRoute.removeDuplicateEvents [first; second] = Some [first]).
Proof.
  split.
  - intros events keys Hkeys.
    destruct (filterUnseen_is_Some QueryRoute.eventKey ∅ _ _ Hkeys)
      as [kept Hkept].
    exists kept. split; [exact Hkept|].
    split; [by eapply filterUnseen_sublist|].
    intros before event after ks k -> Hks Hk.
    by eapply filterUnseen_at.
  - intros first second k H1 H2.
    unfold QueryRoute.removeDuplicateEvents. cbn. rewrite H1, H2. cbn.
    destruct (decide (k ∈ (∅ : gset string))) as [Hin|_]; [set_solver|].
    cbn. destruct (decide (k ∈ ({[k]} ∪ ∅ : gset string))) as [_|Hn];
      [done|set_solver].
Qed.

Lemma removeDuplicateEvents_first_occurrence_wins_witness :
  QueryRoute.removeDuplicateEvents
    [Sample.tapasInstagram; Sample.tapasReddit; Sample.museumTour]
  = Some [Sample.tapasInstagram; Sample.museumTour]
  /\ QueryRoute.removeDuplicateEvents
       [Sample.tapasInstagram; Sample.tapasReddit]
     = Some [Sample.tapasInstagram].
Proof.
  destruct removeDuplicateEvents_first_occurrence_wins as [Hall Htwo].
  split.
  - destruct (Hall [Sample.tapasInstagram; Sample.tapasReddit;
                    Sample.museumTour]
                   ["tapasnight_barcelona"; "tapasnight_barcelona";
                    "museumtour_barcelona"] eq_refl)
      as (kept & Hkept & _ & _).
    rewrite Hkept. vm_compute in Hkept. symmetry. exact Hkept.
  - apply (Htwo _ _ "tapasnight_barcelona"); reflexivity.
Defined.

(** C6: [removeDuplicateEvents] is idempotent and never lengthens its input,
    in the query route and in the scrape route; on candidates of the declared
    type (string or absent title and location) it returns. *)
Theorem removeDuplicateEvents_idempotent_shorter :
  (forall xs : list RawEvent.t,
      QueryRoute.removeDuplicateEvents xs ≫= QueryRoute.removeDuplicateEvents
      = QueryRoute.removeDuplicateEvents xs)
  /\ (forall xs : list RawEvent.t,
         ScrapeRoute.removeDuplicateEvents xs
           ≫= ScrapeRoute.removeDuplicateEvents
         = ScrapeRoute.removeDuplicateEvents xs)
  /\ (forall xs : list RawEvent.t,
         Forall (fun event => wellTyped event = true) xs ->
         exists ys zs,
           QueryRoute.removeDuplicateEvents xs = Some ys
           /\ QueryRoute.removeDuplicateEvents ys = Some ys
           /\ length ys <= length xs
           /\ ScrapeRoute.removeDuplicateEvents xs = Some zs
           /\ ScrapeRoute.removeDuplicateEvents zs = Some zs
           /\ length zs <= length xs)
  /\ (forall xs ys : list RawEvent.t,
         QueryRoute.removeDuplicateEvents xs = Some ys \/
         ScrapeRoute.removeDuplicateEvents xs = Some ys ->
         length ys <= length xs).
Proof.
  split; [intros xs; apply filterUnseen_idempotent|].
  split; [intros xs; apply filterUnseen_idempotent|].
  split.
  - intros xs Hxs.
    assert (Hq : is_Some (QueryRoute.removeDuplicateEvents xs)).
    { destruct (mapM_is_Some_Forall QueryRoute.eventKey xs) as [ks Hks].
      - eapply Forall_impl; [exact Hxs|]. apply query_eventKey_is_Some.
      - by eapply filterUnseen_is_Some. }
    assert (Hs : is_Some (ScrapeRoute.removeDuplicateEvents xs)).
    { destruct (mapM_is_Some_Forall ScrapeRoute.eventKey xs) as [ks Hks].
      - eapply Forall_impl; [exact Hxs|]. apply scrape_eventKey_is_Some.
      - by eapply filterUnseen_is_Some. }
    destruct Hq as [ys Hys], Hs as [zs Hzs]. exists ys, zs.
    pose proof (filterUnseen_idempotent QueryRoute.eventKey xs) as Iq.
    pose proof (filterUnseen_idempotent ScrapeRoute.eventKey xs) as Is.
    unfold QueryRoute.removeDuplicateEvents, ScrapeRoute.removeDuplicateEvents
      in *.
    rewrite Hys in Iq. rewrite Hzs in Is. cbn in Iq, Is.
    repeat split; try done; by eapply filterUnseen_length.
  - intros xs ys [H|H]; by eapply filterUnseen_length.
Qed.

Lemma removeDuplicateEvents_idempotent_shorter_witness :
  exists ys,
    QueryRoute.removeDuplicateEvents
      [Sample.tapasInstagram; Sample.tapasReddit; Sample.museumTour] = Some ys
    /\ QueryRoute.removeDuplicateEvents ys = Some ys
    /\ length ys <= 3.
Proof.
  destruct removeDuplicateEvents_idempotent_shorter as (_ & _ & H & _).
  destruct (H [Sample.tapasInstagram; Sample.tapasReddit; Sample.museumTour])
    as (ys & zs & H1 & H2 & H3 & _).
  - repeat constructor.
  - exists ys. repeat split; assumption.
Defined.

(** ** Sorting, slicing *)

Section ArrayFacts.
Context {A : Type}.
Implicit Types (l : list A) (comparefn : A -> A -> Number.t).

Lemma insertSorted_perm comparefn x l :
  JsArray.insertSorted comparefn x l ≡ₚ x :: l.
Proof.
  induction l as [|y l IH]; [done|]. cbn.
  destruct (Number.gt _ _); [|done].
  rewrite IH. apply perm_swap.
Qed.

Lemma sort_perm comparefn l : JsArray.sort comparefn l ≡ₚ l.
Proof.
  induction l as [|x l IH]; [done|]. cbn.
  rewrite insertSorted_perm. by rewrite IH.
Qed.

Lemma sort_elem_of comparefn l x : x ∈ JsArray.sort comparefn l <-> x ∈ l.
Proof. by rewrite sort_perm. Qed.

Lemma sort_Forall comparefn (P : A -> Prop) l :
  Forall P l -> Forall P (JsArray.sort comparefn l).
Proof. by rewrite sort_perm. Qed.

Lemma sort_nil_inv comparefn l : JsArray.sort comparefn l = [] -> l = [].
Proof.
  intros H. apply Permutation_nil_r. rewrite <- H. symmetry. apply sort_perm.
Qed.

Lemma slice0_sublist l k : JsArray.slice0 l k `sublist_of` l.
Proof.
  unfold JsArray.slice0. destruct (k <? 0)%Z; apply sublist_take.
Qed.

Lemma slice0_cons_pos x l k :
  (0 < k)%Z -> exists rest, JsArray.slice0 (x :: l) k = x :: rest.
Proof.
  intros Hk. unfold JsArray.slice0.
  destruct (Z.ltb_spec k 0) as [?|_]; [lia|].
  destruct (Z.to_nat k) as [|n] eqn:E; [lia|]. cbn. by eexists.
Qed.

Lemma filter_sublist (f : A -> bool) l : List.filter f l `sublist_of` l.
Proof.
  induction l as [|x l IH]; [done|]. cbn.
  destruct (f x); [by apply sublist_skip|by apply sublist_cons].
Qed.

Lemma sublist_elem_of l1 l2 x : l1 `sublist_of` l2 -> x ∈ l1 -> x ∈ l2.
Proof. intros Hsub Hx. by eapply elem_of_sublist. Qed.

End ArrayFacts.

(** ** The scoring stages *)

Lemma mkFiltered_threshold event r eventType :
  thresholdHolds
    (mkFiltered event r (calculateStudentFriendlinessScore event) eventType).
Proof. by split. Qed.

Lemma fold_loopStep q loc ty events acc :
  fold_left (FilterRoute.loopStep q loc ty) events acc
  = (acc ++ flat_map (fun event =>
                        default [] (FilterRoute.tryBody event q loc ty))
                     events)%list.
Proof.
  revert acc; induction events as [|e events IH]; intros acc; cbn.
  - by rewrite app_nil_r.
  - rewrite IH. unfold FilterRoute.loopStep.
    destruct (FilterRoute.tryBody e q loc ty) as [pushed|]; cbn.
    + by rewrite <- app_assoc.
    + done.
Qed.

Lemma filterAndRankEvents_unfold events q loc ty :
  FilterRoute.filterAndRankEvents events q loc ty
  = JsArray.sort FilterRoute.byRelevance
      (flat_map (fun event =>
                   default [] (FilterRoute.tryBody event q loc ty)) events).
Proof.
  unfold FilterRoute.filterAndRankEvents. by rewrite fold_loopStep.
Qed.

Lemma tryBody_None event q loc ty :
  FilterRoute.tryBody event q loc ty = None
  <-> FilterRoute.calculateRelevanceScore event q loc ty = None.
Proof.
  unfold FilterRoute.tryBody.
  destruct (FilterRoute.calculateRelevanceScore event q loc ty) as [r|];
    cbn; [|done].
  by destruct (r >? Number.c0_3).
Qed.

Lemma tryBody_elem_of event q loc ty s :
  s ∈ default [] (FilterRoute.tryBody event q loc ty)
  <-> exists r,
      FilterRoute.calculateRelevanceScore event q loc ty = Some r
      /\ (r >? Number.c0_3) = true
      /\ s = mkFiltered event r (calculateStudentFriendlinessScore event) ty.
Proof.
  unfold FilterRoute.tryBody.
  destruct (FilterRoute.calculateRelevanceScore event q loc ty) as [r|]; cbn.
  - destruct (r >? Number.c0_3) eqn:E; cbn.
    + rewrite list_elem_of_singleton. split.
      * intros ->. by exists r.
      * by intros (r' & [= <-] & _ & ->).
    + split; [by intros ?%elem_of_nil|].
      intros (r' & [= <-] & Hgt & _). congruence.
  - split; [by intros ?%elem_of_nil|]. by intros (r' & ? & _).
Qed.

Lemma filterAndRankEvents_elem_of events q loc ty s :
  s ∈ FilterRoute.filterAndRankEvents events q loc ty
  <-> exists event r,
      event ∈ events
      /\ FilterRoute.calculateRelevanceScore event q loc ty = Some r
      /\ (r >? Number.c0_3) = true
      /\ s = mkFiltered event r (calculateStudentFriendlinessScore event) ty.
Proof.
  rewrite filterAndRankEvents_unfold, sort_elem_of, list_elem_of_In, in_flat_map.
  split.
  - intros (event & Hin & Hs). apply list_elem_of_In in Hin, Hs.
    apply tryBody_elem_of in Hs as (r & ? & ? & ?). by exists event, r.
  - intros (event & r & Hin & ? & ? & ?). exists event.
    rewrite <- !list_elem_of_In. split; [done|].
    apply tryBody_elem_of. by exists r.
Qed.

Lemma scoreEvent_Some q loc ty event s :
  QueryRoute.scoreEvent q loc ty event = Some s ->
  exists r,
    QueryRoute.calculateRelevanceScore event q loc ty = Some r
    /\ s = mkFiltered event r (calculateStudentFriendlinessScore event) ty.
Proof.
  unfold QueryRoute.scoreEvent.
  destruct (QueryRoute.calculateRelevanceScore event q loc ty) as [r|];
    cbn; [|done].
  intros [= <-]. by exists r.
Qed.

Lemma scoreAndRankEvents_Some events q loc ty scored :
  QueryRoute.scoreAndRankEvents events q loc ty = Some scored ->
  exists mapped,
    Forall2 (fun event s => QueryRoute.scoreEvent q loc ty event = Some s)
            events mapped
    /\ scored = JsArray.sort QueryRoute.byCombinedScore mapped.
Proof.
  unfold QueryRoute.scoreAndRankEvents.
  destruct (mapM _ events) as [mapped|] eqn:E; cbn; [|done].
  intros [= <-]. exists mapped. split; [|done]. by apply mapM_Some.
Qed.

Lemma scoreAndRankEvents_elem_of events q loc ty scored s :
  QueryRoute.scoreAndRankEvents events q loc ty = Some scored ->
  s ∈ scored ->
  exists event,
    event ∈ events /\ QueryRoute.scoreEvent q loc ty event = Some s.
Proof.
  intros (mapped & HF & ->)%scoreAndRankEvents_Some Hs.
  apply sort_elem_of in Hs. apply list_elem_of_lookup in Hs as [i Hi].
  destruct (Forall2_lookup_r _ _ _ _ _ HF Hi) as (event & He & Hscore).
  exists event. split; [|done]. by eapply list_elem_of_lookup_2.
Qed.

Lemma scoreAndRankEvents_length events q loc ty scored :
  QueryRoute.scoreAndRankEvents events q loc ty = Some scored ->
  length scored = length events.
Proof.
  intros (mapped & HF & ->)%scoreAndRankEvents_Some.
  rewrite (Permutation_length (sort_perm _ _)).
  symmetry. by eapply Forall2_length.
Qed.

Lemma limitResults_sublist scored k :
  QueryRoute.limitResults scored k `sublist_of` scored.
Proof.
  unfold QueryRoute.limitResults.
  etransitivity; [apply slice0_sublist|].
  destruct (0 <? _)%nat; [apply filter_sublist|done].
Qed.

Lemma rankEvents_Some rs q loc ty k out :
  QueryRoute.rankEvents rs q loc ty k = Some out ->
  (QueryRoute.flattenResults rs = [] /\ out = [])
  \/ exists unique scored,
      QueryRoute.flattenResults rs <> []
      /\ QueryRoute.removeDuplicateEvents (QueryRoute.flattenResults rs)
         = Some unique
      /\ QueryRoute.scoreAndRankEvents unique q loc ty = Some scored
      /\ out = QueryRoute.limitResults scored k.
Proof.
  unfold QueryRoute.rankEvents.
  destruct (QueryRoute.flattenResults rs) as [|e all] eqn:E;
    cbn [length Nat.eqb].
  - intros [= <-]. by left.
  - destruct (QueryRoute.removeDuplicateEvents (e :: all)) as [unique|] eqn:U;
      cbn; [|done].
    destruct (QueryRoute.scoreAndRankEvents unique q loc ty) as [scored|] eqn:S;
      cbn; [|done].
    intros [= <-]. right. exists unique, scored.
    split; [discriminate|]. split; [reflexivity|]. split; [exact S|reflexivity].
Qed.

(** C3: every object the scoring stages produce has [isStudentFriendly]
    equal to [studentFriendlinessScore > 0.6], the score being the one
    [calculateStudentFriendlinessScore] computes for the candidate: in the
    output of [filterAndRankEvents] (filter path), of [scoreAndRankEvents]
    and of the whole rank pipeline (rank path). *)
Theorem isStudentFriendly_is_threshold_of_score :
  (forall events q loc ty,
      Forall thresholdHolds (FilterRoute.filterAndRankEvents events q loc ty))
  /\ (forall events q loc ty scored,
         QueryRoute.scoreAndRankEvents events q loc ty = Some scored ->
         Forall thresholdHolds scored)
  /\ (forall rs q loc ty k out,
         QueryRoute.rankEvents rs q loc ty k = Some out ->
         Forall thresholdHolds out).
Proof.
  assert (Hrank : forall events q loc ty scored,
             QueryRoute.scoreAndRankEvents events q loc ty = Some scored ->
             Forall thresholdHolds scored).
  { intros events q loc ty scored H. apply Forall_forall. intros s Hs.
    destruct (scoreAndRankEvents_elem_of _ _ _ _ _ _ H Hs)
      as (event & _ & (r & _ & ->)%scoreEvent_Some).
    apply mkFiltered_threshold. }
  split; [|split; [exact Hrank|]].
  - intros events q loc ty. apply Forall_forall. intros s Hs.
    apply filterAndRankEvents_elem_of in Hs as (event & r & _ & _ & _ & ->).
    apply mkFiltered_threshold.
  - intros rs q loc ty k out
      [[_ ->]|(unique & scored & _ & _ & Hsc & ->)]%rankEvents_Some;
      [constructor|].
    apply Forall_forall. intros s Hs.
    eapply sublist_elem_of in Hs; [|apply limitResults_sublist].
    pose proof (Hrank _ _ _ _ _ Hsc) as HF.
    by eapply Forall_forall in HF.
Qed.

Lemma isStudentFriendly_is_threshold_of_score_witness :
  exists scored,
    QueryRoute.scoreAndRankEvents [Sample.tapasInstagram; Sample.museumTour]
                                  "student tapas" "barcelona" None
    = Some scored
    /\ Forall thresholdHolds scored.
Proof.
  destruct (QueryRoute.scoreAndRankEvents
              [Sample.tapasInstagram; Sample.museumTour]
              "student tapas" "barcelona" None) as [scored|] eqn:E;
    [|vm_compute in E; discriminate E].
  exists scored. split; [reflexivity|].
  destruct isStudentFriendly_is_threshold_of_score as (_ & H & _).
  exact (H _ _ _ _ _ E).
Defined.

(** ** Flattening the scraping results *)

Lemma flatten_same rs :
  DiscoverRoute.flattenResults rs = QueryRoute.flattenResults rs.
Proof.
  unfold DiscoverRoute.flattenResults, QueryRoute.flattenResults.
  induction rs as [|r rs IH]; [done|]. cbn.
  destruct (ScrapingResult.success r); cbn; by rewrite IH.
Qed.

Lemma flatten_elem_of rs event :
  event ∈ QueryRoute.flattenResults rs
  <-> exists r, r ∈ rs /\ ScrapingResult.success r = true
                /\ event ∈ ScrapingResult.events r.
Proof.
  unfold QueryRoute.flattenResults.
  rewrite list_elem_of_In, in_flat_map. split.
  - intros (r & [Hr Hs]%filter_In & He).
    exists r. by rewrite !list_elem_of_In.
  - intros (r & Hr & Hs & He). exists r.
    rewrite filter_In, <- !list_elem_of_In. done.
Qed.

Lemma filter_success_idem rs :
  List.filter ScrapingResult.success
              (List.filter ScrapingResult.success rs)
  = List.filter ScrapingResult.success rs.
Proof.
  induction rs as [|r rs IH]; [done|]. cbn.
  destruct (ScrapingResult.success r) eqn:E; cbn; [|done].
  by rewrite E, IH.
Qed.

Lemma flatten_filter_success rs :
  QueryRoute.flattenResults (List.filter ScrapingResult.success rs)
  = QueryRoute.flattenResults rs.
Proof. unfold QueryRoute.flattenResults. by rewrite filter_success_idem. Qed.

(** C7: the flatten step takes the events of the successful envelopes only,
    in both routes; failed envelopes are inert for the whole rank pipeline.
    With one failed and one successful envelope the pipeline returns what it
    returns for the successful envelope alone, and every returned object is
    the scored form of an event of a successful envelope. *)
Theorem failed_results_are_discarded :
  (forall rs, DiscoverRoute.flattenResults rs = QueryRoute.flattenResults rs)
  /\ (forall rs event,
         event ∈ QueryRoute.flattenResults rs
         <-> exists r, r ∈ rs /\ ScrapingResult.success r = true
                       /\ event ∈ ScrapingResult.events r)
  /\ (forall rs q loc ty k,
         QueryRoute.rankEvents rs q loc ty k
         = QueryRoute.rankEvents (List.filter ScrapingResult.success rs)
                                 q loc ty k)
  /\ (forall failed ok q loc ty k,
         ScrapingResult.success failed = false ->
         ScrapingResult.success ok = true ->
         QueryRoute.flattenResults [failed; ok] = ScrapingResult.events ok
         /\ QueryRoute.flattenResults [ok; failed] = ScrapingResult.events ok
         /\ QueryRoute.rankEvents [failed; ok] q loc ty k
            = QueryRoute.rankEvents [ok] q loc ty k
         /\ QueryRoute.rankEvents [ok; failed] q loc ty k
            = QueryRoute.rankEvents [ok] q loc ty k)
  /\ (forall rs q loc ty k out s,
         QueryRoute.rankEvents rs q loc ty k = Some out ->
         s ∈ out ->
         QueryRoute.scoreEvent q loc ty (FilteredEvent.base s) = Some s
         /\ exists r, r ∈ rs /\ ScrapingResult.success r = true
                      /\ FilteredEvent.base s ∈ ScrapingResult.events r).
Proof.
  split; [exact flatten_same|]. split; [exact flatten_elem_of|].
  assert (Hinert : forall rs q loc ty k,
             QueryRoute.rankEvents rs q loc ty k
             = QueryRoute.rankEvents (List.filter ScrapingResult.success rs)
                                     q loc ty k).
  { intros. unfold QueryRoute.rankEvents. by rewrite flatten_filter_success. }
  split; [exact Hinert|]. split.
  - intros failed ok q loc ty k Hf Ho.
    unfold QueryRoute.flattenResults. cbn. rewrite Hf, Ho. cbn.
    rewrite app_nil_r. split; [done|]. split; [done|].
    rewrite (Hinert [failed; ok]), (Hinert [ok; failed]). cbn.
    by rewrite Hf, Ho.
  - intros rs q loc ty k out s
      [[_ ->]|(unique & scored & _ & Hu & Hsc & ->)]%rankEvents_Some Hs;
      [by apply elem_of_nil in Hs|].
    eapply sublist_elem_of in Hs; [|apply limitResults_sublist].
    destruct (scoreAndRankEvents_elem_of _ _ _ _ _ _ Hsc Hs)
      as (event & Hin & Hscore).
    destruct (scoreEvent_Some _ _ _ _ _ Hscore) as (r & _ & Heq).
    assert (Hbase : FilteredEvent.base s = event) by (by subst s).
    rewrite Hbase. split; [done|].
    apply flatten_elem_of.
    eapply sublist_elem_of; [|exact Hin].
    by eapply filterUnseen_sublist.
Qed.

Lemma failed_results_are_discarded_witness :
  QueryRoute.flattenResults [Sample.failedResult; Sample.instagramResult]
  = [Sample.tapasInstagram; Sample.museumTour]
  /\ QueryRoute.rankEvents [Sample.failedResult; Sample.instagramResult]
                           "student tapas" "barcelona" None 20
     = QueryRoute.rankEvents [Sample.instagramResult]
                             "student tapas" "barcelona" None 20.
Proof.
  destruct failed_results_are_discarded as (_ & _ & _ & H & _).
  destruct (H Sample.failedResult Sample.instagramResult
              "student tapas" "barcelona" None 20%Z eq_refl eq_refl)
    as (H1 & _ & H3 & _).
  split; [exact H1|exact H3].
Defined.

(** ** The student-friendliness view and its fall-back *)

Lemma limitResults_fallback scored k :
  List.filter QueryRoute.isStudentFriendlyEnough scored = [] ->
  QueryRoute.limitResults scored k = JsArray.slice0 scored k.
Proof. unfold QueryRoute.limitResults. by intros ->. Qed.

Lemma limitResults_nonempty scored k :
  scored <> [] -> (0 < k)%Z -> QueryRoute.limitResults scored k <> [].
Proof.
  intros Hne Hk. unfold QueryRoute.limitResults.
  destruct (List.filter QueryRoute.isStudentFriendlyEnough scored)
    as [|s friendly] eqn:E; cbn [length Nat.ltb Nat.leb].
  - destruct scored as [|s scored]; [done|].
    destruct (slice0_cons_pos s scored k Hk) as [rest ->]. done.
  - destruct (slice0_cons_pos s friendly k Hk) as [rest ->]. done.
Qed.

(** ** Exceptions in the scoring loop *)

(** C9: in [filterAndRankEvents] a candidate whose scoring raises is skipped
    and the batch goes on: the result is the result for the batch without
    that candidate; every candidate that scores above 0.3 has its object in
    the result, whatever the other candidates do, and nothing else is in the
    result; the empty batch gives the empty list.  The function itself never
    raises. *)
Theorem scoring_exception_skips_one_candidate :
  (forall before bad after q loc ty,
      FilterRoute.calculateRelevanceScore bad q loc ty = None ->
      FilterRoute.filterAndRankEvents (before ++ bad :: after) q loc ty
      = FilterRoute.filterAndRankEvents (before ++ after) q loc ty)
  /\ (forall events q loc ty s,
         s ∈ FilterRoute.filterAndRankEvents events q loc ty
         <-> exists event r,
             event ∈ events
             /\ FilterRoute.calculateRelevanceScore event q loc ty = Some r
             /\ (r >? Number.c0_3) = true
             /\ s = mkFiltered event r
                               (calculateStudentFriendlinessScore event) ty)
  /\ (forall q loc ty, FilterRoute.filterAndRankEvents [] q loc ty = []).
Proof.
  split; [|split; [exact filterAndRankEvents_elem_of|done]].
  intros before bad after q loc ty Hbad.
  rewrite !filterAndRankEvents_unfold, !flat_map_app. cbn.
  apply tryBody_None in Hbad. by rewrite Hbad.
Qed.

Lemma scoring_exception_skips_one_candidate_witness :
  FilterRoute.calculateRelevanceScore Sample.locationIsTrue
                                      "tapas night" (Some "barcelona") None
  = None
  /\ FilterRoute.filterAndRankEvents
       [Sample.tapasInstagram; Sample.locationIsTrue; Sample.tapasReddit]
       "tapas night" (Some "barcelona") None
     = FilterRoute.filterAndRankEvents
         [Sample.tapasInstagram; Sample.tapasReddit]
         "tapas night" (Some "barcelona") None
  /\ length (FilterRoute.filterAndRankEvents
               [Sample.tapasInstagram; Sample.locationIsTrue;
                Sample.tapasReddit]
               "tapas night" (Some "barcelona") None) = 2.
Proof.
  destruct scoring_exception_skips_one_candidate as (H & _ & _).
  split; [reflexivity|].
  pose proof (H [Sample.tapasInstagram] Sample.locationIsTrue
                [Sample.tapasReddit] "tapas night" (Some "barcelona") None
                eq_refl) as Hskip.
  split; [exact Hskip|].
  cbn [app] in Hskip. rewrite Hskip. vm_compute. reflexivity.
Defined.

(** ** The event-type bonus *)

Lemma relevanceTail_no_hint event h score :
  RawEvent.eventType event <> VString h ->
  relevanceTail event (Some h) score = relevanceTail event None score.
Proof.
  intros Hne. unfold relevanceTail. cbn [truthyParam andb default].
  destruct (negb (String.eqb h "") && truthy (RawEvent.eventType event));
    [|done].
  destruct (RawEvent.eventType event) as [| |b|s]; cbn; try done.
  destruct (String.eqb_spec s h) as [->|_]; [done|]. done.
Qed.

Lemma filter_relevance_no_hint event q loc h :
  RawEvent.eventType event <> VString h ->
  FilterRoute.calculateRelevanceScore event q loc (Some h)
  = FilterRoute.calculateRelevanceScore event q loc None.
Proof.
  intros Hne. unfold FilterRoute.calculateRelevanceScore.
  destruct (if truthyParam loc && truthy (RawEvent.location event)
            then _ else _) as [score|]; cbn; [|done].
  by rewrite relevanceTail_no_hint.
Qed.

Lemma query_relevance_no_hint event q loc h :
  RawEvent.eventType event <> VString h ->
  QueryRoute.calculateRelevanceScore event q loc (Some h)
  = QueryRoute.calculateRelevanceScore event q loc None.
Proof.
  intros Hne. unfold QueryRoute.calculateRelevanceScore.
  destruct (if truthy (RawEvent.location event) then _ else _) as [score|];
    cbn; [|done].
  by rewrite relevanceTail_no_hint.
Qed.

(** C10: in both routes the hint changes the relevance score only for a
    candidate that already carries an [eventType] field equal to the hint.  A
    candidate without the field scores as if no hint were given, also when
    the hint is the category the categorizer assigns to it, although the
    output object then carries the hint as its [eventType]. *)
Theorem type_bonus_needs_eventType_on_candidate :
  (forall event q loc h,
      FilterRoute.calculateRelevanceScore event q loc (Some h)
      <> FilterRoute.calculateRelevanceScore event q loc None ->
      RawEvent.eventType event = VString h)
  /\ (forall event q loc h,
         QueryRoute.calculateRelevanceScore event q loc (Some h)
         <> QueryRoute.calculateRelevanceScore event q loc None ->
         RawEvent.eventType event = VString h)
  /\ (forall event q loc loc' h,
         RawEvent.eventType event = VUndefined ->
         FilterRoute.calculateRelevanceScore event q loc (Some h)
         = FilterRoute.calculateRelevanceScore event q loc None
         /\ QueryRoute.calculateRelevanceScore event q loc' (Some h)
            = QueryRoute.calculateRelevanceScore event q loc' None)
  /\ (forall event q loc loc',
         RawEvent.eventType event = VUndefined ->
         let hint := categorizeEventByKeywords event in
         FilterRoute.calculateRelevanceScore event q loc (Some hint)
         = FilterRoute.calculateRelevanceScore event q loc None
         /\ QueryRoute.calculateRelevanceScore event q loc' (Some hint)
            = QueryRoute.calculateRelevanceScore event q loc' None
         /\ forall s,
             QueryRoute.scoreEvent q loc' (Some hint) event = Some s ->
             FilteredEvent.eventType s = hint
             /\ Some (FilteredEvent.relevanceScore s)
                = QueryRoute.calculateRelevanceScore event q loc' None).
Proof.
  assert (Hdec : forall v h, v = VString h \/ v <> VString h).
  { intros [| |b|s] h; try (right; discriminate).
    destruct (String.eqb_spec s h) as [->|Hne]; [by left|].
    right. by intros [= ?]. }
  split; [|split; [|split]].
  - intros event q loc h Hdiff.
    destruct (Hdec (RawEvent.eventType event) h) as [?|Hne]; [done|].
    destruct Hdiff. by apply filter_relevance_no_hint.
  - intros event q loc h Hdiff.
    destruct (Hdec (RawEvent.eventType event) h) as [?|Hne]; [done|].
    destruct Hdiff. by apply query_relevance_no_hint.
  - intros event q loc loc' h Hnone. split.
    + apply filter_relevance_no_hint. by rewrite Hnone.
    + apply query_relevance_no_hint. by rewrite Hnone.
  - intros event q loc loc' Hnone hint. split; [|split].
    + apply filter_relevance_no_hint. by rewrite Hnone.
    + apply query_relevance_no_hint. by rewrite Hnone.
    + intros s (r & Hr & ->)%scoreEvent_Some. cbn. split.
      * unfold hint, categorizeEventByKeywords.
        repeat match goal with
               | |- context [if ?c then _ else _] =>
                   match c with
                   | context [includes] => destruct c
                   end
               end; reflexivity.
      * rewrite <- Hr. apply query_relevance_no_hint. by rewrite Hnone.
Qed.

(** ** Binary64 arithmetic

    Rounding a magnitude keeps the sign, so sums, products and quotients of
    numbers that are not below zero are not below zero (and not [NaN], as
    long as no [0/0], [inf/inf] or [0 * inf] occurs); an integer below
    [2^53] is represented exactly. *)

Section Rounding.
Variables prec emax : Z.

Lemma iter_pos_invariant {A} (P : A -> Prop) (f : A -> A) :
  (forall x, P x -> P (f x)) -> forall n x, P x -> P (SpecFloat.iter_pos f n x).
Proof.
  intros Hf. induction n as [n IH|n IH|]; intros x Hx; cbn; auto.
Qed.

Lemma shr_1_nonneg mrs : (0 <= shr_m mrs)%Z -> (0 <= shr_m (shr_1 mrs))%Z.
Proof.
  destruct mrs as [m r s]. cbn.
  destruct m as [|p|p]; [done| |lia]. intros _. destruct p; cbn; lia.
Qed.

Lemma shr_nonneg mrs e n :
  (0 <= shr_m mrs)%Z -> (0 <= shr_m (shr mrs e n).1)%Z.
Proof.
  intros H. destruct n as [|p|p]; cbn; [done| |done].
  apply (iter_pos_invariant (fun mrs => (0 <= shr_m mrs)%Z)); [|done].
  apply shr_1_nonneg.
Qed.

Lemma shr_record_of_loc_m m l : shr_m (shr_record_of_loc m l) = m.
Proof. destruct l as [|[]]; reflexivity. Qed.

Lemma shr_fexp_nonneg m e l :
  (0 <= m)%Z -> (0 <= shr_m (shr_fexp prec emax m e l).1)%Z.
Proof.
  intros H. unfold shr_fexp. apply shr_nonneg.
  by rewrite shr_record_of_loc_m.
Qed.

Lemma round_nearest_even_nonneg m l :
  (0 <= m)%Z -> (0 <= round_nearest_even m l)%Z.
Proof.
  intros H. destruct l as [|[]]; cbn; try lia. destruct (Z.even m); lia.
Qed.

Lemma binary_round_aux_nonneg m e l :
  (0 <= m)%Z ->
  Number.nonneg (binary_round_aux prec emax false m e l) = true.
Proof.
  intros H. unfold binary_round_aux.
  pose proof (shr_fexp_nonneg m e l H) as H1.
  destruct (shr_fexp prec emax m e l) as [mrs' e']. cbn in H1.
  pose proof (shr_fexp_nonneg _ e' loc_Exact
                (round_nearest_even_nonneg _ (loc_of_shr_record mrs') H1))
    as H2.
  destruct (shr_fexp prec emax _ e' loc_Exact) as [mrs'' e'']. cbn in H2.
  destruct (shr_m mrs'') as [|p|p]; [done| |lia].
  by destruct (e'' <=? emax - prec)%Z.
Qed.

Lemma binary_round_nonneg m e :
  Number.nonneg (binary_round prec emax false m e) = true.
Proof.
  unfold binary_round. destruct (shl_align _ _ _) as [mz ez].
  by apply binary_round_aux_nonneg.
Qed.

Lemma SFadd_nonneg x y :
  Number.nonneg x = true -> Number.nonneg y = true ->
  Number.nonneg (SFadd prec emax x y) = true.
Proof.
  destruct x as [sx|[]| |[] mx ex], y as [sy|[]| |[] my ey]; cbn;
    try done.
  - by destruct sx, sy.
  - intros _ _. apply binary_round_nonneg.
Qed.

Lemma SFmul_nonneg x y :
  Number.nonneg x = true -> Number.positiveFinite y = true ->
  Number.nonneg (SFmul prec emax x y) = true.
Proof.
  destruct x as [sx|[]| |[] mx ex], y as [sy|[]| |[] my ey]; cbn;
    try done.
  intros _ _. by apply binary_round_aux_nonneg.
Qed.

Lemma SFdiv_nonneg x y :
  Number.nonneg x = true -> Number.positiveFinite y = true ->
  Number.nonneg (SFdiv prec emax x y) = true.
Proof.
  destruct x as [sx|[]| |[] mx ex], y as [sy|[]| |[] my ey]; cbn;
    try done.
  intros _ _. unfold SFdiv_core_binary.
  set (m' := match _ with Z0 => _ | Zpos _ => _ | Zneg _ => _ end).
  assert (Hm' : (0 <= m')%Z).
  { subst m'. destruct (_ - _ - _)%Z; [lia| |lia].
    apply Z.shiftl_nonneg. lia. }
  pose proof (Z.div_pos m' (Z.pos my) Hm' ltac:(lia)) as Hq.
  unfold Z.div in Hq.
  destruct (Z.div_eucl m' (Z.pos my)) as [q r].
  by apply binary_round_aux_nonneg.
Qed.
End Rounding.

Lemma digits2_pos_iter_xO p n :
  digits2_pos (Pos.iter xO p n) = (digits2_pos p + n)%positive.
Proof.
  induction n as [|n IH] using Pos.peano_ind.
  - cbn. lia.
  - rewrite Pos.iter_succ. cbn. rewrite IH. lia.
Qed.

Lemma binary_round_aux_exact m e :
  Z.pos (digits2_pos m) = 53%Z -> (-1074 <= e <= 971)%Z ->
  binary_round_aux 53 1024 false (Z.pos m) e loc_Exact = S754_finite false m e.
Proof.
  intros Hd He. unfold binary_round_aux, shr_fexp. cbn [Zdigits2 shr_record_of_loc].
  rewrite Hd. unfold fexp, emin.
  replace (Z.max (53 + e - 53) (3 - 1024 - 53) - e)%Z with 0%Z by lia.
  cbn [shr shr_m loc_of_shr_record round_nearest_even Zdigits2 shr_record_of_loc].
  rewrite Hd.
  replace (Z.max (53 + e - 53) (3 - 1024 - 53) - e)%Z with 0%Z by lia.
  cbn [shr shr_m].
  destruct (Z.leb_spec e (1024 - 53)); [done|lia].
Qed.

Lemma ofZ_pos_finite p :
  (Z.pos (digits2_pos p) <= 53)%Z ->
  Number.positiveFinite (binary_normalize 53 1024 (Z.pos p) 0 false) = true.
Proof.
  intros Hd. cbn [binary_normalize]. unfold binary_round, shl_align.
  unfold fexp, emin.
  replace (Z.max (Z.pos (digits2_pos p) + 0 - 53) (3 - 1024 - 53) - 0)%Z
    with (Z.pos (digits2_pos p) - 53)%Z by lia.
  destruct (Z.pos (digits2_pos p) - 53)%Z as [|d|d] eqn:E; [| lia |].
  - rewrite binary_round_aux_exact; [done|lia|lia].
  - replace (Z.max (Z.pos (digits2_pos p) + 0 - 53) (3 - 1024 - 53))%Z
      with (Z.neg d) by lia.
    rewrite binary_round_aux_exact; [done| |lia].
    rewrite digits2_pos_iter_xO. lia.
Qed.

Lemma digits2_pos_lower p : (2 ^ (Z.pos (digits2_pos p) - 1) <= Z.pos p)%Z.
Proof.
  induction p as [p IH|p IH|]; cbn [digits2_pos]; [| |done].
  - rewrite Pos2Z.inj_succ.
    replace (Z.succ (Z.pos (digits2_pos p)) - 1)%Z
      with (Z.succ (Z.pos (digits2_pos p) - 1))%Z by lia.
    rewrite Z.pow_succ_r by lia. lia.
  - rewrite Pos2Z.inj_succ.
    replace (Z.succ (Z.pos (digits2_pos p)) - 1)%Z
      with (Z.succ (Z.pos (digits2_pos p) - 1))%Z by lia.
    rewrite Z.pow_succ_r by lia. lia.
Qed.

Lemma digits2_pos_le_53 p : (Z.pos p < 2 ^ 53)%Z -> (Z.pos (digits2_pos p) <= 53)%Z.
Proof.
  intros Hp. pose proof (digits2_pos_lower p) as Hl.
  destruct (Z.le_gt_cases (Z.pos (digits2_pos p)) 53) as [?|Hgt]; [done|].
  assert (2 ^ 53 <= 2 ^ (Z.pos (digits2_pos p) - 1))%Z.
  { apply Z.pow_le_mono_r; lia. }
  lia.
Qed.

(** ** Scores and the unit interval *)

Section ScoreBounds.

Lemma ofNat_zero : Number.ofNat 0 = Number.zero.
Proof. reflexivity. Qed.

Lemma ofNat_positiveFinite n :
  (0 < Z.of_nat n < 2 ^ 53)%Z ->
  Number.positiveFinite (Number.ofNat n) = true.
Proof.
  intros [Hpos Hlt]. unfold Number.ofNat, Number.ofZ.
  destruct (Z.of_nat n) as [|p|p] eqn:E; [lia| |lia].
  apply ofZ_pos_finite. by apply digits2_pos_le_53.
Qed.

Lemma positiveFinite_nonneg x :
  Number.positiveFinite x = true -> Number.nonneg x = true.
Proof. by destruct x as [| | |[]]. Qed.

Lemma ofNat_nonneg n :
  (Z.of_nat n < 2 ^ 53)%Z -> Number.nonneg (Number.ofNat n) = true.
Proof.
  intros Hlt. destruct n as [|n]; [done|].
  apply positiveFinite_nonneg, ofNat_positiveFinite. lia.
Qed.

Lemma add_nonneg x y :
  Number.nonneg x = true -> Number.nonneg y = true ->
  Number.nonneg (x + y) = true.
Proof. apply SFadd_nonneg. Qed.

Lemma bump_nonneg cond w score :
  Number.nonneg w = true -> Number.nonneg score = true ->
  Number.nonneg (bump cond w score) = true.
Proof.
  intros Hw Hs. unfold bump. destruct cond; [|done]. by apply add_nonneg.
Qed.

Lemma min_one_inUnit x :
  Number.nonneg x = true -> Number.inUnit (Number.min x Number.c1_0) = true.
Proof.
  destruct x as [s|[]| |[] m e]; try done.
  intros _. unfold Number.min.
  destruct (SFcompare (S754_finite false m e) Number.c1_0) as [[]|] eqn:E.
  - change (Number.inUnit (S754_finite false m e) = true).
    unfold Number.inUnit, Number.le, SFleb. by rewrite E.
  - unfold Number.inUnit, Number.le, SFleb. by rewrite E.
  - reflexivity.
  - discriminate E.
Qed.

Lemma overlapScore_nonneg event query :
  (0 < Z.of_nat (length (queryWords (toLowerCase query)))
   < Number.maxArrayLength)%Z ->
  Number.nonneg (overlapScore event query) = true.
Proof.
  intros [Hpos Hlt]. unfold Number.maxArrayLength in Hlt.
  unfold overlapScore. apply add_nonneg; [done|].
  apply SFmul_nonneg; [|done].
  apply SFdiv_nonneg.
  - apply ofNat_nonneg.
    pose proof (List.filter_length_le
                  (fun word => includes (eventText event) word)
                  (queryWords (toLowerCase query))) as Hle.
    unfold matchingWords.
    assert (2 ^ 32 < 2 ^ 53)%Z by (by apply Z.pow_lt_mono_r).
    lia.
  - apply ofNat_positiveFinite.
    assert (2 ^ 32 < 2 ^ 53)%Z by (by apply Z.pow_lt_mono_r).
    lia.
Qed.

Lemma relevanceTail_inUnit event eventType score :
  Number.nonneg score = true ->
  Number.inUnit (relevanceTail event eventType score) = true.
Proof.
  intros Hs. unfold relevanceTail. apply min_one_inUnit.
  repeat apply bump_nonneg; try done.
  destruct (truthyParam eventType && truthy (RawEvent.eventType event));
    [|done].
  by apply bump_nonneg.
Qed.

Lemma bump_NaN cond w : bump cond w Number.NaN = Number.NaN.
Proof. by destruct cond. Qed.

Lemma relevanceTail_NaN event eventType :
  relevanceTail event eventType Number.NaN = Number.NaN.
Proof.
  unfold relevanceTail.
  destruct (truthyParam eventType && truthy (RawEvent.eventType event));
    by rewrite !bump_NaN.
Qed.

Lemma overlapScore_NaN event query :
  queryWords (toLowerCase query) = [] ->
  overlapScore event query = Number.NaN.
Proof. intros H. unfold overlapScore. by rewrite H. Qed.

Lemma filter_relevance_NaN event q loc ty r :
  queryWords (toLowerCase q) = [] ->
  FilterRoute.calculateRelevanceScore event q loc ty = Some r ->
  r = Number.NaN.
Proof.
  intros Hq. unfold FilterRoute.calculateRelevanceScore.
  rewrite (overlapScore_NaN _ _ Hq).
  destruct (truthyParam loc && truthy (RawEvent.location event)).
  - destruct (callToLowerCase (RawEvent.location event)); cbn; [|done].
    rewrite bump_NaN, relevanceTail_NaN. by intros [= <-].
  - cbn. rewrite relevanceTail_NaN. by intros [= <-].
Qed.

Lemma query_relevance_NaN event q loc ty r :
  queryWords (toLowerCase q) = [] ->
  QueryRoute.calculateRelevanceScore event q loc ty = Some r ->
  r = Number.NaN.
Proof.
  intros Hq. unfold QueryRoute.calculateRelevanceScore.
  rewrite (overlapScore_NaN _ _ Hq).
  destruct (truthy (RawEvent.location event)).
  - destruct (callToLowerCase (RawEvent.location event)); cbn; [|done].
    rewrite bump_NaN, relevanceTail_NaN. by intros [= <-].
  - cbn. rewrite relevanceTail_NaN. by intros [= <-].
Qed.

End ScoreBounds.

(** The student-friendliness score of every candidate lies in [[0.0, 1.0]]. *)
Theorem studentFriendliness_in_unit_interval (event : RawEvent.t) :
  Number.inUnit (calculateStudentFriendlinessScore event) = true.
Proof.
  unfold calculateStudentFriendlinessScore. apply min_one_inUnit.
  repeat apply bump_nonneg; done.
Qed.

(** For a query with at least one token longer than two characters, the
    relevance score that either route returns lies in [[0.0, 1.0]]. *)
Theorem relevance_in_unit_interval_with_tokens
        (event : RawEvent.t) (q : string) (ty : option string) :
  (0 < Z.of_nat (length (queryWords (toLowerCase q)))
   < Number.maxArrayLength)%Z ->
  (forall loc r,
      FilterRoute.calculateRelevanceScore event q loc ty = Some r ->
      Number.inUnit r = true)
  /\ (forall loc r,
         QueryRoute.calculateRelevanceScore event q loc ty = Some r ->
         Number.inUnit r = true).
Proof.
  intros Hn. pose proof (overlapScore_nonneg event q Hn) as Hov.
  split; intros loc r.
  - unfold FilterRoute.calculateRelevanceScore.
    destruct (truthyParam loc && truthy (RawEvent.location event)).
    + destruct (callToLowerCase (RawEvent.location event)); cbn; [|done].
      intros [= <-]. apply relevanceTail_inUnit. by apply bump_nonneg.
    + cbn. intros [= <-]. by apply relevanceTail_inUnit.
  - unfold QueryRoute.calculateRelevanceScore.
    destruct (truthy (RawEvent.location event)).
    + destruct (callToLowerCase (RawEvent.location event)); cbn; [|done].
      intros [= <-]. apply relevanceTail_inUnit. by apply bump_nonneg.
    + cbn. intros [= <-]. by apply relevanceTail_inUnit.
Qed.

Lemma relevance_in_unit_interval_with_tokens_witness :
  exists r,
    FilterRoute.calculateRelevanceScore Sample.tapasInstagram "tapas night"
                                        (Some "barcelona") None = Some r
    /\ Number.inUnit r = true.
Proof.
  destruct (FilterRoute.calculateRelevanceScore
              Sample.tapasInstagram "tapas night" (Some "barcelona") None)
    as [r|] eqn:E; [|vm_compute in E; discriminate E].
  exists r. split; [reflexivity|].
  destruct (relevance_in_unit_interval_with_tokens
              Sample.tapasInstagram "tapas night" None) as [H _].
  - vm_compute. split; reflexivity.
  - exact (H _ _ E).
Defined.

(** C1, at the input where the code leaves the interval: for a query without
    a token longer than two characters, the relevance score that either route
    returns is not in [[0.0, 1.0]] (it is [NaN]; [Math.min(NaN, 1.0)] is
    [NaN]). *)
Theorem relevance_outside_unit_interval_without_tokens
        (event : RawEvent.t) (q : string) (ty : option string) :
  queryWords (toLowerCase q) = [] ->
  (forall loc r,
      FilterRoute.calculateRelevanceScore event q loc ty = Some r ->
      Number.inUnit r = false)
  /\ (forall loc r,
         QueryRoute.calculateRelevanceScore event q loc ty = Some r ->
         Number.inUnit r = false).
Proof.
  intros Hq. split; intros loc r Hr.
  - by rewrite (filter_relevance_NaN _ _ _ _ _ Hq Hr).
  - by rewrite (query_relevance_NaN _ _ _ _ _ Hq Hr).
Qed.

Lemma relevance_outside_unit_interval_without_tokens_witness :
  exists r,
    FilterRoute.calculateRelevanceScore Sample.tapasInstagram "go"
                                        (Some "barcelona") None = Some r
    /\ Number.inUnit r = false.
Proof.
  destruct (FilterRoute.calculateRelevanceScore
              Sample.tapasInstagram "go" (Some "barcelona") None)
    as [r|] eqn:E; [|vm_compute in E; discriminate E].
  exists r. split; [reflexivity|].
  destruct (relevance_outside_unit_interval_without_tokens
              Sample.tapasInstagram "go" None eq_refl) as [H _].
  exact (H _ _ E).
Defined.

(** C2, at the input where the code divides by zero: for a query without a
    token longer than two characters the quotient
    [matchingWords.length / queryWords.length] is [0 / 0], the token-overlap
    term is [NaN] instead of a contribution of [0], and the score either
    route returns is [NaN]. *)
Theorem overlap_term_is_zero_by_zero_without_tokens
        (event : RawEvent.t) (q : string) (ty : option string) :
  queryWords (toLowerCase q) = [] ->
  Number.ofNat (length (matchingWords (eventText event)
                                      (queryWords (toLowerCase q))))
  / Number.ofNat (length (queryWords (toLowerCase q)))
  = Number.zero / Number.zero
  /\ Number.zero / Number.zero = Number.NaN
  /\ overlapScore event q = Number.NaN
  /\ overlapScore event q <> Number.zero
  /\ (forall loc r,
         FilterRoute.calculateRelevanceScore event q loc ty = Some r ->
         r = Number.NaN)
  /\ (forall loc r,
         QueryRoute.calculateRelevanceScore event q loc ty = Some r ->
         r = Number.NaN).
Proof.
  intros Hq. split; [by rewrite Hq|]. split; [reflexivity|].
  rewrite (overlapScore_NaN _ _ Hq). split; [done|]. split; [done|].
  split; intros loc r Hr.
  - by eapply filter_relevance_NaN.
  - by eapply query_relevance_NaN.
Qed.

Lemma overlap_term_is_zero_by_zero_without_tokens_witness :
  queryWords (toLowerCase "go") = []
  /\ overlapScore Sample.tapasInstagram "go" = Number.NaN
  /\ QueryRoute.calculateRelevanceScore Sample.tapasInstagram "go"
                                        "barcelona" None
     = Some Number.NaN.
Proof.
  destruct (overlap_term_is_zero_by_zero_without_tokens
              Sample.tapasInstagram "go" None eq_refl)
    as (_ & _ & Hov & _ & _ & Hquery).
  split; [reflexivity|]. split; [exact Hov|].
  destruct (QueryRoute.calculateRelevanceScore
              Sample.tapasInstagram "go" "barcelona" None)
    as [r|] eqn:E; [|vm_compute in E; discriminate E].
  by rewrite (Hquery _ _ E).
Defined.

Lemma type_bonus_needs_eventType_on_candidate_witness :
  categorizeEventByKeywords Sample.museumTour = "cultural"
  /\ FilterRoute.calculateRelevanceScore Sample.museumTour "museum tour"
                                         (Some "barcelona") (Some "cultural")
     = FilterRoute.calculateRelevanceScore Sample.museumTour "museum tour"
                                           (Some "barcelona") None
  /\ QueryRoute.calculateRelevanceScore Sample.museumTour "museum tour"
                                        "barcelona" (Some "cultural")
     = QueryRoute.calculateRelevanceScore Sample.museumTour "museum tour"
                                          "barcelona" None.
Proof.
  destruct type_bonus_needs_eventType_on_candidate as (_ & _ & _ & H).
  destruct (H Sample.museumTour "museum tour" (Some "barcelona") "barcelona"
              eq_refl) as (Hf & Hq & _).
  split; [reflexivity|]. split; [exact Hf|exact Hq].
Defined.

(** The bonus is there for a candidate that carries the hinted type. *)
Example type_bonus_with_eventType_on_candidate :
  FilterRoute.calculateRelevanceScore Sample.typedMuseumTour "museum tour"
                                      (Some "barcelona") (Some "cultural")
  = Some (Number.decimal 7 10 + Number.decimal 2 10)
  /\ FilterRoute.calculateRelevanceScore Sample.typedMuseumTour "museum tour"
                                         (Some "barcelona") None
     = Some (Number.decimal 7 10).
Proof. vm_compute. split; reflexivity. Qed.

(** * Further properties of the routes *)

(** ** The output of the filter route *)

Lemma gt_min_one_inUnit s :
  (Number.min s Number.c1_0 >? Number.c0_3) = true ->
  Number.inUnit (Number.min s Number.c1_0) = true.
Proof.
  destruct s as [sx|[]| |[] m e]; try done.
  unfold Number.min.
  destruct (SFcompare (S754_finite false m e) Number.c1_0) as [[]|] eqn:E;
    [| |done|done].
  - intros _. change (Number.inUnit (S754_finite false m e) = true).
    unfold Number.inUnit, Number.le, SFleb. by rewrite E.
  - intros _. unfold Number.inUnit, Number.le, SFleb. by rewrite E.
Qed.

Lemma filter_relevance_above_threshold_inUnit event q loc ty r :
  FilterRoute.calculateRelevanceScore event q loc ty = Some r ->
  (r >? Number.c0_3) = true -> Number.inUnit r = true.
Proof.
  unfold FilterRoute.calculateRelevanceScore.
  destruct (if truthyParam loc && truthy (RawEvent.location event)
            then _ else _) as [score|]; cbn; [|done].
  intros [= <-]. unfold relevanceTail. apply gt_min_one_inUnit.
Qed.

(** Every object [filterAndRankEvents] returns has a relevance score above
    0.3 and at most 1.0 and a student-friendliness score in [[0.0, 1.0]],
    for every query: a [NaN] relevance never passes the threshold. *)
Theorem filterAndRankEvents_scores_in_range events q loc ty s :
  s ∈ FilterRoute.filterAndRankEvents events q loc ty ->
  (FilteredEvent.relevanceScore s >? Number.c0_3) = true
  /\ Number.inUnit (FilteredEvent.relevanceScore s) = true
  /\ Number.inUnit (FilteredEvent.studentFriendlinessScore s) = true.
Proof.
  intros (event & r & _ & Hr & Hgt & ->)%filterAndRankEvents_elem_of. cbn.
  split; [done|]. split.
  - by eapply filter_relevance_above_threshold_inUnit.
  - apply studentFriendliness_in_unit_interval.
Qed.

Lemma filterAndRankEvents_scores_in_range_witness :
  length (FilterRoute.filterAndRankEvents
            [Sample.tapasInstagram; Sample.museumTour]
            "tapas night" (Some "barcelona") None) = 1
  /\ Forall (fun s => Number.inUnit (FilteredEvent.relevanceScore s) = true)
            (FilterRoute.filterAndRankEvents
               [Sample.tapasInstagram; Sample.museumTour]
               "tapas night" (Some "barcelona") None).
Proof.
  split; [reflexivity|].
  apply Forall_forall. intros s Hs.
  exact (proj1 (proj2 (filterAndRankEvents_scores_in_range _ _ _ _ _ Hs))).
Defined.

(** Every object the rank route returns for a query with at least one
    token longer than two characters has a relevance score and a
    student-friendliness score in [[0.0, 1.0]], and is marked student
    friendly exactly when the latter is above 0.6. *)
Theorem rank_response_scores_in_range rs q loc ty k out s :
  (0 < Z.of_nat (length (queryWords (toLowerCase q)))
   < Number.maxArrayLength)%Z ->
  QueryRoute.rankEvents rs q loc ty k = Some out ->
  s ∈ out ->
  Number.inUnit (FilteredEvent.relevanceScore s) = true
  /\ Number.inUnit (FilteredEvent.studentFriendlinessScore s) = true
  /\ FilteredEvent.isStudentFriendly s
     = (FilteredEvent.studentFriendlinessScore s >? Number.c0_6).
Proof.
  intros Hq [[_ ->]|(unique & scored & _ & _ & Hsc & ->)]%rankEvents_Some Hs;
    [by apply elem_of_nil in Hs|].
  apply (sublist_elem_of _ _ _ (limitResults_sublist scored k)) in Hs.
  destruct (scoreAndRankEvents_elem_of _ _ _ _ _ _ Hsc Hs)
    as (event & _ & (r & Hr & ->)%scoreEvent_Some).
  cbn. split; [|split; [|reflexivity]].
  - exact (proj2 (relevance_in_unit_interval_with_tokens event q ty Hq)
                 _ _ Hr).
  - apply studentFriendliness_in_unit_interval.
Qed.

Lemma rank_response_scores_in_range_witness :
  exists out,
    QueryRoute.rankEvents [Sample.instagramResult] "tapas night" "barcelona"
                          None 20 = Some out
    /\ length out = 2%nat
    /\ Forall (fun s => Number.inUnit (FilteredEvent.relevanceScore s) = true)
              out.
Proof.
  destruct (QueryRoute.rankEvents [Sample.instagramResult] "tapas night"
                                  "barcelona" None 20) as [out|] eqn:E;
    [|vm_compute in E; discriminate E].
  exists out. split; [reflexivity|]. split.
  - pose proof E as E'. vm_compute in E'. injection E' as <-. reflexivity.
  - apply Forall_forall. intros s Hs.
    refine (proj1 (rank_response_scores_in_range _ "tapas night" _ _ _ _ s
                     _ E Hs)).
    vm_compute. split; reflexivity.
Defined.

(** For a query without a token longer than two characters
    [filterAndRankEvents] returns the empty list for every batch: each
    relevance score is [NaN] and [NaN > 0.3] is false. *)
Theorem filterAndRankEvents_empty_without_tokens events q loc ty :
  queryWords (toLowerCase q) = [] ->
  FilterRoute.filterAndRankEvents events q loc ty = [].
Proof.
  intros Hq.
  destruct (FilterRoute.filterAndRankEvents events q loc ty) as [|s rest] eqn:E;
    [done|].
  assert (Hin : s ∈ FilterRoute.filterAndRankEvents events q loc ty)
    by (rewrite E; left).
  apply filterAndRankEvents_elem_of in Hin as (event & r & _ & Hr & Hgt & _).
  rewrite (filter_relevance_NaN _ _ _ _ _ Hq Hr) in Hgt. done.
Qed.

Lemma filterAndRankEvents_empty_without_tokens_witness :
  FilterRoute.filterAndRankEvents
    [Sample.tapasInstagram; Sample.tapasReddit; Sample.museumTour]
    "go to" (Some "barcelona") None = [].
Proof.
  apply filterAndRankEvents_empty_without_tokens. reflexivity.
Defined.

(** ** The order of a sorted array *)

Section RoundingSign.
Variables prec emax : Z.

Lemma binary_round_aux_negative_sign m e l :
  (binary_round_aux prec emax true m e l >? Number.zero) = false.
Proof.
  unfold binary_round_aux.
  destruct (shr_fexp prec emax m e l) as [mrs' e'].
  destruct (shr_fexp prec emax _ e' loc_Exact) as [mrs'' e''].
  destruct (shr_m mrs'') as [|p|p]; [done| |done].
  by destruct (e'' <=? emax - prec)%Z.
Qed.

Lemma binary_normalize_gt_zero d e :
  (binary_normalize prec emax d e false >? Number.zero) = true -> (0 < d)%Z.
Proof.
  destruct d as [|p|p]; cbn [binary_normalize]; [done|lia|].
  unfold binary_round. destruct (shl_align _ _ _) as [mz ez].
  by rewrite binary_round_aux_negative_sign.
Qed.

Lemma binary_normalize_not_gt_zero d e :
  (d <= 0)%Z ->
  (binary_normalize prec emax d e false >? Number.zero) = false.
Proof.
  intros Hd.
  destruct (binary_normalize prec emax d e false >? Number.zero) eqn:E;
    [|done].
  apply binary_normalize_gt_zero in E. lia.
Qed.

(** When [b - a] is above zero, [a - b] is not. *)
Lemma SFsub_gt_zero_antisym a b :
  (SFsub prec emax b a >? Number.zero) = true ->
  (SFsub prec emax a b >? Number.zero) = false.
Proof.
  destruct a as [sa|sa| |sa ma ea], b as [sb|sb| |sb mb eb];
    try (by destruct sa, sb); try (by destruct sa); try (by destruct sb);
    try done.
  cbn [SFsub]. intros Hgt. apply binary_normalize_gt_zero in Hgt.
  rewrite (Z.min_comm ea eb). apply binary_normalize_not_gt_zero. lia.
Qed.

End RoundingSign.

Section SortedOutput.
Context {A : Type} (comparefn : A -> A -> Number.t).
Hypothesis comparefn_antisym :
  forall a b, (comparefn a b >? Number.zero) = true ->
              (comparefn b a >? Number.zero) = false.

Lemma insertSorted_HdRel a x l :
  inOrder comparefn a x -> HdRel (inOrder comparefn) a l ->
  HdRel (inOrder comparefn) a (JsArray.insertSorted comparefn x l).
Proof.
  intros Hax Hal. destruct l as [|y r]; cbn; [by constructor|].
  destruct (comparefn x y >? Number.zero); [|by constructor].
  inversion Hal; subst. by constructor.
Qed.

Lemma insertSorted_Sorted x l :
  Sorted (inOrder comparefn) l ->
  Sorted (inOrder comparefn) (JsArray.insertSorted comparefn x l).
Proof.
  induction 1 as [|y r Hr IH Hy]; cbn; [by repeat constructor|].
  destruct (comparefn x y >? Number.zero) eqn:E.
  - constructor; [exact IH|].
    apply insertSorted_HdRel; [|exact Hy].
    by apply comparefn_antisym.
  - constructor; [by constructor|]. by constructor.
Qed.

Lemma sort_Sorted l : Sorted (inOrder comparefn) (JsArray.sort comparefn l).
Proof.
  induction l as [|x l IH]; cbn; [constructor|].
  by apply insertSorted_Sorted.
Qed.

End SortedOutput.

(** The arrays the two routes return after sorting are in order for their
    comparators: no object is followed by one that the comparator puts
    before it (for the filter route [b.relevanceScore - a.relevanceScore > 0]
    is false for neighbours [a], [b]; for the rank route the same with the
    combined score [0.7 * relevance + 0.3 * studentFriendliness]). *)
Theorem ranked_output_in_comparator_order :
  (forall events q loc ty,
      Sorted (inOrder FilterRoute.byRelevance)
             (FilterRoute.filterAndRankEvents events q loc ty))
  /\ (forall events q loc ty scored,
         QueryRoute.scoreAndRankEvents events q loc ty = Some scored ->
         Sorted (inOrder QueryRoute.byCombinedScore) scored).
Proof.
  split.
  - intros events q loc ty. rewrite filterAndRankEvents_unfold.
    apply sort_Sorted. intros a b. apply SFsub_gt_zero_antisym.
  - intros events q loc ty scored (mapped & _ & ->)%scoreAndRankEvents_Some.
    apply sort_Sorted. intros a b. apply SFsub_gt_zero_antisym.
Qed.

Lemma ranked_output_in_comparator_order_witness :
  exists scored,
    QueryRoute.scoreAndRankEvents
      [Sample.museumTour; Sample.tapasInstagram; Sample.hikingThenBar]
      "student tapas" "barcelona" None = Some scored
    /\ List.map FilteredEvent.base scored
       = [Sample.tapasInstagram; Sample.museumTour; Sample.hikingThenBar]
    /\ Sorted (inOrder QueryRoute.byCombinedScore) scored.
Proof.
  destruct (QueryRoute.scoreAndRankEvents
              [Sample.museumTour; Sample.tapasInstagram; Sample.hikingThenBar]
              "student tapas" "barcelona" None) as [scored|] eqn:E;
    [|vm_compute in E; discriminate E].
  exists scored. split; [reflexivity|]. split.
  - pose proof E as E'. vm_compute in E'. injection E' as <-. reflexivity.
  - exact (proj2 ranked_output_in_comparator_order _ _ _ _ _ E).
Defined.

(** ** The fall-back of the student-friendliness view and its order *)

Lemma Sorted_take {A} (R : A -> A -> Prop) (n : nat) (l : list A) :
  Sorted R l -> Sorted R (take n l).
Proof.
  intros H. revert n. induction H as [|x l Hl IH Hx]; intros [|n];
    [constructor|constructor|constructor|].
  cbn [take]. constructor; [apply IH|].
  destruct Hx as [|y l Hxy]; [destruct n; constructor|].
  destruct n; constructor. exact Hxy.
Qed.

Lemma slice0_Sorted {A} (R : A -> A -> Prop) (l : list A) (k : Z) :
  Sorted R l -> Sorted R (JsArray.slice0 l k).
Proof.
  intros H. unfold JsArray.slice0. destruct (k <? 0)%Z; by apply Sorted_take.
Qed.

Lemma scoreAndRankEvents_Sorted events q loc ty scored :
  QueryRoute.scoreAndRankEvents events q loc ty = Some scored ->
  Sorted (inOrder QueryRoute.byCombinedScore) scored.
Proof.
  intros (mapped & _ & ->)%scoreAndRankEvents_Some.
  apply sort_Sorted. intros a b. apply SFsub_gt_zero_antisym.
Qed.

(** C8: when the view [studentFriendlinessScore > 0.4] of a non-empty scored
    list is empty, the response carries the unfiltered list that
    [scoreAndRankEvents] returned, cut to [maxResults]; that list is in the
    order of the combined score [0.7 * relevance + 0.3 * studentFriendliness]
    (no object is directly followed by one that the comparator
    [bScore - aScore] puts before it), not in the order of the relevance
    alone.  For a positive [maxResults] the response is then not empty; more
    generally a non-empty flattened candidate list never gives an empty
    response (for a positive [maxResults]) when the pipeline returns. *)
Theorem student_view_falls_back_to_scored_list :
  (forall scored k,
      scored <> [] ->
      List.filter QueryRoute.isStudentFriendlyEnough scored = [] ->
      QueryRoute.limitResults scored k = JsArray.slice0 scored k
      /\ ((0 < k)%Z -> QueryRoute.limitResults scored k <> []))
  /\ (forall rs q loc ty k unique scored,
         QueryRoute.flattenResults rs <> [] ->
         QueryRoute.removeDuplicateEvents (QueryRoute.flattenResults rs)
         = Some unique ->
         QueryRoute.scoreAndRankEvents unique q loc ty = Some scored ->
         scored <> []
         /\ Sorted (inOrder QueryRoute.byCombinedScore) scored
         /\ (List.filter QueryRoute.isStudentFriendlyEnough scored = [] ->
             QueryRoute.rankEvents rs q loc ty k
             = Some (JsArray.slice0 scored k)
             /\ Sorted (inOrder QueryRoute.byCombinedScore)
                       (JsArray.slice0 scored k))
         /\ ((0 < k)%Z ->
             exists s out,
               QueryRoute.rankEvents rs q loc ty k = Some (s :: out))).
Proof.
  split.
  - intros scored k Hne Hnone. split; [by apply limitResults_fallback|].
    by apply limitResults_nonempty.
  - intros rs q loc ty k unique scored Hflat Hu Hsc.
    assert (Hscored : scored <> []).
    { destruct (QueryRoute.flattenResults rs) as [|e all]; [done|].
      apply filterUnseen_nonempty in Hu.
      apply scoreAndRankEvents_length in Hsc.
      destruct scored; [|done]. destruct unique; done. }
    assert (Hrank : QueryRoute.rankEvents rs q loc ty k
                    = Some (QueryRoute.limitResults scored k)).
    { unfold QueryRoute.rankEvents.
      destruct (QueryRoute.flattenResults rs) as [|e all]; [done|].
      cbn [length Nat.eqb]. rewrite Hu. cbn. rewrite Hsc. done. }
    pose proof (scoreAndRankEvents_Sorted _ _ _ _ _ Hsc) as Hsorted.
    split; [done|]. split; [exact Hsorted|]. split.
    + intros Hnone. split; [by rewrite Hrank, limitResults_fallback|].
      by apply slice0_Sorted.
    + intros Hk. rewrite Hrank.
      pose proof (limitResults_nonempty scored k Hscored Hk) as Hne.
      destruct (QueryRoute.limitResults scored k) as [|s out]; [done|].
      by exists s, out.
Qed.

Lemma student_view_falls_back_to_scored_list_witness :
  exists scored,
    QueryRoute.scoreAndRankEvents [Sample.museumTour; Sample.hikingThenBar]
                                  "museum tour" "barcelona" None
    = Some scored
    /\ List.filter QueryRoute.isStudentFriendlyEnough scored = []
    /\ QueryRoute.rankEvents [Sample.museumResult]
                             "museum tour" "barcelona" None 20
       = Some (JsArray.slice0 scored 20)
    /\ Sorted (inOrder QueryRoute.byCombinedScore) (JsArray.slice0 scored 20).
Proof.
  destruct (QueryRoute.scoreAndRankEvents
              [Sample.museumTour; Sample.hikingThenBar]
              "museum tour" "barcelona" None) as [scored|] eqn:E;
    [|vm_compute in E; discriminate E].
  exists scored. split; [reflexivity|].
  assert (Hnone : List.filter QueryRoute.isStudentFriendlyEnough scored = []).
  { pose proof E as E'. vm_compute in E'. injection E' as <-.
    vm_compute. reflexivity. }
  split; [exact Hnone|].
  destruct student_view_falls_back_to_scored_list as [_ H].
  destruct (H [Sample.museumResult] "museum tour" "barcelona" None 20%Z
              [Sample.museumTour; Sample.hikingThenBar] scored)
    as (_ & _ & Hfallback & _).
  - discriminate.
  - vm_compute. reflexivity.
  - exact E.
  - exact (Hfallback Hnone).
Defined.

(** The fall-back list is not sorted by relevance: for the query
    "tapas night crawl" neither candidate passes the view, and the response
    puts "Tapas night, free campus" (relevance 0.5667, student-friendliness
    0.4, combined 0.5167) before "Tapas night crawl" (relevance 0.7,
    student-friendliness 0, combined 0.49). *)
Lemma student_view_fallback_not_relevance_sorted :
  exists first second,
    QueryRoute.rankEvents [FallbackSample.result]
                          "tapas night crawl" "barcelona" None 20
    = Some [first; second]
    /\ FilteredEvent.base first = FallbackSample.tapasFreeCampus
    /\ FilteredEvent.base second = FallbackSample.tapasCrawl
    /\ QueryRoute.isStudentFriendlyEnough first = false
    /\ QueryRoute.isStudentFriendlyEnough second = false
    /\ (FilteredEvent.relevanceScore second
        >? FilteredEvent.relevanceScore first) = true
    /\ (QueryRoute.combinedScore first
        >? QueryRoute.combinedScore second) = true
    /\ ~ Sorted (inOrder FilterRoute.byRelevance) [first; second].
Proof.
  destruct (QueryRoute.rankEvents [FallbackSample.result]
              "tapas night crawl" "barcelona" None 20) as [out|] eqn:E;
    [|vm_compute in E; discriminate E].
  vm_compute in E. injection E as <-.
  eexists _, _. split; [reflexivity|].
  repeat (split; [vm_compute; reflexivity|]).
  intros H. inversion H as [|? ? _ Hhd]; subst.
  inversion Hhd as [|? ? Hrel]; subst.
  vm_compute in Hrel. discriminate Hrel.
Qed.

(** ** Size and fingerprints of the rank route's response *)

Lemma slice0_length {A} (l : list A) (k : Z) :
  length (JsArray.slice0 l k)
  = if (k <? 0)%Z then Z.to_nat (Z.of_nat (length l) + k)
    else Nat.min (Z.to_nat k) (length l).
Proof.
  unfold JsArray.slice0.
  destruct (Z.ltb_spec k 0); rewrite length_take; lia.
Qed.

(** The response of the rank route holds [min(maxResults, n)] objects, [n]
    the size of the student-friendly view when that view is not empty and of
    the whole scored list otherwise; a negative [maxResults] instead drops
    that many objects from the end.  So the pipeline never returns more than
    a non-negative [maxResults]. *)
Theorem rank_response_size :
  (forall scored k,
      let shown :=
        if (0 <? length (List.filter QueryRoute.isStudentFriendlyEnough
                                     scored))%nat
        then List.filter QueryRoute.isStudentFriendlyEnough scored
        else scored in
      length (QueryRoute.limitResults scored k)
      = if (k <? 0)%Z then Z.to_nat (Z.of_nat (length shown) + k)
        else Nat.min (Z.to_nat k) (length shown))
  /\ (forall rs q loc ty k out,
         (0 <= k)%Z ->
         QueryRoute.rankEvents rs q loc ty k = Some out ->
         (Z.of_nat (length out) <= k)%Z).
Proof.
  assert (Hsize : forall scored k,
             length (QueryRoute.limitResults scored k)
             = if (k <? 0)%Z
               then Z.to_nat
                      (Z.of_nat
                         (length
                            (if (0 <? length (List.filter
                                       QueryRoute.isStudentFriendlyEnough
                                       scored))%nat
                             then List.filter
                                    QueryRoute.isStudentFriendlyEnough scored
                             else scored)) + k)
               else Nat.min (Z.to_nat k)
                      (length
                         (if (0 <? length (List.filter
                                    QueryRoute.isStudentFriendlyEnough
                                    scored))%nat
                          then List.filter
                                 QueryRoute.isStudentFriendlyEnough scored
                          else scored))).
  { intros scored k. unfold QueryRoute.limitResults. apply slice0_length. }
  split; [exact Hsize|].
  intros rs q loc ty k out Hk
    [[_ ->]|(unique & scored & _ & _ & _ & ->)]%rankEvents_Some; [cbn; lia|].
  rewrite Hsize. destruct (Z.ltb_spec k 0); lia.
Qed.

Lemma rank_response_size_witness :
  exists out,
    QueryRoute.rankEvents [Sample.museumResult; Sample.instagramResult]
                          "museum tour" "barcelona" None 2 = Some out
    /\ (Z.of_nat (length out) <= 2)%Z.
Proof.
  destruct (QueryRoute.rankEvents [Sample.museumResult; Sample.instagramResult]
                                  "museum tour" "barcelona" None 2)
    as [out|] eqn:E; [|vm_compute in E; discriminate E].
  exists out. split; [reflexivity|].
  exact (proj2 rank_response_size _ _ _ _ 2%Z out ltac:(lia) E).
Defined.

Lemma map_sublist {A B} (f : A -> B) (l1 l2 : list A) :
  l1 `sublist_of` l2 -> List.map f l1 `sublist_of` List.map f l2.
Proof. induction 1; cbn; by constructor. Qed.

Lemma scoreEvent_Forall2_base q loc ty events mapped :
  Forall2 (fun event s => QueryRoute.scoreEvent q loc ty event = Some s)
          events mapped ->
  List.map FilteredEvent.base mapped = events.
Proof.
  induction 1 as [|event s events mapped Hs _ IH]; [done|].
  cbn. rewrite IH.
  by destruct (scoreEvent_Some _ _ _ _ _ Hs) as (r & _ & ->).
Qed.

(** The objects the rank route returns have pairwise different
    fingerprints: deduplication survives scoring, sorting, the
    student-friendliness view and the cut to [maxResults]. *)
Theorem rank_response_fingerprints_distinct rs q loc ty k out :
  QueryRoute.rankEvents rs q loc ty k = Some out ->
  NoDup (List.map (fun s => QueryRoute.eventKey (FilteredEvent.base s)) out)
  /\ Forall (fun s => is_Some (QueryRoute.eventKey (FilteredEvent.base s)))
            out.
Proof.
  intros [[_ ->]|(unique & scored & _ & Hu & Hsc & ->)]%rankEvents_Some.
  { split; constructor. }
  destruct (filterUnseen_fresh _ _ _ _ Hu) as (ks & Hks & Hnd & _).
  apply mapM_Some in Hks.
  assert (Hkeys : List.map QueryRoute.eventKey unique = List.map Some ks).
  { clear -Hks. induction Hks as [|e k' es ks' He _ IH]; [done|].
    cbn. by rewrite He, IH. }
  destruct (scoreAndRankEvents_Some _ _ _ _ _ Hsc) as (mapped & HF & ->).
  pose proof (scoreEvent_Forall2_base _ _ _ _ _ HF) as Hbase.
  assert (Hall : NoDup (List.map (fun s => QueryRoute.eventKey
                                             (FilteredEvent.base s))
                                 (JsArray.sort QueryRoute.byCombinedScore
                                               mapped))
                 /\ Forall (fun s => is_Some (QueryRoute.eventKey
                                                (FilteredEvent.base s)))
                           (JsArray.sort QueryRoute.byCombinedScore mapped)).
  { rewrite sort_perm.
    assert (Hmap : List.map (fun s => QueryRoute.eventKey
                                        (FilteredEvent.base s)) mapped
                   = List.map Some ks).
    { rewrite <- Hkeys, <- Hbase. by rewrite List.map_map. }
    split.
    - rewrite Hmap. clear -Hnd.
      induction Hnd as [|k' ks' Hk' _ IH]; cbn; constructor; [|done].
      intros (k'' & [= <-] & Hin)%list_elem_of_In%in_map_iff.
      by apply Hk', list_elem_of_In.
    - apply Forall_forall. intros s Hs.
      assert (Hin : QueryRoute.eventKey (FilteredEvent.base s)
                    ∈ List.map Some ks).
      { rewrite <- Hmap. apply list_elem_of_In.
        apply (in_map (fun s => QueryRoute.eventKey (FilteredEvent.base s))).
        by apply list_elem_of_In. }
      apply list_elem_of_In, in_map_iff in Hin as (k' & <- & _). by eexists. }
  destruct Hall as [Hnd' Hsome].
  pose proof (limitResults_sublist
                (JsArray.sort QueryRoute.byCombinedScore mapped) k) as Hsub.
  split.
  - eapply sublist_NoDup; [exact Hnd'|].
    by apply map_sublist.
  - apply Forall_forall. intros s Hs.
    eapply Forall_forall in Hsome; [exact Hsome|].
    by eapply sublist_elem_of.
Qed.

Lemma rank_response_fingerprints_distinct_witness :
  exists out,
    QueryRoute.rankEvents
      [Sample.instagramResult;
       {| ScrapingResult.success := true;
          ScrapingResult.events := [Sample.tapasReddit];
          ScrapingResult.error := None;
          ScrapingResult.platform := "reddit" |}]
      "tapas night" "barcelona" None 20 = Some out
    /\ length out = 2
    /\ NoDup (List.map (fun s => QueryRoute.eventKey (FilteredEvent.base s))
                       out).
Proof.
  destruct (QueryRoute.rankEvents _ "tapas night" "barcelona" None 20)
    as [out|] eqn:E; [|vm_compute in E; discriminate E].
  exists out. split; [reflexivity|]. split.
  - pose proof E as E'. vm_compute in E'. injection E' as <-. reflexivity.
  - exact (proj1 (rank_response_fingerprints_distinct _ _ _ _ _ _ E)).
Defined.

(** ** Keyword extraction *)

Lemma pushIf_fold text (triggers : list (string * string)) keywords :
  fold_left (fun ks p => pushIf text (fst p) (snd p) ks) triggers keywords
  = (keywords ++ triggeredTags triggers text)%list.
Proof.
  revert keywords. induction triggers as [|[w t] triggers IH];
    intros keywords; cbn.
  - by rewrite app_nil_r.
  - rewrite IH. unfold pushIf, triggeredTags. cbn.
    destruct (includes text w); cbn; [by rewrite <- app_assoc|done].
Qed.

Lemma triggeredTags_sublist triggers text :
  triggeredTags triggers text `sublist_of` List.map snd triggers.
Proof.
  unfold triggeredTags. apply map_sublist, filter_sublist.
Qed.

Lemma filterUnseen_Some_NoDup (l : list string) :
  NoDup l -> JsArray.filterUnseen Some ∅ l = Some l.
Proof.
  intros Hnd. apply (filterUnseen_fixed Some ∅ l l); [|done|].
  - clear. induction l as [|x l IH]; [done|]. cbn. by rewrite IH.
  - intros k _. apply not_elem_of_empty.
Qed.

Lemma triggeredTags_NoDup (text : string) :
  NoDup (triggeredTags keywordTriggers text).
Proof.
  eapply sublist_NoDup; [|apply triggeredTags_sublist].
  apply NoDup_ListNoDup. vm_compute.
  repeat (constructor; [cbn; intuition discriminate|]). constructor.
Qed.

Lemma extractKeywords_triggeredTags (event : RawEvent.t) :
  extractKeywordsFromEvent event
  = triggeredTags keywordTriggers (eventText event).
Proof.
  unfold extractKeywordsFromEvent.
  change (default [] (JsArray.filterUnseen Some ∅
            (fold_left (fun ks p => pushIf (eventText event) (fst p)
                                           (snd p) ks)
                       keywordTriggers []))
          = triggeredTags keywordTriggers (eventText event)).
  rewrite pushIf_fold. cbn [app].
  rewrite filterUnseen_Some_NoDup; [reflexivity|apply triggeredTags_NoDup].
Qed.

(** [extractKeywordsFromEvent] returns the tags whose trigger word occurs in
    the lower-cased title+description text, in the order of the source
    statements and without duplicates; so a tag is returned exactly when its
    trigger occurs ("dancing" for "dance", "food" for "eat"), and the final
    [Set] pass never removes anything. *)
Theorem extractKeywords_are_triggered_tags (event : RawEvent.t) :
  extractKeywordsFromEvent event
  = triggeredTags keywordTriggers (eventText event)
  /\ NoDup (extractKeywordsFromEvent event)
  /\ extractKeywordsFromEvent event `sublist_of` List.map snd keywordTriggers
  /\ forall tag,
      tag ∈ extractKeywordsFromEvent event
      <-> exists word, (word, tag) ∈ keywordTriggers
                       /\ includes (eventText event) word = true.
Proof.
  pose proof (triggeredTags_NoDup (eventText event)) as Hnd.
  pose proof (extractKeywords_triggeredTags event) as Heq.
  rewrite Heq. split; [done|]. split; [done|].
  split; [apply triggeredTags_sublist|].
  intros tag. unfold triggeredTags.
  rewrite list_elem_of_In, in_map_iff. split.
  - intros ([word tag'] & <- & [Hin Hinc]%filter_In).
    exists word. by rewrite list_elem_of_In.
  - intros (word & Hin & Hinc). exists (word, tag). split; [done|].
    apply filter_In. by rewrite <- list_elem_of_In.
Qed.

(** * Keyword-based query analysis *)

Lemma fallbackCategorization_refines_rules message :
  EventDetection.fallbackEventCategorization message
  = snd <$> List.find (Spec.ruleMatches (toLowerCase message))
                      Spec.categoryRules.
Proof.
  unfold EventDetection.fallbackEventCategorization, Spec.categoryRules.
  cbn [List.find]. rewrite !ruleMatches_3.
  repeat match goal with
         | |- context [if ?c then _ else _] => destruct c eqn:?
         end; reflexivity.
Qed.

(** The query categorizer and the event categorizer apply one ordered rule
    table: on the same lower-cased text they give the same category, with
    [null] from the first where the second gives ['general']. *)
Theorem query_and_event_categorizers_agree (message : string)
        (event : RawEvent.t) :
  toLowerCase message = eventText event ->
  categorizeEventByKeywords event
  = default "general" (EventDetection.fallbackEventCategorization message)
  /\ (EventDetection.fallbackEventCategorization message = None
      <-> List.find (Spec.ruleMatches (eventText event)) Spec.categoryRules
          = None).
Proof.
  intros Htext.
  rewrite categorize_refines_rules, fallbackCategorization_refines_rules.
  rewrite Htext. unfold Spec.firstMatchingCategory.
  destruct (List.find _ Spec.categoryRules) as [rule|]; cbn; by split.
Qed.

Lemma query_and_event_categorizers_agree_witness :
  EventDetection.fallbackEventCategorization "Bar crawl TONIGHT"
  = Some "nightlife"
  /\ categorizeEventByKeywords
       (Sample.event "1" "reddit" "Bar" "crawl tonight" "Madrid")
     = "nightlife".
Proof.
  destruct (query_and_event_categorizers_agree
              "Bar crawl TONIGHT"
              (Sample.event "1" "reddit" "Bar" "crawl tonight" "Madrid")
              eq_refl) as [H _].
  split; [reflexivity|]. rewrite H. reflexivity.
Defined.

Lemma triggeredTags_app l1 l2 text :
  triggeredTags (l1 ++ l2) text
  = (triggeredTags l1 text ++ triggeredTags l2 text)%list.
Proof. unfold triggeredTags. by rewrite List.filter_app, List.map_app. Qed.

Lemma fallbackKeywords_are_triggered_tags message :
  EventDetection.fallbackKeywordExtraction message
  = triggeredTags (take 15 keywordTriggers) (toLowerCase message).
Proof.
  unfold EventDetection.fallbackKeywordExtraction.
  change (fold_left (fun ks p => pushIf (toLowerCase message) (fst p)
                                        (snd p) ks)
                    (take 15 keywordTriggers) []
          = triggeredTags (take 15 keywordTriggers) (toLowerCase message)).
  by rewrite pushIf_fold.
Qed.

(** The keywords of a query are the first fifteen pushes of the event
    keyword extraction: on the same lower-cased text the event keywords are
    the query keywords followed by the audience tags ("student",
    "study abroad", "international") that occur. *)
Theorem event_keywords_extend_query_keywords (message : string)
        (event : RawEvent.t) :
  toLowerCase message = eventText event ->
  extractKeywordsFromEvent event
  = (EventDetection.fallbackKeywordExtraction message
       ++ triggeredTags (drop 15 keywordTriggers) (eventText event))%list
  /\ EventDetection.fallbackKeywordExtraction message
     `prefix_of` extractKeywordsFromEvent event.
Proof.
  intros Htext.
  pose proof (extractKeywords_triggeredTags event) as Heq.
  rewrite Heq, fallbackKeywords_are_triggered_tags, Htext.
  rewrite <- triggeredTags_app, take_drop.
  split; [done|].
  rewrite <- (take_drop 15 keywordTriggers) at 2.
  rewrite triggeredTags_app. by eexists.
Qed.

Lemma event_keywords_extend_query_keywords_witness :
  EventDetection.fallbackKeywordExtraction "Student bar tonight"
  = ["bar"; "tonight"]
  /\ extractKeywordsFromEvent
       (Sample.event "1" "reddit" "Student" "bar tonight" "Madrid")
     = ["bar"; "tonight"; "student"].
Proof.
  destruct (event_keywords_extend_query_keywords
              "Student bar tonight"
              (Sample.event "1" "reddit" "Student" "bar tonight" "Madrid")
              eq_refl) as [H _].
  split; [reflexivity|]. rewrite H. reflexivity.
Defined.

(** Whenever the keyword extraction finds an event-type tag (party, concert,
    workshop, meetup, bar, club, restaurant, tour) in a message, the
    keyword-based detection classifies the message as an event query. *)
Theorem event_type_keyword_implies_detection (message tag : string) :
  tag ∈ EventDetection.eventTypeTags ->
  tag ∈ EventDetection.fallbackKeywordExtraction message ->
  EventDetection.fallbackEventDetection message = true.
Proof.
  intros Htag Hin.
  rewrite fallbackKeywords_are_triggered_tags in Hin.
  unfold triggeredTags in Hin.
  apply list_elem_of_In, in_map_iff in Hin
    as ([word tag'] & Heq & [Hmem Hinc]%filter_In).
  cbn in Heq, Hinc. subst tag'.
  unfold EventDetection.fallbackEventDetection.
  apply existsb_exists. exists word. split; [|exact Hinc].
  apply list_elem_of_In in Htag.
  cbn in Htag, Hmem.
  repeat (destruct Htag as [<-|Htag]);
    try (by destruct Htag);
    repeat (destruct Hmem as [Hmem|Hmem]);
    try (by destruct Hmem); try discriminate Hmem;
    injection Hmem as <-; cbn; tauto.
Qed.

Lemma event_type_keyword_implies_detection_witness :
  EventDetection.fallbackEventDetection "Any CLUB open late?" = true.
Proof.
  apply (event_type_keyword_implies_detection _ "club").
  - vm_compute. repeat (first [left; reflexivity | right]).
  - vm_compute. left.
Defined.

(** The confidence of a query analysis lies in [[0.0, 1.0]] and never reaches
    [1.0]: with all four signals present the rounded sum
    [0.4 + 0.3 + 0.2 + 0.1] is [0.9999999999999999]. *)
Theorem query_confidence_below_one (isEvent : bool)
        (location eventType : option string) (keywords : list string) :
  let confidence :=
    EventDetection.queryConfidence isEvent location eventType keywords in
  Number.inUnit confidence = true
  /\ (Number.c1_0 >? confidence) = true
  /\ (isEvent = true -> truthyParam location = true ->
      truthyParam eventType = true -> keywords <> [] ->
      confidence = S754_finite false 9007199254740991 (-53)).
Proof.
  unfold EventDetection.queryConfidence.
  assert (Hk : keywords <> [] -> (0 <? length keywords)%nat = true)
    by (by destruct keywords).
  destruct isEvent, (truthyParam location), (truthyParam eventType),
    (0 <? length keywords)%nat; cbn zeta;
    (split; [reflexivity|split; [reflexivity|]]);
    intros H1 H2 H3 H4; try discriminate; try (by specialize (Hk H4)).
Qed.

Lemma query_confidence_below_one_witness :
  EventDetection.queryConfidence true (Some "Paris") (Some "nightlife")
                                 ["bar"]
  = S754_finite false 9007199254740991 (-53).
Proof.
  apply (query_confidence_below_one true (Some "Paris") (Some "nightlife")
                                    ["bar"]); done.
Defined.

(** * The scrape route's ranking *)

Section EventScore.

Local Open Scope Z_scope.

Lemma score_chain_integer (b1 b2 b3 b4 b5 b6 b7 b8 b9 b10 b11 : bool) :
  bump b11 (Number.ofZ 3)
    (bump b10 (Number.ofZ 5)
       (bump b9 (Number.ofZ 5)
          (bump b8 (Number.ofZ 2)
             (bump b7 (Number.ofZ 1)
                (bump b6 (Number.ofZ 2)
                   (bump b5 (Number.ofZ 3)
                      (bump b4 (Number.ofZ 7)
                         (bump b3 (Number.ofZ 8)
                            (bump b2 (Number.ofZ 5)
                               (bump b1 (Number.ofZ 10) Number.zero))))))))))
  = Number.ofZ ((if b1 then 10 else 0) + (if b2 then 5 else 0)
                + (if b3 then 8 else 0) + (if b4 then 7 else 0)
                + (if b5 then 3 else 0) + (if b6 then 2 else 0)
                + (if b7 then 1 else 0) + (if b8 then 2 else 0)
                + (if b9 then 5 else 0) + (if b10 then 5 else 0)
                + (if b11 then 3 else 0)).
Proof.
  destruct b1, b2, b3, b4, b5, b6, b7, b8, b9, b10, b11;
    vm_compute; reflexivity.
Qed.

Lemma points_range e : 0 <= ScrapeRank.points e <= 51.
Proof.
  unfold ScrapeRank.points.
  repeat match goal with
         | |- context [if ?c then _ else _] => destruct c
         end;
    destruct (ScrapeRank.tags e) as [[|? ?]|]; lia.
Qed.

Lemma calculateEventScore_points e s :
  ScrapeRank.calculateEventScore e = Some s ->
  s = Number.ofZ (ScrapeRank.points e).
Proof.
  unfold ScrapeRank.calculateEventScore, ScrapeRank.points.
  destruct (ScrapeRank.descriptionMentions _ "student") as [b9|]; [|done].
  destruct (ScrapeRank.descriptionMentions _ "study abroad") as [b10|];
    [|done].
  destruct (ScrapeRank.descriptionMentions _ "international") as [b11|];
    [|done].
  cbn. intros [= <-]. rewrite score_chain_integer.
  by destruct (ScrapeRank.tags e) as [[|? ?]|].
Qed.

Lemma calculateEventScore_is_Some e :
  stringOrAbsent (RawEvent.description (ScrapeRank.core e)) = true ->
  is_Some (ScrapeRank.calculateEventScore e).
Proof.
  unfold ScrapeRank.calculateEventScore.
  destruct (RawEvent.description (ScrapeRank.core e)); cbn; try done;
    by eexists.
Qed.

Lemma calculateEventScore_None e :
  ScrapeRank.calculateEventScore e = None
  <-> stringOrAbsent (RawEvent.description (ScrapeRank.core e)) = false.
Proof.
  split.
  - intros Hnone.
    destruct (stringOrAbsent _) eqn:E; [|done].
    destruct (calculateEventScore_is_Some e E) as [s Hs]. congruence.
  - unfold ScrapeRank.calculateEventScore.
    by destruct (RawEvent.description (ScrapeRank.core e)).
Qed.

End EventScore.

(** [calculateEventScore] returns an integer between 0 and 51, exactly the
    sum of the points of the fields present (no rounding); it raises exactly
    when the description is a boolean. *)
Theorem calculateEventScore_integer_range (e : ScrapeRank.event) :
  (forall s, ScrapeRank.calculateEventScore e = Some s ->
             s = Number.ofZ (ScrapeRank.points e))
  /\ (0 <= ScrapeRank.points e <= 51)%Z
  /\ (ScrapeRank.calculateEventScore e = None
      <-> stringOrAbsent (RawEvent.description (ScrapeRank.core e)) = false).
Proof.
  split; [apply calculateEventScore_points|].
  split; [apply points_range|apply calculateEventScore_None].
Qed.

Lemma calculateEventScore_integer_range_witness :
  ScrapeRank.calculateEventScore
    (ScrapeSample.full "Welcome party" "for international student groups")
  = Some (Number.ofZ 36)
  /\ ScrapeRank.calculateEventScore (ScrapeSample.bare "Quiz") =
     Some (Number.ofZ 10).
Proof.
  split.
  - destruct (ScrapeRank.calculateEventScore
                (ScrapeSample.full "Welcome party"
                                   "for international student groups"))
      as [s|] eqn:E; [|vm_compute in E; discriminate E].
    rewrite (proj1 (calculateEventScore_integer_range _) _ E).
    vm_compute. reflexivity.
  - destruct (ScrapeRank.calculateEventScore (ScrapeSample.bare "Quiz"))
      as [s|] eqn:E; [|vm_compute in E; discriminate E].
    rewrite (proj1 (calculateEventScore_integer_range _) _ E).
    vm_compute. reflexivity.
Defined.

Section SortByKey.
Context {A : Type} (comparefn : A -> A -> option Number.t) (key : A -> Z)
        (P : A -> Prop).
Hypothesis comparefn_key :
  forall x y, P x -> P y ->
    exists c, comparefn x y = Some c
              /\ (c >? Number.zero) = (key x <? key y)%Z.

Let descending (a b : A) : Prop := (key b <= key a)%Z.

Lemma insertSortedM_descending x l :
  P x -> Forall P l -> StronglySorted descending l ->
  exists l', ScrapeRank.insertSortedM comparefn x l = Some l'
             /\ l' ≡ₚ x :: l /\ StronglySorted descending l'.
Proof.
  intros Hx HP Hsorted. induction Hsorted as [|y r Hr IH Hy]; cbn.
  - exists [x]. repeat split; [done|]. repeat constructor.
  - apply Forall_cons in HP as [HPy HPr].
    destruct (comparefn_key x y Hx HPy) as (c & -> & Hc). cbn. rewrite Hc.
    destruct (Z.ltb_spec (key x) (key y)) as [Hlt|Hge].
    + destruct (IH HPr) as (l' & -> & Hperm & Hl'). cbn.
      exists (y :: l'). split; [done|]. split.
      * rewrite Hperm. apply perm_swap.
      * constructor; [done|]. rewrite Hperm.
        constructor; [unfold descending; lia|done].
    + exists (x :: y :: r). split; [done|]. split; [done|].
      constructor; [by constructor|].
      constructor; [done|].
      eapply Forall_impl; [exact Hy|]. unfold descending. cbn. lia.
Qed.

Lemma sortM_descending l :
  Forall P l ->
  exists l', ScrapeRank.sortM comparefn l = Some l'
             /\ l' ≡ₚ l /\ StronglySorted descending l'.
Proof.
  unfold ScrapeRank.sortM.
  induction 1 as [|x l Hx HP IH]; cbn [foldr].
  - exists []. repeat split; [done|]. constructor.
  - destruct IH as (l' & -> & Hperm & Hl'). cbn.
    destruct (insertSortedM_descending x l' Hx) as (l'' & -> & Hperm' & Hl'');
      [by rewrite Hperm|done|].
    exists l''. split; [done|]. split; [|done]. by rewrite Hperm', Hperm.
Qed.

Lemma take_descending n l :
  StronglySorted descending l -> StronglySorted descending (take n l).
Proof.
  intros Hl. revert n. induction Hl as [|x l Hl IH Hx]; intros [|n]; cbn;
    try constructor; [done|].
  apply Forall_forall. intros y Hy.
  eapply Forall_forall in Hx; [exact Hx|].
  eapply sublist_elem_of; [apply sublist_take|exact Hy].
Qed.

End SortByKey.

Lemma integer_score_difference_sign (pa pb : Z) :
  (0 <= pa <= 51)%Z -> (0 <= pb <= 51)%Z ->
  (Number.ofZ pb - Number.ofZ pa >? Number.zero) = (pa <? pb)%Z.
Proof.
  intros Ha Hb.
  assert (Hall : forallb (fun a =>
                   forallb (fun b =>
                     Bool.eqb (Number.ofZ (Z.of_nat b) - Number.ofZ (Z.of_nat a)
                               >? Number.zero)
                              (Z.of_nat a <? Z.of_nat b)%Z)
                           (seq 0 52)) (seq 0 52) = true)
    by (vm_compute; reflexivity).
  rewrite forallb_forall in Hall.
  specialize (Hall (Z.to_nat pa)). rewrite forallb_forall in Hall.
  specialize (Hall ltac:(apply in_seq; lia) (Z.to_nat pb)
                   ltac:(apply in_seq; lia)).
  rewrite !Z2Nat.id in Hall by lia. by apply Bool.eqb_prop in Hall.
Qed.

Lemma byEventScore_key x y :
  stringOrAbsent (RawEvent.description (ScrapeRank.core x)) = true ->
  stringOrAbsent (RawEvent.description (ScrapeRank.core y)) = true ->
  exists c, ScrapeRank.byEventScore x y = Some c
            /\ (c >? Number.zero)
               = (ScrapeRank.points x <? ScrapeRank.points y)%Z.
Proof.
  intros Hx Hy. unfold ScrapeRank.byEventScore.
  destruct (calculateEventScore_is_Some x Hx) as [sx Hsx].
  destruct (calculateEventScore_is_Some y Hy) as [sy Hsy].
  rewrite Hsx, Hsy. cbn. eexists. split; [done|].
  rewrite (calculateEventScore_points _ _ Hsx),
    (calculateEventScore_points _ _ Hsy).
  apply integer_score_difference_sign; apply points_range.
Qed.

(** On candidates whose title, location and description are strings or
    absent, the scrape route returns at most 20 events, each one of the
    candidates, with pairwise different fingerprints, in the order of
    non-increasing [calculateEventScore]. *)
Theorem scrape_top_events (allEvents : list ScrapeRank.event) :
  Forall (fun e => ScrapeRank.typed e = true) allEvents ->
  exists out,
    ScrapeRank.topEvents allEvents = Some out
    /\ length out <= 20
    /\ (forall e, e ∈ out -> e ∈ allEvents)
    /\ NoDup (List.map ScrapeRank.eventKey out)
    /\ StronglySorted
         (fun a b => (ScrapeRank.points b <= ScrapeRank.points a)%Z) out.
Proof.
  intros Htyped. unfold ScrapeRank.topEvents.
  assert (Hkeys : is_Some (mapM ScrapeRank.eventKey allEvents)).
  { apply mapM_is_Some_Forall. eapply Forall_impl; [exact Htyped|].
    intros e [Hw _]%andb_prop. by apply scrape_eventKey_is_Some. }
  destruct Hkeys as [ks Hks].
  destruct (filterUnseen_is_Some ScrapeRank.eventKey ∅ _ _ Hks)
    as [unique Hu].
  unfold ScrapeRank.removeDuplicateEvents. rewrite Hu. cbn.
  pose proof (filterUnseen_sublist _ _ _ _ Hu) as Hsub.
  destruct (filterUnseen_fresh _ _ _ _ Hu) as (ks' & Hks' & Hnd & _).
  destruct (sortM_descending ScrapeRank.byEventScore ScrapeRank.points
              (fun e => stringOrAbsent (RawEvent.description
                                          (ScrapeRank.core e)) = true)
              byEventScore_key unique) as (sorted & -> & Hperm & Hsorted).
  { apply Forall_forall. intros e He.
    eapply Forall_forall in Htyped; [|by eapply sublist_elem_of].
    by apply andb_prop in Htyped as [_ ?]. }
  cbn. exists (JsArray.slice0 sorted 20). split; [done|].
  change (JsArray.slice0 sorted 20) with (take 20 sorted).
  split; [rewrite length_take; lia|]. split; [|split].
  - intros e He. eapply sublist_elem_of; [exact Hsub|].
    rewrite <- Hperm. eapply sublist_elem_of; [apply sublist_take|done].
  - eapply sublist_NoDup; [|apply map_sublist, sublist_take].
    assert (Hmap : List.map ScrapeRank.eventKey sorted
                   ≡ₚ List.map Some ks').
    { rewrite Hperm. apply mapM_Some in Hks'. clear -Hks'.
      induction Hks' as [|e k es ks He _ IH]; [done|].
      cbn. by rewrite He, IH. }
    rewrite Hmap. clear -Hnd.
    induction Hnd as [|k' ks' Hk' _ IH]; cbn; constructor; [|done].
    intros (k'' & [= <-] & Hin)%list_elem_of_In%in_map_iff.
    by apply Hk', list_elem_of_In.
  - by apply take_descending.
Qed.

Lemma scrape_top_events_witness :
  ScrapeRank.topEvents
    [ScrapeSample.bare "Quiz";
     ScrapeSample.full "Welcome party" "for international student groups";
     ScrapeSample.bare "quiz!"]
  = Some [ScrapeSample.full "Welcome party"
                            "for international student groups";
          ScrapeSample.bare "Quiz"].
Proof.
  destruct (scrape_top_events
              [ScrapeSample.bare "Quiz";
               ScrapeSample.full "Welcome party"
                                 "for international student groups";
               ScrapeSample.bare "quiz!"])
    as (out & Hout & _).
  - repeat constructor.
  - rewrite Hout. vm_compute in Hout. symmetry. exact Hout.
Defined.

(** * The mock data service *)

Lemma mock_score_NaN_without_tokens p q loc :
  queryWords (toLowerCase q) = [] ->
  MockData.calculateRelevanceScore p q loc = Number.NaN.
Proof.
  intros Hq. unfold MockData.calculateRelevanceScore. rewrite Hq.
  cbn [matchingWords List.filter length].
  change (Number.zero + Number.ofNat 0 / Number.ofNat 0 * Number.ofZ 3)
    with Number.NaN.
  destruct (MockData.hashtags p) as [tags|];
    destruct (truthyParam (toLowerCase <$> loc));
    destruct (truthyParam (MockData.activity_type p));
    destruct (MockData.engagement_score p) as [engagement|];
    cbn; by rewrite ?bump_NaN.
Qed.

(** For a query without a token longer than two characters the mock search
    finds no post, whatever the post table holds (every score is [NaN] and
    [NaN > 1] is false), and [getMockScrapingResults] returns no platform
    result. *)
Theorem mock_search_empty_without_tokens posts q loc :
  queryWords (toLowerCase q) = [] ->
  MockData.searchMockPosts posts q loc = []
  /\ MockData.getMockScrapingResults posts q loc = Some [].
Proof.
  intros Hq.
  assert (Hsearch : MockData.searchMockPosts posts q loc = []).
  { unfold MockData.searchMockPosts.
    replace (List.filter _ posts) with (@nil MockData.post); [done|].
    symmetry. induction posts as [|p posts IH]; [done|]. cbn.
    by rewrite (mock_score_NaN_without_tokens _ _ _ Hq). }
  split; [done|].
  unfold MockData.getMockScrapingResults. by rewrite Hsearch.
Qed.

Lemma mock_search_empty_without_tokens_witness :
  MockData.searchMockPosts [MockSample.tapas; MockSample.hike] "go"
                           (Some "barcelona") = [].
Proof.
  apply (mock_search_empty_without_tokens
           [MockSample.tapas; MockSample.hike] "go" (Some "barcelona")).
  reflexivity.
Defined.

(** The mock search returns exactly the posts of the table whose score is
    above 1, each as often as the table holds it, in the order of its
    comparator (no post is followed by one with
    [scoreB - scoreA > 0]). *)
Theorem mock_search_results posts q loc :
  (forall p, p ∈ MockData.searchMockPosts posts q loc
             <-> p ∈ posts
                 /\ (MockData.calculateRelevanceScore p q loc
                     >? Number.ofZ 1) = true)
  /\ MockData.searchMockPosts posts q loc
     ≡ₚ List.filter (fun p => MockData.calculateRelevanceScore p q loc
                              >? Number.ofZ 1) posts
  /\ Sorted (inOrder (MockData.byScore q loc))
            (MockData.searchMockPosts posts q loc).
Proof.
  unfold MockData.searchMockPosts. split; [|split].
  - intros p. rewrite sort_elem_of, list_elem_of_In, filter_In.
    by rewrite <- list_elem_of_In.
  - apply sort_perm.
  - apply sort_Sorted. intros a b. apply SFsub_gt_zero_antisym.
Qed.

Section Titles.

Lemma trimStart_length s :
  String.length (MockData.trimStart s) <= String.length s.
Proof.
  induction s as [|c r IH]; cbn; [done|]. destruct (isWhiteSpace c); cbn; lia.
Qed.

Lemma trimEnd_length s :
  String.length (MockData.trimEnd s) <= String.length s.
Proof.
  induction s as [|c r IH]; cbn; [done|].
  destruct (isWhiteSpace c && _); cbn; lia.
Qed.

Lemma trim_length s : String.length (MockData.trim s) <= String.length s.
Proof.
  unfold MockData.trim.
  etransitivity; [apply trimEnd_length|apply trimStart_length].
Qed.

Lemma substring_0_length n s :
  String.length (String.substring 0 n s) <= n.
Proof.
  revert s. induction n as [|n IH]; intros [|c r]; cbn; try lia.
  specialize (IH r). lia.
Qed.

Lemma append_length (s t : string) :
  String.length (s ++ t)%string = (String.length s + String.length t)%nat.
Proof. induction s as [|c r IH]; simpl; [done|]. by f_equal. Qed.

Lemma firstPiece_length s :
  String.length (MockData.firstPiece s) <= String.length s.
Proof.
  induction s as [|c r IH]; cbn; [done|].
  destruct (MockData.isSentenceEnd c); cbn; lia.
Qed.

End Titles.

(** The title made from a post's content is at most 99 characters long; a
    content of at most ten characters is its own title, and a content of
    more than 50 characters whose first sentence is too short or too long is
    cut to 50 characters followed by "...". *)
Theorem extractTitleFromContent_bounds (content : string) :
  String.length (MockData.extractTitleFromContent content) <= 99
  /\ (String.length content <= 10 ->
      MockData.extractTitleFromContent content = content)
  /\ (50 < String.length content ->
      (String.length (MockData.firstPiece content) <= 10
       \/ 100 <= String.length (MockData.firstPiece content)) ->
      MockData.extractTitleFromContent content
      = (String.substring 0 50 content ++ "...")%string).
Proof.
  unfold MockData.extractTitleFromContent.
  pose proof (firstPiece_length content) as Hfp.
  pose proof (trim_length (MockData.firstPiece content)) as Htrim.
  pose proof (substring_0_length 50 content) as Hsub.
  destruct (negb (String.eqb (MockData.firstPiece content) "") &&
            (10 <? String.length (MockData.firstPiece content))%nat &&
            (String.length (MockData.firstPiece content) <? 100)%nat) eqn:E.
  - apply andb_prop in E as [[_ H10]%andb_prop H100].
    apply Nat.ltb_lt in H10, H100.
    split; [lia|]. split; intros; lia.
  - destruct (Nat.ltb_spec 50 (String.length content)) as [H50|H50].
    + split; [rewrite append_length; cbn; lia|]. split; [lia|done].
    + split; [lia|]. split; [done|lia].
Qed.

Lemma extractTitleFromContent_bounds_witness :
  MockData.extractTitleFromContent "Pub quiz" = "Pub quiz".
Proof.
  apply (extractTitleFromContent_bounds "Pub quiz"). cbn. lia.
Defined.

(** ** Grouping by platform *)

Section Grouping.

Implicit Types (groups : list (string * list MockData.post))
         (p : MockData.post).

(** A group is not empty and holds posts of its own platform. *)
Let groupOk (g : string * list MockData.post) : Prop :=
  snd g <> [] /\ Forall (fun p => MockData.platform p = fst g) (snd g).

Lemma hasOwn_elem_of (key : string) groups :
  MockData.hasOwn key groups = true <-> key ∈ List.map fst groups.
Proof.
  unfold MockData.hasOwn. rewrite existsb_exists, list_elem_of_In, in_map_iff.
  split.
  - intros (g & Hg & Heq). apply String.eqb_eq in Heq. by exists g.
  - intros (g & <- & Hg). exists g. split; [done|]. apply String.eqb_refl.
Qed.

Lemma pushTo_keys (key : string) p groups :
  List.map fst (MockData.pushTo key p groups)
  = if MockData.hasOwn key groups then List.map fst groups
    else (List.map fst groups ++ [key])%list.
Proof.
  induction groups as [|[k xs] rest IH]; [done|].
  cbn. destruct (String.eqb k key) eqn:E; cbn; [done|].
  rewrite IH. unfold MockData.hasOwn. by destruct (existsb _ rest).
Qed.

Lemma pushTo_concat (key : string) p groups :
  concat (List.map snd (MockData.pushTo key p groups))
  ≡ₚ p :: concat (List.map snd groups).
Proof.
  induction groups as [|[k xs] rest IH]; [done|].
  cbn. destruct (String.eqb k key); cbn.
  - rewrite <- app_assoc. cbn. symmetry. apply Permutation_middle.
  - rewrite IH. symmetry. apply Permutation_middle.
Qed.

Lemma pushTo_groupOk p groups :
  Forall groupOk groups ->
  Forall groupOk (MockData.pushTo (MockData.platform p) p groups).
Proof.
  induction 1 as [|[k xs] rest [Hne Hxs] Hrest IH]; cbn.
  - constructor; [|constructor]. split; cbn; [done|].
    constructor; [done|constructor].
  - cbn in Hne, Hxs.
    destruct (String.eqb_spec k (MockData.platform p)) as [Heq|_].
    + constructor; [|exact Hrest]. split; cbn.
      * by destruct xs.
      * apply Forall_app. split; [done|]. constructor; [done|constructor].
    + constructor; [by split|exact IH].
Qed.

Lemma groupPosts_invariant groups posts groups' :
  MockData.groupPosts groups posts = Some groups' ->
  NoDup (List.map fst groups) -> Forall groupOk groups ->
  NoDup (List.map fst groups') /\ Forall groupOk groups'
  /\ concat (List.map snd groups')
     ≡ₚ (concat (List.map snd groups) ++ posts)%list.
Proof.
  revert groups. induction posts as [|p posts IH]; intros groups H Hnd Hok.
  - injection H as <-. by rewrite app_nil_r.
  - cbn in H. unfold MockData.groupStep in H.
    destruct (negb _ && _); [done|]. cbn in H.
    destruct (IH _ H) as (Hnd' & Hok' & Hperm).
    + rewrite pushTo_keys.
      destruct (MockData.hasOwn (MockData.platform p) groups) eqn:E; [done|].
      apply NoDup_app. split; [done|]. split; [|apply NoDup_singleton].
      intros k Hk ->%list_elem_of_singleton.
      apply hasOwn_elem_of in Hk. congruence.
    + by apply pushTo_groupOk.
    + split; [done|]. split; [done|].
      rewrite Hperm, pushTo_concat. cbn. apply Permutation_middle.
Qed.

Lemma groupPosts_is_Some groups posts :
  Forall (fun g => existsb (String.eqb (fst g)) MockData.objectPrototypeKeys
                   = false) groups ->
  is_Some (MockData.groupPosts groups posts)
  <-> Forall (fun p => existsb (String.eqb (MockData.platform p))
                               MockData.objectPrototypeKeys = false) posts.
Proof.
  revert groups. induction posts as [|p posts IH]; intros groups Hown.
  - split; [by constructor|by eexists].
  - cbn -[existsb]. unfold MockData.groupStep.
    destruct (existsb (String.eqb (MockData.platform p))
                      MockData.objectPrototypeKeys) eqn:E.
    + assert (Hno : MockData.hasOwn (MockData.platform p) groups = false).
      { destruct (MockData.hasOwn _ groups) eqn:Ho; [|done].
        apply hasOwn_elem_of, list_elem_of_In, in_map_iff in Ho
          as (g & Hg & Hin).
        apply list_elem_of_In in Hin.
        pose proof (proj1 (Forall_forall _ _) Hown g Hin) as Hg'.
        cbv beta in Hg'. rewrite Hg in Hg'. congruence. }
      rewrite Hno. cbn -[existsb]. split; [by intros [? ?]|].
      intros HF. apply Forall_cons in HF as [HF _]. congruence.
    + rewrite andb_false_r. cbn -[existsb]. rewrite IH.
      * split; [by constructor|]. by intros [_ ?]%Forall_cons.
      * apply Forall_forall. intros g Hg.
        apply list_elem_of_In in Hg.
        assert (Hk : fst g ∈ List.map fst (MockData.pushTo
                                             (MockData.platform p) p groups))
          by (by apply list_elem_of_In, in_map).
        rewrite pushTo_keys in Hk.
        assert (Hcases : fst g ∈ List.map fst groups
                         \/ fst g = MockData.platform p).
        { destruct (MockData.hasOwn _ groups); [by left|].
          apply elem_of_app in Hk as [Hk|Hk]; [by left|].
          apply list_elem_of_singleton in Hk. by right. }
        destruct Hcases as [Hin|Heq]; [|by rewrite Heq].
        apply list_elem_of_In, in_map_iff in Hin as (g' & <- & Hg').
        eapply Forall_forall in Hown; [exact Hown|by apply list_elem_of_In].
Qed.

Lemma insertByIndex_perm {A} (i : N) (g : string * A) sorted :
  MockData.insertByIndex i g sorted ≡ₚ (i, g) :: sorted.
Proof.
  induction sorted as [|[j h] rest IH]; [done|]. cbn.
  destruct (i <? j)%N; [done|]. rewrite IH. apply perm_swap.
Qed.

Lemma entries_perm {A} (groups : list (string * A)) :
  MockData.entries groups ≡ₚ groups.
Proof.
  unfold MockData.entries.
  induction groups as [|g groups IH]; [done|]. cbn.
  destruct (MockData.arrayIndex (fst g)) as [i|] eqn:E; cbn.
  - rewrite insertByIndex_perm. cbn. by rewrite IH.
  - rewrite <- Permutation_middle. by rewrite IH.
Qed.

End Grouping.

Lemma convert_platform p :
  RawEvent.platform (MockData.convertMockPostToRawEvent p)
  = VString (MockData.platform p).
Proof. reflexivity. Qed.

(** [getMockScrapingResults] returns one successful result per platform of
    the posts found, each non-empty and holding the converted posts of that
    platform only; flattening the results gives back the converted posts
    found (as a permutation).  It raises exactly when a post found has a
    platform named like a property of [Object.prototype]. *)
Theorem mock_results_group_by_platform posts q loc :
  (is_Some (MockData.getMockScrapingResults posts q loc)
   <-> Forall (fun p => existsb (String.eqb (MockData.platform p))
                                MockData.objectPrototypeKeys = false)
              (MockData.searchMockPosts posts q loc))
  /\ forall results,
      MockData.getMockScrapingResults posts q loc = Some results ->
      Forall (fun r =>
                ScrapingResult.success r = true
                /\ ScrapingResult.events r <> []
                /\ Forall (fun e => RawEvent.platform e
                                    = VString (ScrapingResult.platform r))
                          (ScrapingResult.events r)) results
      /\ NoDup (List.map ScrapingResult.platform results)
      /\ QueryRoute.flattenResults results
         ≡ₚ List.map MockData.convertMockPostToRawEvent
                     (MockData.searchMockPosts posts q loc).
Proof.
  unfold MockData.getMockScrapingResults.
  set (found := MockData.searchMockPosts posts q loc).
  split.
  - rewrite <- (groupPosts_is_Some [] found) by constructor.
    destruct (MockData.groupPosts [] found); cbn.
    + split; intros _; by eexists.
    + split; intros [? Hx]; discriminate Hx.
  - intros results H.
    destruct (MockData.groupPosts [] found) as [groups|] eqn:G; [|done].
    cbn in H. injection H as <-.
    destruct (groupPosts_invariant _ _ _ G) as (Hnd & Hok & Hperm);
      [constructor|constructor|].
    cbn in Hperm.
    pose proof (entries_perm groups) as He.
    split; [|split].
    + apply Forall_forall. intros r Hr.
      apply list_elem_of_In, in_map_iff in Hr as (g & <- & Hg).
      apply list_elem_of_In in Hg. rewrite He in Hg.
      eapply Forall_forall in Hok; [|exact Hg].
      destruct Hok as [Hne Hplat]. cbn. split; [done|]. split.
      * by destruct (snd g).
      * apply Forall_forall. intros e Hin.
        apply list_elem_of_In, in_map_iff in Hin as (p & <- & Hp).
        apply list_elem_of_In in Hp.
        eapply Forall_forall in Hplat; [|exact Hp].
        by rewrite convert_platform, Hplat.
    + rewrite List.map_map. cbn.
      change (fun x : string * list MockData.post => fst x)
        with (@fst string (list MockData.post)).
      by rewrite He.
    + unfold QueryRoute.flattenResults.
      assert (Hall : forall gs : list (string * list MockData.post),
                 flat_map ScrapingResult.events
                   (List.filter ScrapingResult.success
                      (List.map MockData.toScrapingResult gs))
                 = List.map MockData.convertMockPostToRawEvent
                            (concat (List.map snd gs))).
      { induction gs as [|g gs IH]; [done|]. cbn.
        by rewrite IH, List.map_app. }
      rewrite Hall. apply Permutation_map.
      rewrite <- Hperm. by rewrite He.
Qed.

Lemma mock_results_group_by_platform_witness :
  exists results,
    MockData.getMockScrapingResults
      [MockSample.quiz; MockSample.hike; MockSample.tapas]
      "tapas night" (Some "barcelona") = Some results
    /\ List.map ScrapingResult.platform results = ["instagram"; "reddit"]
    /\ NoDup (List.map ScrapingResult.platform results).
Proof.
  destruct (MockData.getMockScrapingResults
              [MockSample.quiz; MockSample.hike; MockSample.tapas]
              "tapas night" (Some "barcelona")) as [results|] eqn:E;
    [|vm_compute in E; discriminate E].
  exists results. split; [reflexivity|]. split.
  - pose proof E as E'. vm_compute in E'. injection E' as <-. reflexivity.
  - exact (proj1 (proj2 (proj2 (mock_results_group_by_platform _ _ _)
                               results E))).
Defined.

(** ** When the rank route answers *)



Lemma query_scoreEvent_is_Some q loc ty event :
  wellTyped event = true ->
  is_Some (QueryRoute.scoreEvent q loc ty event).
Proof.
  unfold wellTyped, QueryRoute.scoreEvent, QueryRoute.calculateRelevanceScore.
  intros [_ Hl]%andb_prop.
  destruct (RawEvent.location event) as [| |b|s]; cbn in *; try done;
    try (by eexists).
  destruct (negb (String.eqb s "")); cbn; by eexists.
Qed.

Lemma rankEvents_typed_is_Some rs q loc ty k :
  Forall (fun event => wellTyped event = true)
         (QueryRoute.flattenResults rs) ->
  is_Some (QueryRoute.rankEvents rs q loc ty k).
Proof.
  intros Htyped. unfold QueryRoute.rankEvents.
  destruct (QueryRoute.flattenResults rs) as [|e all] eqn:E;
    [by eexists|].
  cbn [length Nat.eqb].
  destruct (mapM_is_Some_Forall QueryRoute.eventKey (e :: all))
    as [ks Hks].
  { eapply Forall_impl; [exact Htyped|]. apply query_eventKey_is_Some. }
  destruct (filterUnseen_is_Some QueryRoute.eventKey ∅ _ _ Hks)
    as [unique Hu].
  unfold QueryRoute.removeDuplicateEvents. rewrite Hu. cbn.
  unfold QueryRoute.scoreAndRankEvents.
  destruct (mapM_is_Some_Forall (QueryRoute.scoreEvent q loc ty) unique)
    as [mapped ->]; [|by eexists].
  apply Forall_forall. intros x Hx. apply query_scoreEvent_is_Some.
  eapply Forall_forall in Htyped; [exact Htyped|].
  eapply sublist_elem_of; [|exact Hx]. by eapply filterUnseen_sublist.
Qed.

Lemma mock_results_are_converted posts q loc results :
  MockData.getMockScrapingResults posts q loc = Some results ->
  Forall (fun e => exists p, e = MockData.convertMockPostToRawEvent p)
         (QueryRoute.flattenResults results).
Proof.
  unfold MockData.getMockScrapingResults. intros H.
  destruct (MockData.groupPosts [] (MockData.searchMockPosts posts q loc))
    as [groups|]; [|done].
  cbn in H. injection H as <-. unfold QueryRoute.flattenResults.
  induction (MockData.entries groups) as [|g gs IH]; [constructor|].
  cbn. apply Forall_app. split; [|exact IH].
  apply Forall_forall. intros e He.
  apply list_elem_of_In, in_map_iff in He as (p & <- & _). by exists p.
Qed.



(** The rank route answers for every result list that
    [getMockScrapingResults] returns: converted posts have string titles and
    locations. *)
Theorem rank_route_answers_on_mock_results posts q loc results q' loc' ty k :
  MockData.getMockScrapingResults posts q loc = Some results ->
  is_Some (QueryRoute.rankEvents results q' loc' ty k).
Proof.
  intros H. apply rankEvents_typed_is_Some.
  eapply Forall_impl; [exact (mock_results_are_converted _ _ _ _ H)|].
  by intros e (p & ->).
Qed.

Lemma rank_route_answers_on_mock_results_witness :
  exists results out,
    MockData.getMockScrapingResults
      [MockSample.quiz; MockSample.hike; MockSample.tapas]
      "tapas night" (Some "barcelona") = Some results
    /\ QueryRoute.rankEvents results "tapas night" "barcelona" None 20
       = Some out.
Proof.
  destruct (MockData.getMockScrapingResults
              [MockSample.quiz; MockSample.hike; MockSample.tapas]
              "tapas night" (Some "barcelona")) as [results|] eqn:E;
    [|vm_compute in E; discriminate E].
  destruct (rank_route_answers_on_mock_results
              _ _ _ results "tapas night" "barcelona" None 20%Z E)
    as [out Hout].
  exists results, out. split; [reflexivity|exact Hout].
Defined.

(** ** Substrings *)

Section Substrings.

Lemma string_app_cons (x : ascii) (a b : string) :
  String x a ++ b = String x (a ++ b).
Proof. reflexivity. Qed.

Lemma string_app_assoc (a b c : string) : (a ++ b) ++ c = a ++ (b ++ c).
Proof.
  induction a as [|x a IH]; [reflexivity|].
  by rewrite !string_app_cons, IH.
Qed.

Lemma string_app_nil_r (a : string) : a ++ "" = a.
Proof.
  induction a as [|x a IH]; [reflexivity|].
  by rewrite string_app_cons, IH.
Qed.

Lemma prefix_app (p s : string) :
  String.prefix p s = true <-> exists rest, s = p ++ rest.
Proof.
  revert s. induction p as [|a p IH]; intros s.
  - split; [intros _; exists s; reflexivity|].
    intros _. destruct s; reflexivity.
  - destruct s as [|b s]; cbn [String.prefix].
    + split; [discriminate|]. intros [rest Hrest].
      rewrite string_app_cons in Hrest. discriminate Hrest.
    + destruct (Ascii.ascii_dec a b) as [->|Hne].
      * rewrite IH. split; intros [rest Hrest]; exists rest.
        -- rewrite string_app_cons. by f_equal.
        -- rewrite string_app_cons in Hrest. by injection Hrest.
      * split; [discriminate|]. intros [rest Hrest].
        rewrite string_app_cons in Hrest. congruence.
Qed.

Lemma includes_spec (hay needle : string) :
  includes hay needle = true <-> exists pre post, hay = pre ++ needle ++ post.
Proof.
  induction hay as [|c hay IH]; cbn [includes].
  - rewrite orb_false_r, prefix_app. split.
    + intros [rest ->]. exists "", rest. reflexivity.
    + intros (pre & post & H). destruct pre as [|c pre].
      * exists post. exact H.
      * rewrite string_app_cons in H. discriminate H.
  - rewrite orb_true_iff, prefix_app, IH. split.
    + intros [[rest ->]|(pre & post & ->)].
      * exists "", rest. reflexivity.
      * exists (String c pre), post. reflexivity.
    + intros (pre & post & H). destruct pre as [|c' pre].
      * left. exists post. exact H.
      * right. rewrite string_app_cons in H. injection H as _ ->.
        by exists pre, post.
Qed.

Lemma includes_trans (a b c : string) :
  includes a b = true -> includes b c = true -> includes a c = true.
Proof.
  rewrite !includes_spec. intros (p1 & q1 & ->) (p2 & q2 & ->).
  exists (p1 ++ p2), (q2 ++ q1). by rewrite !string_app_assoc.
Qed.

Lemma includes_empty (hay : string) : includes hay "" = true.
Proof. destruct hay; reflexivity. Qed.

Lemma toLowerCase_app (a b : string) :
  toLowerCase (a ++ b) = toLowerCase a ++ toLowerCase b.
Proof.
  induction a as [|x a IH]; [reflexivity|].
  rewrite string_app_cons. cbn [toLowerCase].
  by rewrite string_app_cons, IH.
Qed.

Lemma dropPrefix_Some (p s rest : string) :
  EventFilter.dropPrefix p s = Some rest <-> s = p ++ rest.
Proof.
  revert s. induction p as [|a p IH]; intros s; cbn [EventFilter.dropPrefix].
  - change ("" ++ rest) with rest. split; congruence.
  - rewrite string_app_cons. destruct s as [|b s]; [split; discriminate|].
    destruct (Ascii.eqb_spec a b) as [->|Hne].
    + rewrite IH. split; congruence.
    + split; [discriminate|congruence].
Qed.

End Substrings.

(** ** The whole-word test of the fall-back filter *)

Lemma wordHere_spec (s : string) :
  existsb (EventFilter.wordHere s) EventFilter.eventWords = true <->
  exists word post, s = word ++ post /\ word ∈ EventFilter.eventWords /\
                    EventFilter.startsNonWord post = true.
Proof.
  rewrite existsb_exists. split.
  - intros (word & Hin & Hw). unfold EventFilter.wordHere in Hw.
    destruct (EventFilter.dropPrefix word s) as [rest|] eqn:E;
      [|discriminate Hw].
    apply dropPrefix_Some in E. exists word, rest.
    rewrite list_elem_of_In. auto.
  - intros (word & post & -> & Hin & Hpost). exists word.
    rewrite <- list_elem_of_In. split; [exact Hin|].
    unfold EventFilter.wordHere.
    by rewrite (proj2 (dropPrefix_Some word (word ++ post) post) eq_refl).
Qed.

Lemma testGo_spec (prevIsWord : bool) (s : string) :
  EventFilter.testGo prevIsWord s = true <->
  exists pre word post,
    s = pre ++ word ++ post /\ word ∈ EventFilter.eventWords /\
    EventFilter.lastIsWord prevIsWord pre = false /\
    EventFilter.startsNonWord post = true.
Proof.
  revert prevIsWord. induction s as [|c s IH]; intros prevIsWord.
  - cbn [EventFilter.testGo].
    rewrite orb_false_r, andb_true_iff, wordHere_spec, negb_true_iff. split.
    + intros (Hp & word & post & H & Hin & Hpost).
      exists "", word, post. auto.
    + intros (pre & word & post & H & Hin & Hl & Hpost).
      destruct pre as [|c pre];
        [|rewrite string_app_cons in H; discriminate H].
      split; [exact Hl|]. exists word, post. auto.
  - cbn [EventFilter.testGo].
    rewrite orb_true_iff, andb_true_iff, wordHere_spec, IH, negb_true_iff.
    split.
    + intros [(Hp & word & post & H & Hin & Hpost)
             |(pre & word & post & -> & Hin & Hl & Hpost)].
      * exists "", word, post. auto.
      * exists (String c pre), word, post. auto.
    + intros (pre & word & post & H & Hin & Hl & Hpost).
      destruct pre as [|c' pre].
      * left. split; [exact Hl|]. exists word, post. auto.
      * right. rewrite string_app_cons in H. injection H as <- ->.
        exists pre, word, post. auto.
Qed.

Lemma allChars_app (P : ascii -> bool) (a b : string) :
  Apify.allChars P (a ++ b) = Apify.allChars P a && Apify.allChars P b.
Proof.
  induction a as [|x a IH]; [reflexivity|].
  rewrite string_app_cons. cbn [Apify.allChars]. by rewrite IH, andb_assoc.
Qed.

Lemma lastIsWord_word (c : ascii) (pre : string) (prevIsWord : bool) :
  Apify.allChars EventFilter.isWordChar (String c pre) = true ->
  EventFilter.lastIsWord prevIsWord (String c pre) = true.
Proof.
  revert c prevIsWord. induction pre as [|d pre IH]; intros c p H.
  - cbn in *. by apply andb_prop in H as [-> _].
  - change (EventFilter.lastIsWord (EventFilter.isWordChar c) (String d pre)
            = true).
    apply IH. cbn in H. by apply andb_prop in H as [_ H].
Qed.

Lemma hasEventWord_spec (text : string) :
  EventFilter.hasEventWord text = true <->
  exists pre word post,
    text = pre ++ word ++ post /\ word ∈ EventFilter.eventWords /\
    EventFilter.endsNonWord pre = true /\
    EventFilter.startsNonWord post = true.
Proof.
  unfold EventFilter.hasEventWord, EventFilter.endsNonWord.
  rewrite testGo_spec. by setoid_rewrite negb_true_iff.
Qed.

Lemma hasEventWord_includes (text : string) :
  EventFilter.hasEventWord text = true ->
  exists word, word ∈ EventFilter.eventWords /\ includes text word = true.
Proof.
  rewrite hasEventWord_spec.
  intros (pre & word & post & -> & Hin & _). exists word. split; [done|].
  apply includes_spec. by exists pre, post.
Qed.

(** The regular expression [/\b(event|party|meetup|bar|club|activity)\b/]
    accepts a text exactly when one of the six words occurs in it as a
    whole word: the text is [pre ++ word ++ post] where [pre] is empty or
    ends outside [\w] and [post] is empty or starts outside [\w].  A word
    inside a longer one (bars, clubbing, eventually) does not count: a text
    made of word characters only is accepted only if it is one of the six
    words.  Every accepted text includes its word as a substring. *)
Theorem hasEventWord_is_whole_word (text : string) :
  (EventFilter.hasEventWord text = true <->
   exists pre word post,
     text = pre ++ word ++ post /\ word ∈ EventFilter.eventWords /\
     EventFilter.endsNonWord pre = true /\
     EventFilter.startsNonWord post = true)
  /\ (EventFilter.hasEventWord text = true ->
      exists word, word ∈ EventFilter.eventWords /\
                   includes text word = true)
  /\ (Apify.allChars EventFilter.isWordChar text = true ->
      EventFilter.hasEventWord text = true ->
      text ∈ EventFilter.eventWords).
Proof.
  split; [|split].
  - apply hasEventWord_spec.
  - apply hasEventWord_includes.
  - unfold EventFilter.hasEventWord. rewrite testGo_spec.
    intros Hall (pre & word & post & -> & Hin & Hpre & Hpost).
    rewrite !allChars_app in Hall.
    apply andb_prop in Hall as [Hp [_ Hq]%andb_prop].
    destruct pre as [|c pre].
    + destruct post as [|c post]; [by rewrite string_app_nil_r|].
      cbn in Hq, Hpost. apply andb_prop in Hq as [Hc _].
      by rewrite Hc in Hpost.
    + by rewrite (lastIsWord_word _ _ false Hp) in Hpre.
Qed.
Lemma hasEventWord_is_whole_word_witness :
  EventFilter.hasEventWord "student party!" = true
  /\ (exists word, word ∈ EventFilter.eventWords /\
                   includes "student party!" word = true)
  /\ EventFilter.hasEventWord "bars" = false.
Proof.
  split; [reflexivity|]. split.
  - apply (proj1 (proj2 (hasEventWord_is_whole_word "student party!"))).
    reflexivity.
  - destruct (EventFilter.hasEventWord "bars") eqn:E; [|reflexivity].
    apply (proj2 (proj2 (hasEventWord_is_whole_word "bars")) eq_refl) in E.
    unfold EventFilter.eventWords in E.
    repeat (apply elem_of_cons in E as [E|E]; [discriminate E|]).
    by apply elem_of_nil in E.
Defined.

(** ** Validation of the model's answer *)

Section Clamp.

Lemma clamp_cases (x : Number.t) :
  EventFilter.clamp x = Number.NaN /\ x = Number.NaN
  \/ EventFilter.clamp x = Number.zero
  \/ EventFilter.clamp x = EventFilter.c10
  \/ EventFilter.clamp x = x /\ SFcompare EventFilter.c10 x = Some Gt /\
     Number.positiveFinite x = true.
Proof.
  destruct x as [s|s| |s m e].
  - right; left. by destruct s.
  - destruct s; [right; left; reflexivity|right; right; left; reflexivity].
  - left. by split.
  - destruct s; [right; left; reflexivity|].
    unfold EventFilter.clamp.
    change (EventFilter.mathMax EventFilter.c0 (S754_finite false m e))
      with (S754_finite false m e).
    unfold Number.min.
    destruct (SFcompare EventFilter.c10 (S754_finite false m e))
      as [[]|] eqn:E.
    + right; right; left. reflexivity.
    + right; right; left. reflexivity.
    + right; right; right. by repeat split.
    + discriminate E.
Qed.

Lemma compare_Gt_le (m1 m2 : positive) (e1 e2 : Z) :
  SFcompare (S754_finite false m1 e1) (S754_finite false m2 e2) = Some Gt ->
  Number.le (S754_finite false m2 e2) (S754_finite false m1 e1) = true.
Proof.
  unfold Number.le, SFleb. cbn [SFcompare].
  rewrite (Z.compare_antisym e1 e2).
  destruct (e1 ?= e2)%Z eqn:E; cbn [CompOpp]; try done.
  intros [= H]. pose proof (Pos.compare_cont_antisym m1 m2 Eq) as A.
  rewrite H in A. cbn [CompOpp] in A. by rewrite <- A.
Qed.

(** A clamped number is [NaN] (only for a [NaN] argument) or lies in
    [[0, 10]]. *)
Lemma clamp_range (x : Number.t) :
  EventFilter.clamp x = Number.NaN /\ x = Number.NaN
  \/ Number.le Number.zero (EventFilter.clamp x) = true /\
     Number.le (EventFilter.clamp x) EventFilter.c10 = true.
Proof.
  destruct (clamp_cases x) as [H|[->|[->|(-> & Hc & Hp)]]];
    [by left|by right|by right|right].
  destruct x as [| | |[] m e]; try discriminate Hp. split; [reflexivity|].
  by apply compare_Gt_le.
Qed.

Lemma clamp_idempotent (x : Number.t) :
  EventFilter.clamp (EventFilter.clamp x) = EventFilter.clamp x.
Proof.
  destruct (clamp_cases x) as [[-> _]|[->|[->|(Hx & _)]]];
    try reflexivity.
  by rewrite !Hx.
Qed.

(** A number at or above a positive bound [c <= 10] stays so. *)
Lemma clamp_ge (x c : Number.t) :
  Number.positiveFinite c = true ->
  EventFilter.ge EventFilter.c10 c = true ->
  EventFilter.ge x c = true ->
  EventFilter.ge (EventFilter.clamp x) c = true.
Proof.
  intros Hc H10 Hx.
  destruct c as [| | |[] mc ec]; try discriminate Hc.
  destruct x as [[]|[]| |[] m e]; try discriminate Hx; [exact H10|].
  unfold EventFilter.clamp.
  change (EventFilter.mathMax EventFilter.c0 (S754_finite false m e))
    with (S754_finite false m e).
  unfold Number.min.
  destruct (SFcompare EventFilter.c10 (S754_finite false m e))
    as [[]|] eqn:E; [exact H10|exact H10|exact Hx|discriminate E].
Qed.

End Clamp.

Lemma clean_valid (e : EventFilter.event) :
  EventFilter.isValid e = true ->
  EventFilter.isValid (EventFilter.clean e) = true.
Proof.
  unfold EventFilter.isValid. cbn.
  intros [[[Hr Hc]%andb_prop Ht]%andb_prop Hd]%andb_prop.
  rewrite Ht, Hd, !andb_true_r. apply andb_true_intro. split.
  - by apply clamp_ge.
  - by apply clamp_ge.
Qed.

Lemma clean_idempotent (e : EventFilter.event) :
  EventFilter.clean (EventFilter.clean e) = EventFilter.clean e.
Proof. unfold EventFilter.clean. cbn. by rewrite !clamp_idempotent. Qed.

(** The validation of the array parsed from the model's answer
    ([filterEventsByRelevance], lines 75-91): every event that remains has a
    relevance score in [[6, 10]], a confidence in [[5, 10]], a
    student-friendliness score that is [NaN] (the answer had none) or in
    [[0, 10]], and a non-empty title and description; nothing is added, and
    validating a validated array changes nothing. *)
Theorem validateAndClean_ranges (filteredEvents : list EventFilter.event) :
  let out := EventFilter.validateAndClean filteredEvents in
  Forall (fun e =>
            EventFilter.ge (EventFilter.relevanceScore e) EventFilter.c6 = true
            /\ Number.le (EventFilter.relevanceScore e) EventFilter.c10 = true
            /\ EventFilter.ge (EventFilter.confidence e) EventFilter.c5 = true
            /\ Number.le (EventFilter.confidence e) EventFilter.c10 = true
            /\ (EventFilter.studentFriendlinessScore e = Number.NaN
                \/ Number.le Number.zero (EventFilter.studentFriendlinessScore e)
                   = true
                   /\ Number.le (EventFilter.studentFriendlinessScore e)
                                EventFilter.c10 = true)
            /\ truthy (EventFilter.title e) = true
            /\ truthy (EventFilter.description e) = true) out
  /\ (length out <= length filteredEvents)%nat
  /\ EventFilter.validateAndClean out = out.
Proof.
  cbn zeta. unfold EventFilter.validateAndClean. split; [|split].
  - apply List.Forall_forall. intros e (e0 & <- & [_ Hv]%filter_In)%in_map_iff.
    pose proof (clean_valid _ Hv) as Hv'.
    unfold EventFilter.isValid in Hv, Hv'.
    apply andb_prop in Hv' as [[[Hr Hc]%andb_prop Ht]%andb_prop Hd].
    apply andb_prop in Hv as [[[Hr0 Hc0]%andb_prop _]%andb_prop _].
    repeat split; try assumption.
    + cbn. destruct (clamp_range (EventFilter.relevanceScore e0))
        as [[_ E]|[_ H]]; [|exact H].
      rewrite E in Hr0. discriminate Hr0.
    + cbn. destruct (clamp_range (EventFilter.confidence e0))
        as [[_ E]|[_ H]]; [|exact H].
      rewrite E in Hc0. discriminate Hc0.
    + cbn. destruct (clamp_range (EventFilter.studentFriendlinessScore e0))
        as [[E _]|H]; [by left|by right].
  - rewrite length_map. apply List.filter_length_le.
  - induction filteredEvents as [|e l IH]; [reflexivity|].
    cbn [List.filter]. destruct (EventFilter.isValid e) eqn:Hv; [|exact IH].
    cbn [List.map List.filter]. rewrite (clean_valid _ Hv).
    cbn [List.map]. by rewrite clean_idempotent, IH.
Qed.

(** ** The fall-back filter *)

Lemma orElse_truthy (v : jsval) (s : string) :
  String.eqb s "" = false -> truthy (orElse v (VString s)) = true.
Proof.
  intros Hs. unfold orElse. destruct (truthy v) eqn:Hv; [exact Hv|].
  cbn. by rewrite Hs.
Qed.

Lemma toFiltered_valid (location : string) (e : RawEvent.t) :
  EventFilter.isValid (EventFilter.toFiltered location e) = true
  /\ EventFilter.clean (EventFilter.toFiltered location e)
     = EventFilter.toFiltered location e.
Proof.
  split; [|reflexivity].
  unfold EventFilter.isValid, EventFilter.toFiltered.
  cbn [EventFilter.relevanceScore EventFilter.confidence EventFilter.title
       EventFilter.description].
  by rewrite !orElse_truthy.
Qed.

Lemma validateAndClean_fixed (l : list EventFilter.event) :
  Forall (fun f => EventFilter.isValid f = true /\ EventFilter.clean f = f) l ->
  EventFilter.validateAndClean l = l.
Proof.
  unfold EventFilter.validateAndClean.
  induction 1 as [|f l [Hv Hc] _ IH]; [reflexivity|].
  cbn [List.filter]. rewrite Hv. cbn [List.map]. by rewrite Hc, IH.
Qed.

(** What [fallbackEventFiltering] returns: at most ten objects, made in
    order from candidates of the input whose lower-cased title and
    description hold one of the six event words as a whole word; each
    carries the fixed scores 7, 7 and 6, the type [general] and a non-empty
    title and description, so the validation applied to a model answer
    accepts the array unchanged. *)
Theorem fallbackEventFiltering_output (events : list RawEvent.t)
        (query location : string) :
  let out := EventFilter.fallbackEventFiltering events query location in
  (length out <= 10)%nat
  /\ (exists kept, kept `sublist_of` events /\
                   out = List.map (EventFilter.toFiltered location) kept /\
                   Forall (fun e => EventFilter.hasEventWord (EventFilter.text e)
                                    = true) kept)
  /\ Forall (fun f =>
               EventFilter.relevanceScore f = EventFilter.c7
               /\ EventFilter.studentFriendlinessScore f = EventFilter.c7
               /\ EventFilter.confidence f = EventFilter.c6
               /\ EventFilter.isStudentFriendly f = true
               /\ EventFilter.eventType f = "general"
               /\ truthy (EventFilter.title f) = true
               /\ truthy (EventFilter.description f) = true) out
  /\ EventFilter.validateAndClean out = out.
Proof.
  cbn zeta. unfold EventFilter.fallbackEventFiltering, JsArray.slice0.
  change (10 <? 0)%Z with false. cbn iota.
  change (Z.to_nat 10) with 10%nat.
  set (kept := List.filter (EventFilter.keeps query location) events).
  rewrite firstn_map.
  split; [|split; [|split]].
  - rewrite length_map, length_take. lia.
  - exists (take 10 kept). split; [|split; [reflexivity|]].
    + etransitivity; [apply sublist_take|apply filter_sublist].
    + apply List.Forall_forall. intros e He.
      assert (e ∈ kept) as Hk.
      { eapply sublist_elem_of; [apply sublist_take|].
        by apply list_elem_of_In. }
      apply list_elem_of_In, filter_In in Hk as [_ Hk].
      unfold EventFilter.keeps in Hk. by apply andb_prop in Hk as [Hk _].
  - apply List.Forall_forall. intros f (e & <- & _)%in_map_iff.
    destruct (toFiltered_valid location e) as [Hv _].
    unfold EventFilter.isValid in Hv.
    apply andb_prop in Hv as [[_ Ht]%andb_prop Hd].
    by repeat split.
  - apply validateAndClean_fixed, List.Forall_forall.
    intros f (e & <- & _)%in_map_iff. apply toFiltered_valid.
Qed.

(** With the empty string as location the location test of the fall-back
    filter always succeeds ([text.includes('')] is true), so the query is
    not consulted: the result is made from the first ten candidates that
    hold an event word, whatever the query says. *)
Theorem fallbackEventFiltering_empty_location (events : list RawEvent.t)
        (query : string) :
  EventFilter.fallbackEventFiltering events query ""
  = List.map (EventFilter.toFiltered "")
             (take 10 (List.filter
                         (fun e => EventFilter.hasEventWord (EventFilter.text e))
                         events)).
Proof.
  unfold EventFilter.fallbackEventFiltering, JsArray.slice0.
  change (10 <? 0)%Z with false. cbn iota.
  change (Z.to_nat 10) with 10%nat.
  rewrite firstn_map. do 2 f_equal.
  apply filter_ext. intros e. unfold EventFilter.keeps.
  change (toLowerCase "") with "".
  by rewrite includes_empty, orb_true_r, andb_true_r.
Qed.

(** A query word of three characters or fewer (bar, pub, art) never selects
    a candidate in the fall-back filter: for a query made of such words the
    filter keeps exactly what the location test keeps. *)
Theorem fallbackEventFiltering_short_query_words (events : list RawEvent.t)
        (query location : string) :
  Forall (fun word => (String.length word <= 3)%nat)
         (EventFilter.splitSpace (toLowerCase query)) ->
  EventFilter.fallbackEventFiltering events query location
  = EventFilter.fallbackEventFiltering events "" location.
Proof.
  intros Hshort. unfold EventFilter.fallbackEventFiltering. do 2 f_equal.
  apply filter_ext. intros e. unfold EventFilter.keeps. f_equal. f_equal.
  unfold EventFilter.hasQueryKeywords.
  change (EventFilter.splitSpace (toLowerCase "")) with [""].
  transitivity false; [|reflexivity].
  apply not_true_is_false. intros (word & Hin & Hw)%existsb_exists.
  rewrite List.Forall_forall in Hshort. specialize (Hshort word Hin).
  apply andb_prop in Hw as [Hlen%Nat.ltb_lt _]. lia.
Qed.

Lemma fallbackEventFiltering_short_query_words_witness :
  EventFilter.fallbackEventFiltering
    [Sample.studentBarNight; Sample.museumTour] "bar pub" "madrid"
  = EventFilter.fallbackEventFiltering
      [Sample.studentBarNight; Sample.museumTour] "" "madrid".
Proof.
  apply fallbackEventFiltering_short_query_words.
  vm_compute. repeat constructor.
Defined.









(** ** Event discovery triggers *)

Lemma existsb_includes_In (text word : string) (l : list string) :
  In word l -> includes text word = true ->
  existsb (fun w => includes text w) l = true.
Proof. intros Hin Hinc. apply existsb_exists. by exists word. Qed.

(** [shouldTriggerEventDiscovery]: six of the 25 triggers (events, meetups,
    bars, clubs, restaurants, recommendation) contain another trigger and
    never decide, so the test is the one over the 19 others; a message that
    contains a triggering message triggers as well; and every candidate the
    fall-back filter keeps has a title and description that trigger. *)
Theorem shouldTriggerEventDiscovery_triggers :
  (forall message,
      EventPipeline.shouldTriggerEventDiscovery message
      = existsb (fun trigger => includes (toLowerCase message) trigger)
                EventPipeline.coreTriggers)
  /\ (forall message pre post,
         EventPipeline.shouldTriggerEventDiscovery message = true ->
         EventPipeline.shouldTriggerEventDiscovery (pre ++ message ++ post)
         = true)
  /\ (forall query location e,
         EventFilter.keeps query location e = true ->
         EventPipeline.shouldTriggerEventDiscovery
           (toStr (RawEvent.title e) ++ " " ++ toStr (RawEvent.description e))
         = true).
Proof.
  split; [|split].
  - intros message. unfold EventPipeline.shouldTriggerEventDiscovery.
    set (text := toLowerCase message).
    apply eq_true_iff_eq. rewrite (existsb_exists _ EventPipeline.eventTriggers).
    split.
    + intros (t & Hin & Hinc).
      assert (forallb (fun t => existsb (fun c => includes t c)
                                        EventPipeline.coreTriggers)
                      EventPipeline.eventTriggers = true) as Hcore
        by reflexivity.
      rewrite forallb_forall in Hcore.
      apply Hcore, existsb_exists in Hin as (c & Hc & Htc).
      apply (existsb_includes_In _ c); [exact Hc|].
      by apply (includes_trans _ t).
    + intros (c & Hin & Hinc)%existsb_exists. exists c. split; [|exact Hinc].
      assert (forallb (fun c => existsb (String.eqb c)
                                        EventPipeline.eventTriggers)
                      EventPipeline.coreTriggers = true) as Hsub
        by reflexivity.
      rewrite forallb_forall in Hsub.
      apply Hsub, existsb_exists in Hin as (t & Ht & ->%String.eqb_eq).
      exact Ht.
  - intros message pre post.
    unfold EventPipeline.shouldTriggerEventDiscovery.
    intros (t & Hin & Hinc)%existsb_exists.
    apply (existsb_includes_In _ t); [exact Hin|].
    apply (includes_trans _ (toLowerCase message)); [|exact Hinc].
    rewrite !toLowerCase_app. apply includes_spec. by eexists _, _.
  - intros query location e [Hw _]%andb_prop.
    apply hasEventWord_includes in Hw as (word & Hin & Hinc).
    unfold EventPipeline.shouldTriggerEventDiscovery.
    apply (existsb_includes_In _ word); [|exact Hinc].
    unfold EventFilter.eventWords in Hin.
    repeat (apply elem_of_cons in Hin as [->|Hin]; [cbn; tauto|]).
    by apply elem_of_nil in Hin.
Qed.

Lemma shouldTriggerEventDiscovery_triggers_witness :
  EventPipeline.shouldTriggerEventDiscovery
    ("Hi! " ++ "Any BARS open?" ++ " Thanks") = true.
Proof.
  apply (proj1 (proj2 shouldTriggerEventDiscovery_triggers)).
  reflexivity.
Defined.

(** ** Hashtags *)

Lemma Forall_sublist {A} (P : A -> Prop) (l1 l2 : list A) :
  Forall P l2 -> l1 `sublist_of` l2 -> Forall P l1.
Proof.
  rewrite !Forall_forall. intros H Hsub x Hx.
  apply H. by apply (sublist_elem_of l1).
Qed.

Section Hashtags.

Let tagOrSpace (c : ascii) : bool := Apify.isTagChar c || isWhiteSpace c.

Lemma lowered_word_char (c : ascii) :
  implb (EventFilter.isWordChar (toLowerCaseChar c) ||
         isWhiteSpace (toLowerCaseChar c))
        (tagOrSpace (toLowerCaseChar c)) = true.
Proof. destruct c as [[] [] [] [] [] [] [] []]; reflexivity. Qed.

Lemma stripSpecial_chars (s : string) :
  Apify.allChars tagOrSpace (Apify.stripSpecial (toLowerCase s)) = true.
Proof.
  induction s as [|c s IH]; [reflexivity|].
  cbn [toLowerCase Apify.stripSpecial].
  pose proof (lowered_word_char c) as Hc.
  destruct (EventFilter.isWordChar (toLowerCaseChar c) ||
            isWhiteSpace (toLowerCaseChar c)); [|exact IH].
  cbn [Apify.allChars]. cbn [implb] in Hc. by rewrite Hc, IH.
Qed.

Lemma splitGo_tagChars (inSep : bool) (cur s : string) :
  Apify.allChars Apify.isTagChar cur = true ->
  Apify.allChars tagOrSpace s = true ->
  Forall (fun w => Apify.allChars Apify.isTagChar w = true)
         (splitGo inSep cur s).
Proof.
  revert inSep cur. induction s as [|c s IH]; intros inSep cur Hcur Hs.
  - by repeat constructor.
  - cbn [splitGo]. cbn [Apify.allChars] in Hs.
    apply andb_prop in Hs as [Hc Hs]. unfold tagOrSpace in Hc.
    destruct (isWhiteSpace c).
    + destruct inSep; [by apply IH|]. constructor; [exact Hcur|].
      by apply IH.
    + apply IH; [|exact Hs]. rewrite allChars_app, Hcur.
      rewrite orb_false_r in Hc. cbn. by rewrite Hc.
Qed.

Lemma words_tagChars (s : string) :
  Forall (fun w => Apify.allChars Apify.isTagChar w = true) (Apify.words s).
Proof. apply splitGo_tagChars; [reflexivity|apply stripSpecial_chars]. Qed.

Lemma isTag_app (a b : string) :
  Apify.isTag a -> Apify.allChars Apify.isTagChar b = true -> Apify.isTag (a ++ b).
Proof.
  intros [Hlen Ha] Hb. split.
  - rewrite append_length. lia.
  - by rewrite allChars_app, Ha, Hb.
Qed.

Lemma join_tagChars (l : list string) :
  Forall Apify.isTag l -> Apify.allChars Apify.isTagChar (Apify.join l) = true.
Proof.
  induction 1 as [|t l [_ Ht] _ IH]; [reflexivity|].
  cbn [Apify.join foldr]. by rewrite allChars_app, Ht.
Qed.

Lemma join_isTag (l : list string) :
  l <> [] -> Forall Apify.isTag l -> Apify.isTag (Apify.join l).
Proof.
  intros Hne Hl. destruct Hl as [|t l Ht Hl]; [done|].
  cbn [Apify.join foldr]. apply isTag_app; [exact Ht|].
  by apply join_tagChars.
Qed.

Lemma queryWords_isTag (s : string) :
  Forall Apify.isTag (List.filter Apify.longerThan2 (Apify.words s)).
Proof.
  apply List.Forall_forall. intros w [Hin Hlen]%filter_In. split.
  - by apply Nat.ltb_lt in Hlen.
  - pose proof (words_tagChars s) as H. rewrite List.Forall_forall in H.
    by apply H.
Qed.

Lemma queryTags_isTag (query : string) : Forall Apify.isTag (Apify.queryTags query).
Proof.
  unfold Apify.queryTags.
  pose proof (queryWords_isTag query) as Hw.
  set (queryWords := List.filter Apify.longerThan2 (Apify.words query)) in *.
  clearbody queryWords.
  destruct (2 <=? length queryWords)%nat eqn:E; [|exact Hw].
  apply Nat.leb_le in E.
  apply Forall_app. split; [exact Hw|].
  constructor; [|constructor; [|constructor]].
  - apply join_isTag; [|exact Hw].
    destruct queryWords; [cbn in E; lia|discriminate].
  - apply join_isTag.
    + destruct queryWords; [cbn in E; lia|discriminate].
    + eapply Forall_sublist; [exact Hw|apply sublist_take].
Qed.

Lemma locationTags_isTag (location : string) :
  Forall Apify.isTag (flat_map Apify.locationTags (Apify.words location)).
Proof.
  apply List.Forall_forall.
  intros t (w & Hin & Ht)%in_flat_map.
  pose proof (words_tagChars location) as H. rewrite List.Forall_forall in H.
  specialize (H w Hin). unfold Apify.locationTags in Ht.
  destruct (Apify.longerThan2 w) eqn:Hlen; [|destruct Ht].
  apply Nat.ltb_lt in Hlen.
  assert (Apify.isTag w) as Hw by by split.
  destruct Ht as [<-|[<-|[<-|[]]]];
    [exact Hw|by apply isTag_app|by apply isTag_app].
Qed.

Lemma studentTags_isTag : Forall Apify.isTag Apify.studentTags.
Proof. repeat constructor; cbn; lia. Qed.

Lemma newSet_elem_of (seen : gset string) (l : list string) (x : string) :
  x ∈ Apify.newSet seen l <-> x ∈ l /\ x ∉ seen.
Proof.
  revert seen. induction l as [|y l IH]; intros seen; cbn [Apify.newSet].
  - rewrite !elem_of_nil. tauto.
  - destruct (decide (y ∈ seen)) as [Hy|Hy].
    + rewrite IH, elem_of_cons. split; [tauto|].
      intros [[->|H] Hx]; [done|tauto].
    + rewrite !elem_of_cons, IH, not_elem_of_union, not_elem_of_singleton.
      split.
      * intros [->|(H & Hne & Hx)]; tauto.
      * intros [[->|H] Hx]; [tauto|].
        destruct (decide (x = y)) as [->|Hne]; tauto.
Qed.

Lemma newSet_NoDup (seen : gset string) (l : list string) :
  NoDup (Apify.newSet seen l).
Proof.
  revert seen. induction l as [|y l IH]; intros seen; cbn [Apify.newSet].
  - constructor.
  - destruct (decide (y ∈ seen)); [apply IH|].
    constructor; [|apply IH].
    rewrite newSet_elem_of, not_elem_of_union, not_elem_of_singleton. tauto.
Qed.

Lemma newSet_sublist (seen : gset string) (l : list string) :
  Apify.newSet seen l `sublist_of` l.
Proof.
  revert seen. induction l as [|y l IH]; intros seen; cbn [Apify.newSet].
  - constructor.
  - destruct (decide (y ∈ seen)).
    + by apply sublist_cons.
    + by apply sublist_skip.
Qed.

Lemma newSet_app (seen : gset string) (a b : list string) :
  Apify.newSet seen (a ++ b)
  = (Apify.newSet seen a ++ Apify.newSet (list_to_set a ∪ seen) b)%list.
Proof.
  revert seen. induction a as [|y a IH]; intros seen.
  - cbn [app Apify.newSet list_to_set foldr]. f_equal.
    apply set_eq. intros x. rewrite elem_of_union, elem_of_empty. tauto.
  - cbn [Apify.newSet app]. destruct (decide (y ∈ seen)) as [Hy|Hy].
    + rewrite IH. do 2 f_equal. apply set_eq. intros x.
      rewrite list_to_set_cons, !elem_of_union, elem_of_singleton.
      split; [tauto|]. intros [[->|H]|H]; tauto.
    + rewrite IH. cbn [app]. do 3 f_equal. apply set_eq. intros x.
      rewrite list_to_set_cons, !elem_of_union, elem_of_singleton. tauto.
Qed.

Lemma generateHashtags_unfold (query location : string) :
  exists rest,
    Apify.generateHashtags query location
    = take 10 (Apify.newSet ∅ (Apify.queryTags query ++ rest
                                ++ Apify.studentTags))
    /\ Forall Apify.isTag rest.
Proof.
  unfold Apify.generateHashtags, JsArray.slice0.
  change (10 <? 0)%Z with false. cbn iota. change (Z.to_nat 10) with 10%nat.
  destruct (negb (String.eqb location "")).
  - exists (flat_map Apify.locationTags (Apify.words location)).
    split; [by rewrite <- app_assoc|apply locationTags_isTag].
  - exists []. split; [reflexivity|constructor].
Qed.

End Hashtags.

(** The hashtags that [generateHashtags] hands to the Instagram scraper, for
    every query and location: between five and ten of them, pairwise
    distinct, each at least three characters long and made only of the
    characters [a-z], [0-9] and [_] (lower case, no white space, no
    punctuation, no [#]). *)
Theorem generateHashtags_shape (query location : string) :
  let hashtags := Apify.generateHashtags query location in
  (5 <= length hashtags <= 10)%nat
  /\ NoDup hashtags
  /\ Forall Apify.isTag hashtags.
Proof.
  cbn zeta.
  destruct (generateHashtags_unfold query location) as (rest & -> & Hrest).
  set (all := (Apify.queryTags query ++ rest ++ Apify.studentTags)%list).
  assert (5 <= length (Apify.newSet ∅ all))%nat as Hfive.
  { change 5%nat with (length Apify.studentTags).
    apply submseteq_length, NoDup_submseteq.
    - unfold Apify.studentTags.
      repeat (constructor; [rewrite ?elem_of_cons, elem_of_nil;
                            intuition discriminate|]).
      constructor.
    - intros t Ht. apply newSet_elem_of.
      split; [|apply not_elem_of_empty].
      unfold all. rewrite !elem_of_app. by right; right. }
  split; [|split].
  - rewrite length_take. lia.
  - eapply sublist_NoDup; [apply newSet_NoDup|apply sublist_take].
  - eapply Forall_sublist; [|apply sublist_take].
    eapply Forall_sublist; [|apply newSet_sublist].
    unfold all. rewrite !Forall_app.
    split; [apply queryTags_isTag|split; [exact Hrest|apply studentTags_isTag]].
Qed.

(** The limit of ten is applied after the query's own tags: when the query
    alone gives ten distinct tags, the location tags and the five student
    tags are all cut off and the result does not depend on the location. *)
Theorem generateHashtags_long_query (query location : string) :
  (10 <= length (Apify.newSet ∅ (Apify.queryTags query)))%nat ->
  Apify.generateHashtags query location
  = take 10 (Apify.newSet ∅ (Apify.queryTags query)).
Proof.
  intros Hlen.
  destruct (generateHashtags_unfold query location) as (rest & -> & _).
  rewrite newSet_app. by apply take_app_le.
Qed.

Lemma generateHashtags_long_query_witness :
  Apify.generateHashtags "Jazz, wine & tapas: late night rooftop party, Gracia"
                         "Barcelona"
  = [ "jazz"; "wine"; "tapas"; "late"; "night"; "rooftop"; "party";
      "gracia"; "jazzwinetapaslatenightrooftoppartygracia"; "jazzwine" ].
Proof.
  rewrite generateHashtags_long_query; [reflexivity|].
  vm_compute. lia.
Defined.

(** ** Titles of scraped posts *)

Section ScrapedTitles.

Let notNewline (c : ascii) : bool := negb (Ascii.eqb c "010").

Lemma splitLinesGo_noNewline (cur s : string) :
  Apify.allChars notNewline cur = true ->
  Forall (fun line => Apify.allChars notNewline line = true)
         (Apify.splitLinesGo cur s).
Proof.
  revert cur. induction s as [|c s IH]; intros cur Hcur.
  - by repeat constructor.
  - cbn [Apify.splitLinesGo]. destruct (Ascii.eqb c "010") eqn:E.
    + constructor; [exact Hcur|]. by apply IH.
    + apply IH. rewrite allChars_app, Hcur. cbn. unfold notNewline.
      by rewrite E.
Qed.

Lemma allChars_substring (P : ascii -> bool) (n : nat) (s : string) :
  Apify.allChars P s = true ->
  Apify.allChars P (String.substring 0 n s) = true.
Proof.
  revert s. induction n as [|n IH]; intros [|c s]; cbn; try done.
  intros [-> H]%andb_prop. by apply IH.
Qed.

Lemma extractTitle_cut (firstLine : string) :
  let title := if (100 <? String.length firstLine)%nat
               then String.substring 0 100 firstLine ++ "..."
               else firstLine in
  (String.length title <= 103)%nat
  /\ (firstLine <> "" -> title <> "")
  /\ (Apify.allChars notNewline firstLine = true ->
      Apify.allChars notNewline title = true).
Proof.
  cbn zeta. destruct (100 <? String.length firstLine)%nat eqn:E.
  - split; [|split].
    + rewrite append_length. pose proof (substring_0_length 100 firstLine).
      cbn. lia.
    + intros _ H. apply (f_equal String.length) in H.
      rewrite append_length in H. cbn in H. lia.
    + intros H. rewrite allChars_app, allChars_substring; done.
  - apply Nat.ltb_ge in E. split; [lia|]. split; done.
Qed.

End ScrapedTitles.

(** [extractTitle] returns at most 103 characters (100 and the ellipsis), and
    when some line of the text has content the title is not empty and holds
    no line feed (code unit 10, the only separator of [split('\n')]).  A
    carriage return is no separator: the title of a text with CR LF line
    ends keeps the carriage return of its line. *)
Theorem extractTitle_bounds (text : string) :
  (String.length (Apify.extractTitle text) <= 103)%nat
  /\ ((exists line, In line (Apify.splitLinesGo "" text) /\
                    MockData.trim line <> "") ->
      Apify.extractTitle text <> ""
      /\ Apify.allChars (fun c => negb (Ascii.eqb c "010"))
                        (Apify.extractTitle text) = true).
Proof.
  unfold Apify.extractTitle.
  set (hasContent := fun line => negb (String.eqb (MockData.trim line) "")).
  set (lines := List.filter hasContent (Apify.splitLinesGo "" text)).
  split; [apply extractTitle_cut|].
  intros (line & Hin & Hne).
  assert (In line lines) as Hl.
  { apply filter_In. split; [exact Hin|]. unfold hasContent.
    apply negb_true_iff. by apply String.eqb_neq. }
  destruct lines as [|l0 rest] eqn:El; [destruct Hl|].
  assert (In l0 lines) as Hl0 by (rewrite El; by left).
  apply filter_In in Hl0 as [Hl0 Hc]. unfold hasContent in Hc.
  apply negb_true_iff, String.eqb_neq in Hc.
  assert (l0 <> "") as Hl0ne by (intros ->; by apply Hc).
  apply String.eqb_neq in Hl0ne as E. rewrite E.
  pose proof (splitLinesGo_noNewline "" text eq_refl) as Hnn.
  rewrite List.Forall_forall in Hnn. specialize (Hnn l0 Hl0).
  destruct (extractTitle_cut l0) as (_ & H1 & H2). split; auto.
Qed.

Lemma extractTitle_bounds_witness :
  Apify.extractTitle (String "010" ("  " ++ String "010" "Open mic night"
                                         ++ String "010" "Free entry"))
  = "Open mic night"
  /\ Apify.extractTitle ("First line" ++ String "013" (String "010" "Second"))
     = "First line" ++ String "013" ""
  /\ (Apify.extractTitle (String "010" ("  " ++ String "010" "Open mic night"
                                              ++ String "010" "Free entry"))
      <> ""
      /\ Apify.allChars (fun c => negb (Ascii.eqb c "010"))
           (Apify.extractTitle
              (String "010" ("  " ++ String "010" "Open mic night"
                                  ++ String "010" "Free entry"))) = true).
Proof.
  split; [reflexivity|]. split; [reflexivity|].
  apply extractTitle_bounds. exists "Open mic night".
  split; [vm_compute; tauto|discriminate].
Defined.
